(** * Attendance management API: session lifecycle, admission and roles

    A shallow embedding of [backend/main.py]: the office-network filter
    [is_office_network], the role gate [require_admin], the attendance
    handlers [auto_expire_sessions], [check_in], [check_out] and the leave
    handler [approve_leave].

    Conventions of the embedding.
    - A table is the list of its rows in insertion order; an [UPDATE] rewrites
      rows in place and an [INSERT] appends one.
    - A [TIMESTAMPTZ] is its count of microseconds, read in the session's time
      zone, which is taken to have a fixed offset; [NOW()] is a parameter of
      each transaction (it is constant inside one).
    - A UUID is its canonical text; [gen_random_uuid()] is a parameter of the
      handler that inserts.  The text of a request that a statement compares
      with a UUID or stores as a DATE is read by the store first; what the
      store reads, what it refuses and what its exceptions say are taken as
      given ([Store.t]).
    - A handler returns either the value it returns or the [HTTPException]
      it raises, together with the table as committed: a statement that
      raises is rolled back.  Outside [require_admin], which has its own
      recovery path, the store is taken to be reachable. *)

From Stdlib Require Import ZArith NArith Lia List Ascii String Sorted Permutation.
From Stdlib Require Import Floats.PrimFloat.
From stdpp Require Import base option list gmap strings.

Local Open Scope string_scope.
Local Open Scope Z_scope.

(** ** Time *)

Module Clock.

Definition timestamp := Z.

Definition second : Z := 1000000.
Definition minute : Z := 60 * second.
Definition hour : Z := 60 * minute.
Definition day : Z := 24 * hour.

(** [DATE_TRUNC('day', t)] *)
Definition date_trunc_day (t : timestamp) : timestamp := t - t mod day.

(** The wall-clock reading [h:m:s] of the day that starts at [d]. *)
Definition at_time (d : timestamp) (h m s : Z) : timestamp :=
  d + h * hour + m * minute + s * second.

End Clock.

(** ** HTTP outcomes *)

Module Http.

Record HTTPException := { status_code : Z; detail : string }.

Definition HTTP_400_BAD_REQUEST : Z := 400.
Definition HTTP_403_FORBIDDEN : Z := 403.
Definition HTTP_404_NOT_FOUND : Z := 404.

Inductive outcome (A : Type) :=
| Raised (e : HTTPException)
| Returned (a : A).
Arguments Raised {A} e.
Arguments Returned {A} a.

Definition succeeded {A} (o : outcome A) : bool :=
  match o with Returned _ => true | Raised _ => false end.

End Http.

(** ** Conditional updates *)

Module Sql.

Section Update.
Context {row : Type}.
Variable where_ : row -> bool.
Variable set_ : row -> row.

(** [UPDATE t SET ... WHERE ...]: the table after the statement. *)
Definition update (t : list row) : list row :=
  (fun r => if where_ r then set_ r else r) <$> t.

(** The rows of [RETURNING ...], as updated; their number is the cursor's
    [rowcount]. *)
Definition returning (t : list row) : list row :=
  set_ <$> List.filter where_ t.

End Update.

End Sql.

Definition uuid := string.

Definition is_null {A} (o : option A) : bool :=
  match o with None => true | Some _ => false end.

(** ** Office network *)

Module Network.

Inductive ip_version := IPv4 | IPv6.

(** An address object of [ipaddress]: [_version], [_ip] and, for IPv6,
    [_scope_id]. *)
Record address := {
  version : ip_version;
  ip : N;
  scope_id : option string
}.

(** A network object of [ipaddress]. *)
Record network := {
  net_version : ip_version;
  network_address : N;
  netmask : N
}.

Definition version_eqb (v w : ip_version) : bool :=
  match v, w with
  | IPv4, IPv4 | IPv6, IPv6 => true
  | _, _ => false
  end.

(** [a == b] on addresses. *)
Definition address_eqb (a b : address) : bool :=
  (ip a =? ip b)%N
  && version_eqb (version a) (version b)
  && bool_decide (scope_id a = scope_id b).

(** [a in n] for an address [a] and a network [n]. *)
Definition contains (n : network) (a : address) : bool :=
  version_eqb (net_version n) (version a)
  && (N.land (ip a) (netmask n) =? network_address n)%N.

(** [c in s] for a character [c] and a string [s]. *)
Fixpoint has_char (c : ascii) (s : string) : bool :=
  match s with
  | EmptyString => false
  | String a rest => Ascii.eqb a c || has_char c rest
  end.

Section Filter.

(** [ipaddress.ip_address] and [ipaddress.ip_network(_, strict=False)];
    [None] stands for the [ValueError] they raise. *)
Variable ip_address : string -> option address.
Variable ip_network : string -> option network.

(** The loop of [is_office_network] over the entries still to visit. *)
Fixpoint scan (client_ip : address) (entries : list string) : bool :=
  match entries with
  | [] => false
  | allowed :: rest =>
      if has_char "/" allowed then
        match ip_network allowed with
        | Some net => if contains net client_ip then true else scan client_ip rest
        | None => scan client_ip rest
        end
      else
        match ip_address allowed with
        | Some a => if address_eqb client_ip a then true else scan client_ip rest
        | None => scan client_ip rest
        end
  end.

Definition is_office_network (ALLOWED_OFFICE_IPS : list string)
    (ip_address_ : string) : bool :=
  match ALLOWED_OFFICE_IPS with
  | [] => true
  | _ :: _ =>
      match ip_address ip_address_ with
      | Some client_ip => scan client_ip ALLOWED_OFFICE_IPS
      | None => false
      end
  end.

(** An entry that raises when the loop parses it. *)
Definition malformed (allowed : string) : Prop :=
  if has_char "/" allowed then ip_network allowed = None
  else ip_address allowed = None.

(** An entry that lets [client_ip] in: a range that contains it, or the
    address itself. *)
Inductive admits (client_ip : address) (allowed : string) : Prop :=
| admits_range net :
    has_char "/" allowed = true ->
    ip_network allowed = Some net ->
    contains net client_ip = true ->
    admits client_ip allowed
| admits_single a :
    has_char "/" allowed = false ->
    ip_address allowed = Some a ->
    client_ip = a ->
    admits client_ip allowed.

End Filter.

(** *** The IPv4 reading of the two parsers

    [ipaddress] tries [IPv4Address], then [IPv6Address]; this is the first
    attempt, enough to run the filter on dotted-quad addresses. *)

(** [s.split(c)] *)
Fixpoint split (c : ascii) (s : string) : list string :=
  match s with
  | EmptyString => [EmptyString]
  | String a rest =>
      if Ascii.eqb a c then EmptyString :: split c rest
      else match split c rest with
           | hd :: tl => String a hd :: tl
           | [] => [String a EmptyString]
           end
  end.

Definition is_digit (a : ascii) : bool :=
  let n := N_of_ascii a in (48 <=? n)%N && (n <=? 57)%N.

Fixpoint all_digits (s : string) : bool :=
  match s with
  | EmptyString => true
  | String a rest => is_digit a && all_digits rest
  end.

(** [s.isascii() and s.isdigit()] *)
Definition isdigit (s : string) : bool :=
  match s with
  | EmptyString => false
  | _ => all_digits s
  end.

(** [int(s, 10)] on a string of digits. *)
Fixpoint int_from (acc : N) (s : string) : N :=
  match s with
  | EmptyString => acc
  | String a rest => int_from (10 * acc + (N_of_ascii a - 48))%N rest
  end.

Definition leading_zero (s : string) : bool :=
  match s with
  | String "0" (String _ _) => true
  | _ => false
  end.

Definition parse_octet (octet_str : string) : option N :=
  if negb (isdigit octet_str) then None
  else if (3 <? String.length octet_str)%nat then None
  else if leading_zero octet_str then None
  else
    let octet_int := int_from 0 octet_str in
    if (255 <? octet_int)%N then None else Some octet_int.

Definition ip_int_from_string (ip_str : string) : option N :=
  match split "." ip_str with
  | [a; b; c; d] =>
      match parse_octet a, parse_octet b, parse_octet c, parse_octet d with
      | Some a, Some b, Some c, Some d =>
          Some (((a * 256 + b) * 256 + c) * 256 + d)%N
      | _, _, _, _ => None
      end
  | _ => None
  end.

Definition IPv4Address (addr_str : string) : option address :=
  match ip_int_from_string addr_str with
  | Some n => Some {| version := IPv4; ip := n; scope_id := None |}
  | None => None
  end.

Definition ALL_ONES : N := 2 ^ 32 - 1.

Fixpoint count_righthand_zero_bits (bits : nat) (number : N) : N :=
  match bits with
  | O => 0
  | S bits' =>
      if N.odd number then 0
      else (1 + count_righthand_zero_bits bits' (N.div2 number))%N
  end.

Definition prefix_from_ip_int (ip_int : N) : option N :=
  let trailing_zeroes := count_righthand_zero_bits 32 ip_int in
  let prefixlen := (32 - trailing_zeroes)%N in
  let leading_ones := N.shiftr ip_int trailing_zeroes in
  let all_ones := (2 ^ prefixlen - 1)%N in
  if (leading_ones =? all_ones)%N then Some prefixlen else None.

Definition prefix_from_prefix_string (prefixlen_str : string) : option N :=
  if isdigit prefixlen_str then
    let prefixlen := int_from 0 prefixlen_str in
    if (prefixlen <=? 32)%N then Some prefixlen else None
  else None.

Definition prefix_from_ip_string (ip_str : string) : option N :=
  match ip_int_from_string ip_str with
  | Some ip_int =>
      match prefix_from_ip_int ip_int with
      | Some prefixlen => Some prefixlen
      | None => prefix_from_ip_int (N.lxor ip_int ALL_ONES)
      end
  | None => None
  end.

Definition make_netmask (arg : string) : option N :=
  match prefix_from_prefix_string arg with
  | Some prefixlen => Some prefixlen
  | None => prefix_from_ip_string arg
  end.

Definition netmask_of (prefixlen : N) : N :=
  N.lxor ALL_ONES (N.shiftr ALL_ONES prefixlen).

Definition network_of (addr : string) (prefixlen : N) : option network :=
  match IPv4Address addr with
  | Some a =>
      Some {| net_version := IPv4;
              network_address := N.land (ip a) (netmask_of prefixlen);
              netmask := netmask_of prefixlen |}
  | None => None
  end.

(** [IPv4Network(address, strict=False)] *)
Definition IPv4Network (address_ : string) : option network :=
  match split "/" address_ with
  | [addr] => network_of addr 32
  | [addr; mask] =>
      match make_netmask mask with
      | Some prefixlen => network_of addr prefixlen
      | None => None
      end
  | _ => None
  end.

End Network.

(** ** Identity and roles *)

Module Auth.
Import Http.

(** [response.user] of the identity provider. *)
Record User := {
  id : uuid;
  email : string;
  user_metadata : gmap string string
}.

Inductive profile_role := admin | member.

(** The column is [TEXT] with [CHECK (role IN ('admin', 'member'))]. *)
Definition role_text (r : profile_role) : string :=
  match r with admin => "admin" | member => "member" end.

Module Profile.
Record row := {
  id : uuid;
  email : string;
  full_name : option string;
  role : profile_role
}.
End Profile.

(** What [get_db_connection()] and the query on it come to: an exception, or
    the [profiles] table to read. *)
Inductive connection :=
| Failed
| Connected (profiles : list Profile.row).

(** [user.user.user_metadata.get("role", "member")] *)
Definition metadata_role (user : User) : string :=
  default "member" (user_metadata user !! "role").

(** [SELECT role FROM profiles WHERE id = %s], then [fetchone()]. *)
Definition fetch_profile (profiles : list Profile.row) (user : User)
  : option Profile.row :=
  List.find (fun p => bool_decide (Profile.id p = id user)) profiles.

(** The [user_role] that [require_admin] computes before its test. *)
Definition user_role (conn : connection) (user : User) : string :=
  match conn with
  | Connected profiles =>
      match fetch_profile profiles user with
      | Some profile => role_text (Profile.role profile)
      | None => metadata_role user
      end
  | Failed => metadata_role user
  end.

Definition admin_required : HTTPException :=
  {| status_code := HTTP_403_FORBIDDEN;
     detail := "You don't have permission to access this resource. Admin access required." |}.

Definition require_admin (conn : connection) (user : User) : outcome User :=
  if bool_decide (user_role conn user <> "admin")
  then Raised admin_required
  else Returned user.

End Auth.

(** ** What the store takes

    The parameters of a statement reach the store as text.  How the store
    and its driver read such a text, and what their exceptions say, is not
    the handlers' doing: it is taken as given. *)

Module Store.
Import Http.

Record t := {
  (* a text read as a [UUID], as the canonical text of the value; [None]
     when the statement raises on it *)
  uuid_in : string -> option uuid;
  (* a text read as a [DATE], likewise *)
  date_in : string -> option string;
  (* whether a text can be passed as a [TEXT] parameter *)
  text_in : string -> bool;
  (* [str(e)] of the exception that a statement raises on these parameters *)
  complaint : list string -> string
}.

Definition HTTP_500_INTERNAL_SERVER_ERROR : Z := 500.

(** [except Exception as e: raise HTTPException(500, f"{what}: {str(e)}")] *)
Definition failed (db : t) (what : string) (parameters : list string)
  : HTTPException :=
  {| status_code := HTTP_500_INTERNAL_SERVER_ERROR;
     detail := what ++ ": " ++ complaint db parameters |}.

(** [REFERENCES profiles(id)]: the key is the id of some profile. *)
Definition references (profiles : list Auth.Profile.row) (key : uuid) : bool :=
  existsb (fun p => bool_decide (Auth.Profile.id p = key)) profiles.

(** An optional [TEXT] parameter; [None] is sent as [NULL]. *)
Definition optional_text_in (db : t) (o : option string) : bool :=
  match o with
  | Some s => text_in db s
  | None => true
  end.

End Store.

(** ** Attendance *)

Module CheckInRequest.
Record t := { latitude : option float; longitude : option float }.
End CheckInRequest.

Module AttendanceCheckoutRequest.
Record t := { attendance_id : string }.
End AttendanceCheckoutRequest.

Module Attendance.
Import Clock Http.

Inductive attendance_status := present | absent | late.

Record row := {
  id : uuid;
  user_id : uuid;
  check_in_time : timestamp;
  check_out_time : option timestamp;
  status : attendance_status;
  notes : option string;
  latitude : option float;
  longitude : option float;
  created_at : timestamp
}.

Abbreviation table := (list row).

Definition is_absent (s : attendance_status) : bool :=
  match s with absent => true | _ => false end.

Definition SESSION_TIMEOUT : Z := 120 * minute.

(** [WHERE check_out_time IS NULL
      AND check_in_time < NOW() - INTERVAL '120 minutes'
      AND status != 'absent'] *)
Definition stale (now : timestamp) (r : row) : bool :=
  is_null (check_out_time r)
  && (check_in_time r <? now - SESSION_TIMEOUT)
  && negb (is_absent (status r)).

(** [SET status = 'absent',
        check_out_time = check_in_time + INTERVAL '120 minutes'] *)
Definition expire (r : row) : row :=
  {| id := id r; user_id := user_id r;
     check_in_time := check_in_time r;
     check_out_time := Some (check_in_time r + SESSION_TIMEOUT);
     status := absent;
     notes := notes r; latitude := latitude r; longitude := longitude r;
     created_at := created_at r |}.

(** Returns [expired_count] with the table as committed. *)
Definition auto_expire_sessions (now : timestamp) (t : table) : nat * table :=
  (length (Sql.returning (stale now) expire t),
   Sql.update (stale now) expire t).

(** [WHERE user_id = %s AND check_in_time >= DATE_TRUNC('day', NOW())] *)
Definition since_midnight (user : uuid) (now : timestamp) (r : row) : bool :=
  bool_decide (user_id r = user) && (date_trunc_day now <=? check_in_time r).

(** [ORDER BY check_in_time DESC LIMIT 1] *)
Fixpoint latest (rs : list row) : option row :=
  match rs with
  | [] => None
  | r :: rs' =>
      match latest rs' with
      | Some m => if check_in_time r <? check_in_time m then Some m else Some r
      | None => Some r
      end
  end.

(** The [existing] row of [check_in]. *)
Definition existing (user : uuid) (now : timestamp) (t : table) : option uuid :=
  id <$> latest (List.filter (since_midnight user now) t).

Definition LATE_THRESHOLD : Z := 9 * hour.

(** [SELECT NOW() > DATE_TRUNC('day', NOW()) + INTERVAL '9 hour' AS is_late] *)
Definition is_late (now : timestamp) : bool :=
  now >? date_trunc_day now + LATE_THRESHOLD.

Definition status_value (now : timestamp) : attendance_status :=
  if is_late now then late else present.

Definition already_checked_in : HTTPException :=
  {| status_code := HTTP_400_BAD_REQUEST; detail := "Already checked in today" |}.

(** The row of [INSERT INTO attendance (user_id, status, check_in_time,
    latitude, longitude) VALUES (%s, %s, NOW(), %s, %s)]; the other columns
    take their defaults. *)
Definition inserted (fresh : uuid) (user : uuid) (now : timestamp)
    (location : CheckInRequest.t) : row :=
  {| id := fresh; user_id := user;
     check_in_time := now; check_out_time := None;
     status := status_value now;
     notes := None;
     latitude := CheckInRequest.latitude location;
     longitude := CheckInRequest.longitude location;
     created_at := now |}.

Definition check_in_failed (db : Store.t) (user : Auth.User) : HTTPException :=
  Store.failed db "Failed to check in" [Auth.id user].

(** The transaction of [check_in], on the table the sweep has left.  The
    [INSERT] raises when [user_id] is the id of no profile, and the handler
    turns that into a 500; nothing is committed then. *)
Definition check_in_transaction (db : Store.t) (profiles : list Auth.Profile.row)
    (now : timestamp) (fresh : uuid)
    (location : CheckInRequest.t) (user : Auth.User) (t : table)
  : outcome row * table :=
  match existing (Auth.id user) now t with
  | Some _ => (Raised already_checked_in, t)
  | None =>
      if Store.references profiles (Auth.id user)
      then
        let record := inserted fresh (Auth.id user) now location in
        (Returned record, (t ++ [record])%list)
      else (Raised (check_in_failed db user), t)
  end.

(** [check_in]: the sweep runs first, in a transaction of its own whose
    [NOW()] is [sweep_now]; [now] is that of the handler's transaction,
    [fresh] the id the store draws for the new row and [profiles] the
    profiles as the [INSERT] finds them. *)
Definition check_in (db : Store.t) (profiles : list Auth.Profile.row)
    (sweep_now now : timestamp) (fresh : uuid)
    (location : CheckInRequest.t) (user : Auth.User) (t : table)
  : outcome row * table :=
  check_in_transaction db profiles now fresh location user
    (snd (auto_expire_sessions sweep_now t)).

(** [WHERE id = %s AND user_id = %s AND check_out_time IS NULL] *)
Definition open_record (attendance_id user : uuid) (r : row) : bool :=
  bool_decide (id r = attendance_id)
  && bool_decide (user_id r = user)
  && is_null (check_out_time r).

(** [SET check_out_time = NOW()] *)
Definition close (now : timestamp) (r : row) : row :=
  {| id := id r; user_id := user_id r;
     check_in_time := check_in_time r;
     check_out_time := Some now;
     status := status r;
     notes := notes r; latitude := latitude r; longitude := longitude r;
     created_at := created_at r |}.

Definition no_open_check_in : HTTPException :=
  {| status_code := HTTP_400_BAD_REQUEST;
     detail := "No open check-in found for this record" |}.

Definition check_out_failed (db : Store.t)
    (payload : AttendanceCheckoutRequest.t) (user : Auth.User) : HTTPException :=
  Store.failed db "Failed to check out"
    [AttendanceCheckoutRequest.attendance_id payload; Auth.id user].

(** [check_out]: one conditional [UPDATE ... RETURNING].  The store reads
    [attendance_id] as a UUID to compare it with [id]; on a text that it
    cannot read the statement raises and the handler answers 500.  Without a
    returned row the handler raises 400 before it commits. *)
Definition check_out (db : Store.t) (now : timestamp)
    (payload : AttendanceCheckoutRequest.t)
    (user : Auth.User) (t : table) : outcome row * table :=
  match Store.uuid_in db (AttendanceCheckoutRequest.attendance_id payload) with
  | Some attendance_id =>
      let where_ := open_record attendance_id (Auth.id user) in
      match Sql.returning where_ (close now) t with
      | record :: _ => (Returned record, Sql.update where_ (close now) t)
      | [] => (Raised no_open_check_in, t)
      end
  | None => (Raised (check_out_failed db payload user), t)
  end.

End Attendance.

(** ** Leave requests *)

Module LeaveRequest.
Record t := { start_date : string; end_date : string; reason : string }.
End LeaveRequest.

Module LeaveApprovalRequest.

(** [status: Literal["approved", "rejected"]] *)
Inductive decision := approved | rejected.

Record t := {
  leave_id : string;
  status : decision;
  admin_note : option string
}.

End LeaveApprovalRequest.

Module Leaves.
Import Clock Http.

Inductive leave_status := pending | approved | rejected.

Record row := {
  id : uuid;
  user_id : uuid;
  start_date : string;
  end_date : string;
  reason : string;
  status : leave_status;
  admin_note : option string;
  approved_by : option uuid;
  created_at : timestamp;
  updated_at : timestamp
}.

Abbreviation table := (list row).

Definition status_of (d : LeaveApprovalRequest.decision) : leave_status :=
  match d with
  | LeaveApprovalRequest.approved => approved
  | LeaveApprovalRequest.rejected => rejected
  end.

Definition request_leave_failed (db : Store.t) (payload : LeaveRequest.t)
    (user : Auth.User) : HTTPException :=
  Store.failed db "Failed to request leave"
    [Auth.id user; LeaveRequest.start_date payload;
     LeaveRequest.end_date payload; LeaveRequest.reason payload].

(** [request_leave]: [INSERT INTO leaves (user_id, start_date, end_date,
    reason, status) VALUES (%s, %s, %s, %s, 'pending')].  The store reads
    the two dates, and keeps what it has read; the statement raises on a
    text that is no date, on a reason that cannot be passed, and on a
    [user_id] that is the id of no profile.  The handler answers 500 then
    and nothing is committed. *)
Definition request_leave (db : Store.t) (profiles : list Auth.Profile.row)
    (now : timestamp) (fresh : uuid)
    (payload : LeaveRequest.t) (user : Auth.User) (t : table)
  : outcome row * table :=
  match Store.date_in db (LeaveRequest.start_date payload),
        Store.date_in db (LeaveRequest.end_date payload) with
  | Some first, Some last =>
      if Store.text_in db (LeaveRequest.reason payload)
         && Store.references profiles (Auth.id user)
      then
        let leave :=
          {| id := fresh; user_id := Auth.id user;
             start_date := first;
             end_date := last;
             reason := LeaveRequest.reason payload;
             status := pending;
             admin_note := None; approved_by := None;
             created_at := now; updated_at := now |} in
        (Returned leave, (t ++ [leave])%list)
      else (Raised (request_leave_failed db payload user), t)
  | _, _ => (Raised (request_leave_failed db payload user), t)
  end.

(** [WHERE id = %s] *)
Definition targeted (leave_id : uuid) (r : row) : bool :=
  bool_decide (id r = leave_id).

(** [SET status = %s, admin_note = %s, approved_by = %s, updated_at = NOW()] *)
Definition review (now : timestamp) (payload : LeaveApprovalRequest.t)
    (user : Auth.User) (r : row) : row :=
  {| id := id r; user_id := user_id r;
     start_date := start_date r; end_date := end_date r; reason := reason r;
     status := status_of (LeaveApprovalRequest.status payload);
     admin_note := LeaveApprovalRequest.admin_note payload;
     approved_by := Some (Auth.id user);
     created_at := created_at r;
     updated_at := now |}.

Definition leave_not_found : HTTPException :=
  {| status_code := HTTP_404_NOT_FOUND; detail := "Leave request not found" |}.

Definition approve_leave_failed (db : Store.t)
    (payload : LeaveApprovalRequest.t) (user : Auth.User) : HTTPException :=
  Store.failed db "Failed to update leave"
    [default "" (LeaveApprovalRequest.admin_note payload); Auth.id user;
     LeaveApprovalRequest.leave_id payload].

(** The body of [approve_leave], entered with the [user] that the
    [require_admin] dependency returned.  The store reads [leave_id] as a
    UUID to compare it with [id]; the statement raises on a text that it
    cannot read and on a note that cannot be passed, and it raises when it
    finds the leave but [approved_by] would be the id of no profile.  The
    handler answers 500 then, and 404 when no leave has the id; nothing is
    committed in either case. *)
Definition approve_leave (db : Store.t) (profiles : list Auth.Profile.row)
    (now : timestamp) (payload : LeaveApprovalRequest.t)
    (user : Auth.User) (t : table) : outcome row * table :=
  match Store.uuid_in db (LeaveApprovalRequest.leave_id payload) with
  | Some leave_id =>
      if Store.optional_text_in db (LeaveApprovalRequest.admin_note payload)
      then
        let where_ := targeted leave_id in
        match Sql.returning where_ (review now payload user) t with
        | leave :: _ =>
            if Store.references profiles (Auth.id user)
            then (Returned leave, Sql.update where_ (review now payload user) t)
            else (Raised (approve_leave_failed db payload user), t)
        | [] => (Raised leave_not_found, t)
        end
      else (Raised (approve_leave_failed db payload user), t)
  | None => (Raised (approve_leave_failed db payload user), t)
  end.

(** [POST /api/admin/leaves/approve]: the dependency, then the body;
    [conn] is the lookup of the dependency and [profiles] the profiles as
    the [UPDATE] finds them. *)
Definition approve_leave_route (db : Store.t) (conn : Auth.connection)
    (profiles : list Auth.Profile.row) (now : timestamp)
    (payload : LeaveApprovalRequest.t) (caller : Auth.User) (t : table)
  : outcome row * table :=
  match Auth.require_admin conn caller with
  | Returned user => approve_leave db profiles now payload user t
  | Raised e => (Raised e, t)
  end.

End Leaves.

(** ** The handlers as transitions of the store *)

Module Api.
Import Clock.

Record store := {
  attendance : Attendance.table;
  leaves : Leaves.table
}.

(** A request, with what it finds outside the two tables: the instants its
    transactions read from [NOW()], the id the store draws for a new row,
    and the profiles as its statement finds them. *)
Inductive request :=
| CheckIn (profiles : list Auth.Profile.row) (sweep_now now : timestamp)
    (fresh : uuid) (location : CheckInRequest.t) (user : Auth.User)
| CheckOut (now : timestamp) (payload : AttendanceCheckoutRequest.t)
    (user : Auth.User)
| AdminDashboard (now : timestamp)
| MemberAttendance (now : timestamp)
| RequestLeave (profiles : list Auth.Profile.row) (now : timestamp)
    (fresh : uuid) (payload : LeaveRequest.t) (user : Auth.User)
| ApproveLeave (conn : Auth.connection) (profiles : list Auth.Profile.row)
    (now : timestamp) (payload : LeaveApprovalRequest.t) (caller : Auth.User).

Section Handle.
Variable db : Store.t.

(** The store as a request leaves it; the two read endpoints change it only
    through the sweep they start with. *)
Definition handle (q : request) (s : store) : store :=
  match q with
  | CheckIn profiles sweep_now now fresh location user =>
      {| attendance :=
           snd (Attendance.check_in db profiles sweep_now now fresh location
                  user (attendance s));
         leaves := leaves s |}
  | CheckOut now payload user =>
      {| attendance :=
           snd (Attendance.check_out db now payload user (attendance s));
         leaves := leaves s |}
  | AdminDashboard now | MemberAttendance now =>
      {| attendance := snd (Attendance.auto_expire_sessions now (attendance s));
         leaves := leaves s |}
  | RequestLeave profiles now fresh payload user =>
      {| attendance := attendance s;
         leaves :=
           snd (Leaves.request_leave db profiles now fresh payload user
                  (leaves s)) |}
  | ApproveLeave conn profiles now payload caller =>
      {| attendance := attendance s;
         leaves :=
           snd (Leaves.approve_leave_route db conn profiles now payload caller
                  (leaves s)) |}
  end.

Definition run (qs : list request) (s : store) : store :=
  fold_left (fun s q => handle q s) qs s.

End Handle.

End Api.

(** ** Text

    A Python [str] is the sequence of its code points, taken below 256 (the
    reading that the HTTP layer gives header values). *)

Module Text.

(** [c.isspace()] *)
Definition isspace (c : ascii) : bool :=
  let n := N_of_ascii c in
  ((9 <=? n)%N && (n <=? 13)%N) || ((28 <=? n)%N && (n <=? 32)%N)
  || (n =? 133)%N || (n =? 160)%N.

Fixpoint lstrip (s : string) : string :=
  match s with
  | EmptyString => EmptyString
  | String c rest => if isspace c then lstrip rest else s
  end.

Fixpoint rstrip (s : string) : string :=
  match s with
  | EmptyString => EmptyString
  | String c rest =>
      match rstrip rest with
      | EmptyString => if isspace c then EmptyString else String c EmptyString
      | kept => String c kept
      end
  end.

(** [s.strip()] *)
Definition strip (s : string) : string := rstrip (lstrip s).

(** [s.startswith(prefix)] *)
Fixpoint startswith (s prefix : string) {struct prefix} : bool :=
  match prefix with
  | EmptyString => true
  | String p prefix' =>
      match s with
      | EmptyString => false
      | String c s' => Ascii.eqb c p && startswith s' prefix'
      end
  end.

(** [s.replace(old, new)] for a non-empty [old]: the occurrences are taken
    from the left and do not overlap; [skip] counts the characters of the
    occurrence being stepped over. *)
Fixpoint replace_from (old new : string) (skip : nat) (s : string) : string :=
  match s with
  | EmptyString => EmptyString
  | String c rest =>
      match skip with
      | S k => replace_from old new k rest
      | O =>
          if startswith s old
          then (new ++ replace_from old new (String.length old - 1) rest)%string
          else String c (replace_from old new O rest)
      end
  end.

Definition replace (old new s : string) : string := replace_from old new 0 s.

(** [c.lower()] *)
Definition lower_char (c : ascii) : ascii :=
  let n := N_of_ascii c in
  if ((65 <=? n)%N && (n <=? 90)%N)
     || ((192 <=? n)%N && (n <=? 222)%N && negb (n =? 215)%N)
  then ascii_of_N (n + 32)
  else c.

(** [s.lower()] *)
Fixpoint lower (s : string) : string :=
  match s with
  | EmptyString => EmptyString
  | String c rest => String (lower_char c) (lower rest)
  end.

(** [needle in s] *)
Fixpoint contains (needle s : string) : bool :=
  startswith s needle
  || match s with
     | EmptyString => false
     | String _ rest => contains needle rest
     end.

(** [bool(s)] for an optional string: neither [None] nor empty. *)
Definition truthy (o : option string) : option string :=
  match o with
  | Some (String c rest) => Some (String c rest)
  | _ => None
  end.

End Text.

(** ** The office gate *)

Module Request.

(** What the gate reads of a request: the two proxy headers and the host of
    [request.client]. *)
Record t := {
  x_forwarded_for : option string;
  x_real_ip : option string;
  client : option string
}.

End Request.

Module Office.
Import Http.

(** [[ip.strip() for ip in OFFICE_IP_WHITELIST.split(",") if ip.strip()]] *)
Definition allowed_office_ips (OFFICE_IP_WHITELIST : string) : list string :=
  List.map Text.strip
    (List.filter (fun ip => negb (bool_decide (Text.strip ip = EmptyString)))
       (Network.split "," OFFICE_IP_WHITELIST)).

Definition get_client_ip (request : Request.t) : string :=
  match Text.truthy (Request.x_forwarded_for request) with
  | Some forwarded_for =>
      Text.strip (List.hd EmptyString (Network.split "," forwarded_for))
  | None =>
      match Text.truthy (Request.x_real_ip request) with
      | Some real_ip => Text.strip real_ip
      | None =>
          match Request.client request with
          | Some host => host
          | None => "unknown"
          end
      end
  end.

Definition access_denied (client_ip : string) : HTTPException :=
  {| status_code := HTTP_403_FORBIDDEN;
     detail :=
       ("Access denied. Check-in is only allowed from office network. Your IP: "
        ++ client_ip)%string |}.

Section Gate.
Variable ip_address : string -> option Network.address.
Variable ip_network : string -> option Network.network.
Variable ALLOWED_OFFICE_IPS : list string.

Definition require_office_network (request : Request.t) : outcome string :=
  let client_ip := get_client_ip request in
  if negb (Network.is_office_network ip_address ip_network
             ALLOWED_OFFICE_IPS client_ip)
  then Raised (access_denied client_ip)
  else Returned client_ip.

End Gate.

End Office.

(** ** Bearer credentials and the profile endpoint *)

Module Identity.
Import Http.

(** What [supabase.auth.get_user(token)] comes to: an exception with its
    message, or a response with or without a user. *)
Inductive provider_reply :=
| ProviderError (msg : string)
| ProviderResponse (user : option Auth.User).

(** An [HTTPException] with the [headers] it is raised with. *)
Record failure := {
  exception : HTTPException;
  headers : list (string * string)
}.

Definition HTTP_401_UNAUTHORIZED : Z := 401.
Definition HTTP_500_INTERNAL_SERVER_ERROR : Z := 500.

Definition challenge : list (string * string) := [("WWW-Authenticate", "Bearer")].

Definition not_authenticated : failure :=
  {| exception := {| status_code := HTTP_401_UNAUTHORIZED;
                     detail := "Not authenticated" |};
     headers := challenge |}.

Definition invalid_credentials : failure :=
  {| exception := {| status_code := HTTP_401_UNAUTHORIZED;
                     detail := "Invalid authentication credentials" |};
     headers := challenge |}.

Definition misconfigured : failure :=
  {| exception :=
       {| status_code := HTTP_500_INTERNAL_SERVER_ERROR;
          detail := "Server auth misconfigured: invalid Supabase API key. Check SUPABASE_URL and SUPABASE_ANON_KEY in .env." |};
     headers := [] |}.

Definition authentication_failed (msg : string) : failure :=
  {| exception := {| status_code := HTTP_401_UNAUTHORIZED;
                     detail := ("Authentication failed: " ++ msg)%string |};
     headers := challenge |}.

(** [authorization.replace("Bearer ", "").strip()] *)
Definition token_of (authorization : string) : string :=
  Text.strip (Text.replace "Bearer " "" authorization).

Section Provider.
Variable get_user : string -> provider_reply.

Definition get_current_user (authorization : option string)
  : failure + Auth.User :=
  match Text.truthy authorization with
  | None => inl not_authenticated
  | Some authorization =>
      match get_user (token_of authorization) with
      | ProviderResponse (Some user) => inr user
      | ProviderResponse None => inl invalid_credentials
      | ProviderError msg =>
          if Text.contains "api key" (Text.lower msg)
          then inl misconfigured
          else inl (authentication_failed msg)
      end
  end.

End Provider.

(** The response of [get_current_user] as [get_profile] reads it:
    [user.user] and its [created_at]. *)
Record response := {
  user : Auth.User;
  created_at : string
}.

Record profile := {
  id : uuid;
  email : string;
  role : string;
  full_name : string;
  profile_created_at : string
}.

(** [user.user.user_metadata.get("full_name", "")] *)
Definition metadata_full_name (u : Auth.User) : string :=
  default "" (Auth.user_metadata u !! "full_name").

(** [GET /api/profile] *)
Definition get_profile (conn : Auth.connection) (r : response) : profile :=
  let '(user_role, user_full_name) :=
    match conn with
    | Auth.Connected profiles =>
        match Auth.fetch_profile profiles (user r) with
        | Some row =>
            (Auth.role_text (Auth.Profile.role row),
             match Text.truthy (Auth.Profile.full_name row) with
             | Some name => name
             | None => metadata_full_name (user r)
             end)
        | None => (Auth.metadata_role (user r), metadata_full_name (user r))
        end
    | Auth.Failed => (Auth.metadata_role (user r), metadata_full_name (user r))
    end in
  {| id := Auth.id (user r);
     email := Auth.email (user r);
     role := user_role;
     full_name := user_full_name;
     profile_created_at := created_at r |}.

End Identity.

(** ** Listings *)

Module Query.

Section OrderBy.
Context {A : Type}.

(** [before a b]: the [ORDER BY] clause puts [a] strictly ahead of [b]. *)
Variable before : A -> A -> bool.

Fixpoint place (r : A) (sorted : list A) : list A :=
  match sorted with
  | [] => [r]
  | x :: rest => if before x r then x :: place r rest else r :: x :: rest
  end.

(** [ORDER BY]: rows that the clause does not tell apart keep their table
    order, one of the orders the store may give them. *)
Definition order_by (rows : list A) : list A := fold_right place [] rows.

End OrderBy.

(** [LEFT JOIN profiles p ON key = p.id], reading [p.full_name]: one row
    for each profile with that id, and one with [NULL] when there is none. *)
Definition left_join_full_name (profiles : list Auth.Profile.row)
    (key : option uuid) : list (option string) :=
  match key with
  | None => [None]
  | Some k =>
      match List.filter (fun p => bool_decide (Auth.Profile.id p = k)) profiles with
      | [] => [None]
      | found => List.map Auth.Profile.full_name found
      end
  end.

End Query.

Module MemberAttendance.
Import Clock.

Record counts := {
  totalDays : nat;
  presentDays : nat;
  lateDays : nat;
  absentDays : nat
}.

Record t := {
  message : string;
  user_id : uuid;
  role : string;
  attendance : list Attendance.row;
  stats : counts
}.

(** [ORDER BY check_in_time DESC] *)
Definition check_in_desc (a b : Attendance.row) : bool :=
  Attendance.check_in_time a >? Attendance.check_in_time b.

(** [len([r for r in attendance if r["status"] == s])] *)
Definition days (s : Attendance.attendance_status)
    (attendance : list Attendance.row) : nat :=
  length (List.filter
            (fun r => match Attendance.status r, s with
                      | Attendance.present, Attendance.present
                      | Attendance.absent, Attendance.absent
                      | Attendance.late, Attendance.late => true
                      | _, _ => false
                      end) attendance).

(** [member_attendance]: the sweep, in a transaction of its own, then the
    caller's rows, newest first, and their counts by status. *)
Definition member_attendance (sweep_now : timestamp) (user : Auth.User)
    (rows : Attendance.table) : t * Attendance.table :=
  let swept := snd (Attendance.auto_expire_sessions sweep_now rows) in
  let attendance :=
    Query.order_by check_in_desc
      (List.filter (fun r => bool_decide (Attendance.user_id r = Auth.id user))
         swept) in
  ({| message := "Member attendance records";
      user_id := Auth.id user;
      role := Auth.metadata_role user;
      attendance := attendance;
      stats := {| totalDays := length attendance;
                  presentDays := days Attendance.present attendance;
                  lateDays := days Attendance.late attendance;
                  absentDays := days Attendance.absent attendance |} |},
   swept).

End MemberAttendance.

Module MemberLeaves.

(** A row of [get_member_leaves]: the leave and [approved_by_name]. *)
Record t := {
  leave : Leaves.row;
  approved_by_name : option string
}.



End MemberLeaves.

Module AdminLeaves.

(** A row of [get_all_leaves]: the leave, the name and email of its owner
    and [approved_by_name]. *)
Record t := {
  leave : Leaves.row;
  user_name : option string;
  user_email : string;
  approved_by_name : option string
}.

(** [CASE l.status WHEN 'pending' THEN 1 WHEN 'approved' THEN 2
     WHEN 'rejected' THEN 3 END] *)
Definition rank (s : Leaves.leave_status) : Z :=
  match s with
  | Leaves.pending => 1
  | Leaves.approved => 2
  | Leaves.rejected => 3
  end.

(** [ORDER BY CASE l.status ... END, l.created_at DESC] *)
Definition by_status_then_newest (a b : t) : bool :=
  (rank (Leaves.status (leave a)) <? rank (Leaves.status (leave b)))
  || ((rank (Leaves.status (leave a)) =? rank (Leaves.status (leave b)))
      && (Leaves.created_at (leave a) >? Leaves.created_at (leave b))).

(** [FROM leaves l JOIN profiles p ON l.user_id = p.id
     LEFT JOIN profiles ap ON l.approved_by = ap.id] *)
Definition joined (profiles : list Auth.Profile.row) (l : Leaves.row) : list t :=
  List.flat_map
    (fun p =>
       List.map
         (fun name =>
            {| leave := l;
               user_name := Auth.Profile.full_name p;
               user_email := Auth.Profile.email p;
               approved_by_name := name |})
         (Query.left_join_full_name profiles (Leaves.approved_by l)))
    (List.filter (fun p => bool_decide (Leaves.user_id l = Auth.Profile.id p))
       profiles).

(** The body of [get_all_leaves]. *)
Definition get_all_leaves (profiles : list Auth.Profile.row)
    (leaves : Leaves.table) : list t :=
  Query.order_by by_status_then_newest (List.flat_map (joined profiles) leaves).

End AdminLeaves.

(** ** Accounts

    The two handlers that write [profiles].  A row of the table is read
    here through the four columns that the handlers name; [created_at] and
    [updated_at], which take their defaults and which no handler below
    reads, are not part of [Auth.Profile.row]. *)

Module SignUpRequest.
Record t := {
  email : string;
  password : string;
  full_name : option string;
  role : Auth.profile_role
}.
End SignUpRequest.

Module SignInRequest.
Record t := { email : string; password : string }.
End SignInRequest.

Module Accounts.
Import Http.

(** The [credentials] handed to the identity provider. *)
Record credentials := {
  email : string;
  password : string;
  data : option (gmap string string)
}.

(** What a call to the provider comes to: an exception with its message, or
    a response with its [user] and the [access_token] of its [session]. *)
Inductive provider_reply :=
| ProviderError (msg : string)
| ProviderResponse (user : option Auth.User) (session : option string).

Module UserInfo.
Record t := {
  id : uuid;
  email : string;
  full_name : option string;
  role : string;
  user_metadata : gmap string string
}.
End UserInfo.

Record AuthResponse := {
  access_token : string;
  token_type : string;
  user : UserInfo.t;
  message : string
}.

Definition HTTP_401_UNAUTHORIZED : Z := 401.
Definition HTTP_409_CONFLICT : Z := 409.

(** Whether an [INSERT] with this email breaks [email TEXT UNIQUE]. *)
Definition email_taken (profiles : list Auth.Profile.row) (email : string) : bool :=
  List.existsb (fun p => bool_decide (Auth.Profile.email p = email)) profiles.

Definition has_id (profiles : list Auth.Profile.row) (id : uuid) : bool :=
  List.existsb (fun p => bool_decide (Auth.Profile.id p = id)) profiles.

(** [INSERT INTO profiles (id, email, full_name, role) VALUES (...)
     ON CONFLICT (id) DO UPDATE SET full_name = EXCLUDED.full_name,
     role = EXCLUDED.role, updated_at = NOW()]; [None] when the statement
    raises. *)
Definition upsert (profiles : list Auth.Profile.row) (row : Auth.Profile.row)
  : option (list Auth.Profile.row) :=
  if has_id profiles (Auth.Profile.id row) then
    Some (Sql.update
            (fun p => bool_decide (Auth.Profile.id p = Auth.Profile.id row))
            (fun p => {| Auth.Profile.id := Auth.Profile.id p;
                         Auth.Profile.email := Auth.Profile.email p;
                         Auth.Profile.full_name := Auth.Profile.full_name row;
                         Auth.Profile.role := Auth.Profile.role row |})
            profiles)
  else if email_taken profiles (Auth.Profile.email row) then None
  else Some (profiles ++ [row])%list.

Definition sign_up_rejected : HTTPException :=
  {| status_code := HTTP_400_BAD_REQUEST;
     detail := "Sign up failed. User may already exist or invalid credentials." |}.

Definition already_registered : HTTPException :=
  {| status_code := HTTP_409_CONFLICT;
     detail := "User already registered. Please sign in instead." |}.

Definition sign_up_failed (msg : string) : HTTPException :=
  {| status_code := HTTP_400_BAD_REQUEST;
     detail := ("Sign up failed: " ++ msg)%string |}.

(** The [metadata] that [sign_up] builds. *)
Definition sign_up_metadata (user_data : SignUpRequest.t) : gmap string string :=
  let metadata : gmap string string :=
    {[ "role" := Auth.role_text (SignUpRequest.role user_data) ]} in
  match Text.truthy (SignUpRequest.full_name user_data) with
  | Some full_name => <[ "full_name" := full_name ]> metadata
  | None => metadata
  end.

Definition sign_up (provider : credentials -> provider_reply)
    (conn : Auth.connection) (user_data : SignUpRequest.t)
  : outcome AuthResponse * Auth.connection :=
  let metadata := sign_up_metadata user_data in
  match provider {| email := SignUpRequest.email user_data;
                    password := SignUpRequest.password user_data;
                    data := Some metadata |} with
  | ProviderError msg =>
      (Raised
         (if Text.contains "already registered" (Text.lower msg)
             || Text.contains "user already exists" (Text.lower msg)
          then already_registered
          else sign_up_failed msg),
       conn)
  | ProviderResponse None _ => (Raised sign_up_rejected, conn)
  | ProviderResponse (Some user) session =>
      let conn' :=
        match conn with
        | Auth.Connected profiles =>
            match upsert profiles
                    {| Auth.Profile.id := Auth.id user;
                       Auth.Profile.email := SignUpRequest.email user_data;
                       Auth.Profile.full_name := SignUpRequest.full_name user_data;
                       Auth.Profile.role := SignUpRequest.role user_data |} with
            | Some profiles' => Auth.Connected profiles'
            | None => conn
            end
        | Auth.Failed => Auth.Failed
        end in
      (Returned
         {| access_token := default "" session;
            token_type := "bearer";
            user := {| UserInfo.id := Auth.id user;
                       UserInfo.email := Auth.email user;
                       UserInfo.full_name := SignUpRequest.full_name user_data;
                       UserInfo.role :=
                         Auth.role_text (SignUpRequest.role user_data);
                       UserInfo.user_metadata := metadata |};
            message := "User registered successfully. Please check your email to verify your account." |},
       conn')
  end.

Definition invalid_email_or_password : HTTPException :=
  {| status_code := HTTP_401_UNAUTHORIZED; detail := "Invalid email or password" |}.

Definition email_not_verified : HTTPException :=
  {| status_code := HTTP_403_FORBIDDEN;
     detail := "Email not verified. Please check your inbox and click the verification link before signing in." |}.

Definition no_account : HTTPException :=
  {| status_code := HTTP_401_UNAUTHORIZED;
     detail := "No account found with this email" |}.

Definition sign_in_failed (msg : string) : HTTPException :=
  {| status_code := HTTP_401_UNAUTHORIZED;
     detail := ("Authentication failed: " ++ msg)%string |}.

(** The last [except] clause of [sign_in]. *)
Definition sign_in_error (msg : string) : HTTPException :=
  let error_msg := Text.lower msg in
  if Text.contains "email not confirmed" error_msg
     || Text.contains "email_not_confirmed" error_msg
  then email_not_verified
  else if Text.contains "invalid login credentials" error_msg
          || Text.contains "invalid credentials" error_msg
  then invalid_email_or_password
  else if Text.contains "user not found" error_msg then no_account
  else sign_in_failed msg.

Definition sign_in (provider : credentials -> provider_reply)
    (conn : Auth.connection) (creds : SignInRequest.t)
  : outcome AuthResponse * Auth.connection :=
  match provider {| email := SignInRequest.email creds;
                    password := SignInRequest.password creds;
                    data := None |} with
  | ProviderError msg => (Raised (sign_in_error msg), conn)
  | ProviderResponse (Some user) (Some token) =>
      let metadata_name := default "" (Auth.user_metadata user !! "full_name") in
      let '(user_role, user_full_name, conn') :=
        match conn with
        | Auth.Connected profiles =>
            match Auth.fetch_profile profiles user with
            | Some profile =>
                (Auth.role_text (Auth.Profile.role profile),
                 match Text.truthy (Auth.Profile.full_name profile) with
                 | Some name => name
                 | None => metadata_name
                 end,
                 conn)
            | None =>
                if email_taken profiles (Auth.email user)
                then ("member", metadata_name, conn)
                else ("member", metadata_name,
                      Auth.Connected
                        (profiles ++
                         [{| Auth.Profile.id := Auth.id user;
                             Auth.Profile.email := Auth.email user;
                             Auth.Profile.full_name := Some metadata_name;
                             Auth.Profile.role := Auth.member |}])%list)
            end
        | Auth.Failed => ("member", metadata_name, Auth.Failed)
        end in
      (Returned
         {| access_token := token;
            token_type := "bearer";
            user := {| UserInfo.id := Auth.id user;
                       UserInfo.email := Auth.email user;
                       UserInfo.full_name := Some user_full_name;
                       UserInfo.role := user_role;
                       UserInfo.user_metadata :=
                         {[ "role" := user_role;
                            "full_name" := user_full_name ]} |};
            message := "Sign in successful" |},
       conn')
  | ProviderResponse _ _ => (Raised invalid_email_or_password, conn)
  end.

End Accounts.

(** ** Histories *)

Module Trace.
Import Clock.

(** What later requests may have made of an attendance row: its check-out
    set, or the row expired; nothing else moves, and nothing once it has a
    check-out. *)
Definition evolves (r r' : Attendance.row) : Prop :=
  Attendance.id r' = Attendance.id r
  /\ Attendance.user_id r' = Attendance.user_id r
  /\ Attendance.check_in_time r' = Attendance.check_in_time r
  /\ Attendance.notes r' = Attendance.notes r
  /\ Attendance.latitude r' = Attendance.latitude r
  /\ Attendance.longitude r' = Attendance.longitude r
  /\ Attendance.created_at r' = Attendance.created_at r
  /\ (Attendance.check_out_time r <> None -> r' = r)
  /\ (Attendance.status r' = Attendance.status r
      \/ (Attendance.status r' = Attendance.absent
          /\ Attendance.check_out_time r'
             = Some (Attendance.check_in_time r + 120 * minute))).

(** No two rows of one user have their check-ins in the same day. *)
Definition one_per_day (t : Attendance.table) : Prop :=
  forall i j ri rj,
    t !! i = Some ri -> t !! j = Some rj ->
    Attendance.user_id ri = Attendance.user_id rj ->
    date_trunc_day (Attendance.check_in_time ri)
    = date_trunc_day (Attendance.check_in_time rj) ->
    i = j.

(** Every absent row is a session closed 120 minutes after its check-in. *)
Definition absent_is_expired (t : Attendance.table) : Prop :=
  forall r, In r t ->
    Attendance.status r = Attendance.absent ->
    Attendance.check_out_time r
    = Some (Attendance.check_in_time r + 120 * minute).

(** What later requests may have made of a leave: a review, once or more. *)
Definition reviewed (l l' : Leaves.row) : Prop :=
  Leaves.id l' = Leaves.id l
  /\ Leaves.user_id l' = Leaves.user_id l
  /\ Leaves.start_date l' = Leaves.start_date l
  /\ Leaves.end_date l' = Leaves.end_date l
  /\ Leaves.reason l' = Leaves.reason l
  /\ Leaves.created_at l' = Leaves.created_at l
  /\ (Leaves.status l <> Leaves.pending -> Leaves.status l' <> Leaves.pending)
  /\ (l' = l \/ (Leaves.status l' <> Leaves.pending
                 /\ Leaves.approved_by l' <> None)).

(** A leave has an approver exactly when it is no longer pending. *)
Definition approver_iff_decided (t : Leaves.table) : Prop :=
  forall l, In l t ->
    (Leaves.status l = Leaves.pending <-> Leaves.approved_by l = None).

End Trace.

(** ** A reading of the store's input

    The readings that the examples run: UUID text as sixteen bytes of two
    hexadecimal digits in either case, with a hyphen allowed after every
    second byte and braces allowed around the whole; dates in the form
    year-month-day; text without the NUL character. *)

Module Postgres.

Definition hex_digit (c : ascii) : option ascii :=
  let n := N_of_ascii c in
  if ((48 <=? n)%N && (n <=? 57)%N) || ((97 <=? n)%N && (n <=? 102)%N)
  then Some c
  else if (65 <=? n)%N && (n <=? 70)%N then Some (ascii_of_N (n + 32))
  else None.

(** Reads [left] bytes, of which [i] is the index of the first; returns
    their digits in lower case, hyphenated 8-4-4-4-12, with the text that
    follows them. *)
Fixpoint uuid_bytes (left : nat) (i : N) (src : string) : option (string * string) :=
  match left with
  | O => Some (EmptyString, src)
  | S left' =>
      match src with
      | String a (String b rest) =>
          match hex_digit a, hex_digit b with
          | Some a', Some b' =>
              let rest' :=
                match rest with
                | String "-"%char after =>
                    if N.odd i && (i <? 15)%N then after else rest
                | _ => rest
                end in
              match uuid_bytes left' (i + 1)%N rest' with
              | Some (digits, tail) =>
                  let digits' :=
                    if (i =? 3)%N || (i =? 5)%N || (i =? 7)%N || (i =? 9)%N
                    then String "-"%char digits else digits in
                  Some (String a' (String b' digits'), tail)
              | None => None
              end
          | _, _ => None
          end
      | _ => None
      end
  end.

Definition uuid_in (source : string) : option uuid :=
  let braces :=
    match source with String "{"%char _ => true | _ => false end in
  let src :=
    match source with String "{"%char rest => rest | _ => source end in
  match uuid_bytes 16 0 src with
  | Some (digits, tail) =>
      if String.eqb tail (if braces then "}" else EmptyString)
      then Some digits else None
  | None => None
  end.

Definition digit (c : ascii) : option N :=
  let n := N_of_ascii c in
  if (48 <=? n)%N && (n <=? 57)%N then Some (n - 48)%N else None.

(** The number written by a non-empty run of digits. *)
Fixpoint number_from (acc : N) (s : string) : option N :=
  match s with
  | EmptyString => Some acc
  | String c rest =>
      match digit c with
      | Some d => number_from (10 * acc + d)%N rest
      | None => None
      end
  end.

Definition number (s : string) : option N :=
  match s with
  | EmptyString => None
  | _ => number_from 0 s
  end.

(** The text before the first hyphen and the text after it. *)
Fixpoint until_hyphen (s : string) : string * option string :=
  match s with
  | EmptyString => (EmptyString, None)
  | String c rest =>
      if Ascii.eqb c "-"%char then (EmptyString, Some rest)
      else let (head, tail) := until_hyphen rest in (String c head, tail)
  end.

Definition leap (y : N) : bool :=
  ((y mod 4 =? 0)%N && negb (y mod 100 =? 0)%N) || (y mod 400 =? 0)%N.

Definition days_in_month (y m : N) : N :=
  if (m =? 2)%N then (if leap y then 29 else 28)%N
  else if (m =? 4)%N || (m =? 6)%N || (m =? 9)%N || (m =? 11)%N then 30%N
  else 31%N.

Definition digit_char (d : N) : ascii := ascii_of_N (48 + d).

Definition two_digits (n : N) : string :=
  String (digit_char (n / 10)) (String (digit_char (n mod 10)) EmptyString).

Definition four_digits (n : N) : string :=
  (two_digits (n / 100) ++ two_digits (n mod 100))%string.

(** A year of four digits, a month and a day of one or two; the value is
    written year-month-day with two digits for the month and the day. *)
Definition date_in (source : string) : option string :=
  match until_hyphen source with
  | (year, Some rest) =>
      match until_hyphen rest with
      | (month, Some day) =>
          match number year, number month, number day with
          | Some y, Some m, Some d =>
              if (String.length year =? 4)%nat
                 && (String.length month <=? 2)%nat
                 && (String.length day <=? 2)%nat
                 && (1 <=? y)%N && (1 <=? m)%N && (m <=? 12)%N
                 && (1 <=? d)%N && (d <=? days_in_month y m)%N
              then Some (four_digits y ++ "-" ++ two_digits m ++ "-"
                         ++ two_digits d)%string
              else None
          | _, _, _ => None
          end
      | _ => None
      end
  | _ => None
  end.

Definition text_in (s : string) : bool :=
  forallb (fun c => negb (Ascii.eqb c Ascii.zero)) (list_ascii_of_string s).

Definition complaint (parameters : list string) : string :=
  ("refused: " ++ String.concat ", " parameters)%string.

Definition db : Store.t :=
  {| Store.uuid_in := uuid_in; Store.date_in := date_in;
     Store.text_in := text_in; Store.complaint := complaint |}.

End Postgres.

(** ** Sample data *)

Module Sample.
Import Clock.

(** The start of a day. *)
Definition midnight : timestamp := 20000 * day.

Definition alice : Auth.User :=
  {| Auth.id := "a11ce000-0000-4000-8000-00000000000a"; Auth.email := "alice@example.com";
     Auth.user_metadata := ∅ |}.

Definition bob : Auth.User :=
  {| Auth.id := "b0b00000-0000-4000-8000-00000000000b"; Auth.email := "bob@example.com";
     Auth.user_metadata := {[ "role" := "admin" ]} |}.

(** A session of [alice] opened at [t] and still open. *)
Definition session (t : timestamp) : Attendance.row :=
  {| Attendance.id := "5e551000-0000-4000-8000-000000000001"; Attendance.user_id := "a11ce000-0000-4000-8000-00000000000a";
     Attendance.check_in_time := t; Attendance.check_out_time := None;
     Attendance.status := Attendance.present;
     Attendance.notes := None;
     Attendance.latitude := Some 28.5%float;
     Attendance.longitude := Some 77.25%float;
     Attendance.created_at := t |}.

(** The same session, classified [late] at check-in. *)
Definition late_session (t : timestamp) : Attendance.row :=
  {| Attendance.id := "5e552000-0000-4000-8000-000000000002"; Attendance.user_id := "a11ce000-0000-4000-8000-00000000000a";
     Attendance.check_in_time := t; Attendance.check_out_time := None;
     Attendance.status := Attendance.late;
     Attendance.notes := None;
     Attendance.latitude := None; Attendance.longitude := None;
     Attendance.created_at := t |}.

(** A session of [alice] opened at [t] and checked out at [u]. *)
Definition finished (t u : timestamp) : Attendance.row :=
  {| Attendance.id := "5e553000-0000-4000-8000-000000000003"; Attendance.user_id := "a11ce000-0000-4000-8000-00000000000a";
     Attendance.check_in_time := t; Attendance.check_out_time := Some u;
     Attendance.status := Attendance.present;
     Attendance.notes := None;
     Attendance.latitude := None; Attendance.longitude := None;
     Attendance.created_at := t |}.


Definition nowhere : CheckInRequest.t :=
  {| CheckInRequest.latitude := None; CheckInRequest.longitude := None |}.

(** In [profiles], [alice] is an administrator and [bob] a member, though
    the metadata of [bob] say otherwise. *)
Definition alice_row : Auth.Profile.row :=
  {| Auth.Profile.id := "a11ce000-0000-4000-8000-00000000000a"; Auth.Profile.email := "alice@example.com";
     Auth.Profile.full_name := Some "Alice"; Auth.Profile.role := Auth.admin |}.

Definition bob_row : Auth.Profile.row :=
  {| Auth.Profile.id := "b0b00000-0000-4000-8000-00000000000b"; Auth.Profile.email := "bob@example.com";
     Auth.Profile.full_name := None; Auth.Profile.role := Auth.member |}.

Definition profiles : list Auth.Profile.row := [alice_row; bob_row].

(** A leave of [bob] in the given status, reviewed by nobody yet. *)
Definition leave (st : Leaves.leave_status) : Leaves.row :=
  {| Leaves.id := "1eaf0000-0000-4000-8000-000000000001"; Leaves.user_id := "b0b00000-0000-4000-8000-00000000000b";
     Leaves.start_date := "2026-02-02"; Leaves.end_date := "2026-02-06";
     Leaves.reason := "family";
     Leaves.status := st;
     Leaves.admin_note := None; Leaves.approved_by := None;
     Leaves.created_at := midnight; Leaves.updated_at := midnight |}.

Definition verdict (d : LeaveApprovalRequest.decision) : LeaveApprovalRequest.t :=
  {| LeaveApprovalRequest.leave_id := "1eaf0000-0000-4000-8000-000000000001";
     LeaveApprovalRequest.status := d;
     LeaveApprovalRequest.admin_note := Some "seen" |}.

End Sample.

(** * Properties *)

(** ** Conditional updates *)

Section SqlFacts.
Context {row : Type}.
Variable where_ : row -> bool.
Variable set_ : row -> row.

Lemma update_length (t : list row) :
  length (Sql.update where_ set_ t) = length t.
Proof. unfold Sql.update. apply length_fmap. Qed.

Lemma update_lookup (t : list row) (i : nat) (r : row) :
  t !! i = Some r ->
  Sql.update where_ set_ t !! i = Some (if where_ r then set_ r else r).
Proof.
  intros Hi. unfold Sql.update. rewrite list_lookup_fmap, Hi. reflexivity.
Qed.

Lemma update_lookup_None (t : list row) (i : nat) :
  t !! i = None -> Sql.update where_ set_ t !! i = None.
Proof.
  intros Hi. unfold Sql.update. rewrite list_lookup_fmap, Hi. reflexivity.
Qed.

(** Nothing is returned exactly when no row satisfies the condition. *)
Lemma returning_nil (t : list row) :
  Sql.returning where_ set_ t = [] <-> (forall r, In r t -> where_ r = false).
Proof.
  unfold Sql.returning. induction t as [|x t IH]; simpl.
  - split; [intros _ r []|reflexivity].
  - destruct (where_ x) eqn:Hx; simpl.
    + split; [discriminate|]. intros H. specialize (H x (or_introl eq_refl)).
      congruence.
    + rewrite IH. split.
      * intros H r [<-|Hr]; auto.
      * intros H r Hr. apply H. now right.
Qed.

(** The first returned row is the first row that satisfies the condition,
    as updated. *)
Lemma returning_cons (t : list row) (x : row) (rest : list row) :
  Sql.returning where_ set_ t = x :: rest ->
  exists r, In r t /\ where_ r = true /\ x = set_ r.
Proof.
  unfold Sql.returning. induction t as [|y t IH]; simpl; [discriminate|].
  destruct (where_ y) eqn:Hy; simpl.
  - intros [= <- _]. exists y. auto.
  - intros H. destruct (IH H) as (r & Hr & Hw & ->). exists r. auto.
Qed.

Lemma update_untouched (t : list row) :
  (forall r, In r t -> where_ r = false) -> Sql.update where_ set_ t = t.
Proof.
  unfold Sql.update. induction t as [|x t IH]; simpl; intros H; [reflexivity|].
  rewrite (H x (or_introl eq_refl)). f_equal. apply IH.
  intros r Hr. apply H. now right.
Qed.

End SqlFacts.

(** ** The auto-expiry sweep *)

Section Sweep.
Import Clock Attendance.

Lemma stale_iff (now : timestamp) (r : row) :
  stale now r = true <->
  check_out_time r = None /\ status r <> absent
  /\ check_in_time r + 120 * minute < now.
Proof.
  unfold stale, SESSION_TIMEOUT.
  rewrite !andb_true_iff, negb_true_iff, Z.ltb_lt.
  destruct (check_out_time r), (status r); simpl; intuition (try congruence; try lia).
Qed.

Lemma expire_not_stale (now : timestamp) (r : row) : stale now (expire r) = false.
Proof. reflexivity. Qed.

Lemma absent_not_stale (now : timestamp) (r : row) :
  status r = absent -> stale now r = false.
Proof.
  intros H. unfold stale. rewrite H. simpl. now rewrite andb_false_r.
Qed.

Lemma closed_not_stale (now : timestamp) (r : row) :
  check_out_time r <> None -> stale now r = false.
Proof. intros H. unfold stale. destruct (check_out_time r); [reflexivity|congruence]. Qed.

Lemma stale_mono (now1 now2 : timestamp) (r : row) :
  now1 <= now2 -> stale now1 r = true -> stale now2 r = true.
Proof. rewrite !stale_iff. intros Hle (? & ? & ?). repeat split; auto; lia. Qed.

Lemma sweep_lookup (now : timestamp) (t : table) (i : nat) (r : row) :
  t !! i = Some r ->
  snd (auto_expire_sessions now t) !! i
  = Some (if stale now r then expire r else r).
Proof. intros Hi. simpl. now apply update_lookup. Qed.

Lemma sweep_length (now : timestamp) (t : table) :
  length (snd (auto_expire_sessions now t)) = length t.
Proof. simpl. apply update_length. Qed.

(** A later sweep absorbs an earlier one. *)
Lemma sweep_absorbs (now1 now2 : timestamp) (t : table) :
  now1 <= now2 ->
  snd (auto_expire_sessions now2 (snd (auto_expire_sessions now1 t)))
  = snd (auto_expire_sessions now2 t).
Proof.
  intros Hle. simpl. unfold Sql.update.
  induction t as [|r t IH]; simpl; [reflexivity|]. f_equal; [|exact IH].
  destruct (stale now1 r) eqn:H1.
  - rewrite expire_not_stale. now rewrite (stale_mono now1 now2 r Hle H1).
  - reflexivity.
Qed.

End Sweep.

Section SweepClaims.
Import Clock Attendance.

(** C2. The sweep rewrites exactly the rows with a null check-out, a status
    other than [absent] and a check-in more than 120 minutes before [now]:
    such a row gets check-out = check-in + 120 minutes and status [absent],
    its other columns kept; every other row is left as it was, and no row
    is added or removed. *)
Theorem auto_expire_sessions_exact (now : timestamp) (t : table) (i : nat) (r : row) :
  t !! i = Some r ->
  let t' := snd (auto_expire_sessions now t) in
  length t' = length t
  /\ (check_out_time r = None /\ status r <> absent
      /\ check_in_time r + 120 * minute < now ->
      exists r', t' !! i = Some r'
        /\ check_out_time r' = Some (check_in_time r + 120 * minute)
        /\ status r' = absent
        /\ id r' = id r /\ user_id r' = user_id r
        /\ check_in_time r' = check_in_time r /\ notes r' = notes r
        /\ latitude r' = latitude r /\ longitude r' = longitude r
        /\ created_at r' = created_at r)
  /\ (~ (check_out_time r = None /\ status r <> absent
         /\ check_in_time r + 120 * minute < now) ->
      t' !! i = Some r).
Proof.
  intros Hi t'. subst t'. split; [apply sweep_length|].
  rewrite (sweep_lookup now t i r Hi).
  split; intros H.
  - apply stale_iff in H. rewrite H. exists (expire r).
    repeat split; reflexivity.
  - destruct (stale now r) eqn:Hs; [|reflexivity].
    apply stale_iff in Hs. contradiction.
Qed.

(** A session opened at T is closed as absent at T + 120 min by a sweep at
    T + 121 min, and left open by a sweep at T + 119 min. *)
Lemma auto_expire_sessions_exact_witness :
  let T := Sample.midnight + 8 * hour in
  (exists r',
      snd (auto_expire_sessions (T + 121 * minute) [Sample.session T]) !! 0%nat
      = Some r'
      /\ check_out_time r' = Some (T + 120 * minute)
      /\ status r' = absent)
  /\ snd (auto_expire_sessions (T + 119 * minute) [Sample.session T]) !! 0%nat
     = Some (Sample.session T).
Proof.
  intros T. split.
  - destruct (auto_expire_sessions_exact (T + 121 * minute) [Sample.session T]
                0 (Sample.session T) eq_refl) as (_ & Hyes & _).
    assert (Hp : check_out_time (Sample.session T) = None
                 /\ status (Sample.session T) <> absent
                 /\ check_in_time (Sample.session T) + 120 * minute
                    < T + 121 * minute).
    { split; [reflexivity|]. split; [discriminate|]. vm_compute. reflexivity. }
    destruct (Hyes Hp) as (r' & Hr' & Hout & Hst & _).
    exists r'. split; [exact Hr'|]. split; [exact Hout|exact Hst].
  - destruct (auto_expire_sessions_exact (T + 119 * minute) [Sample.session T]
                0 (Sample.session T) eq_refl) as (_ & _ & Hno).
    apply Hno. intros (_ & _ & Hlt). vm_compute in Hlt. discriminate.
Defined.

(** C5. Two sweeps in succession leave the table as one sweep does (at the
    same instant, and also when the second runs later), the second one
    reports no row, and a row that is [absent] after the first sweep,
    whether it was before or has just been expired, is left untouched by a
    second sweep at any time. *)
Theorem auto_expire_sessions_idempotent (now1 now2 : timestamp) (t : table) :
  now1 <= now2 ->
  let t1 := snd (auto_expire_sessions now1 t) in
  snd (auto_expire_sessions now1 t1) = t1
  /\ fst (auto_expire_sessions now1 t1) = 0%nat
  /\ snd (auto_expire_sessions now2 t1) = snd (auto_expire_sessions now2 t)
  /\ (forall i r, t1 !! i = Some r -> status r = absent ->
        snd (auto_expire_sessions now2 t1) !! i = Some r).
Proof.
  intros Hle t1. subst t1.
  assert (Hnone : forall r,
             In r (snd (auto_expire_sessions now1 t)) -> stale now1 r = false).
  { intros r Hr. simpl in Hr. unfold Sql.update in Hr.
    apply list_elem_of_In, list_elem_of_fmap in Hr as (x & -> & _).
    destruct (stale now1 x) eqn:Hx; [apply expire_not_stale|exact Hx]. }
  repeat split.
  - simpl. now apply update_untouched.
  - simpl. apply (returning_nil (stale now1) expire) in Hnone.
    simpl in Hnone. now rewrite Hnone.
  - now apply sweep_absorbs.
  - intros i r Hi Habs. rewrite (sweep_lookup now2 _ i r Hi).
    now rewrite (absent_not_stale now2 r Habs).
Qed.

Lemma auto_expire_sessions_idempotent_witness :
  let T := Sample.midnight + 8 * hour in
  let t := [Sample.session T; Sample.finished T (T + hour)] in
  snd (auto_expire_sessions (T + 3 * hour)
         (snd (auto_expire_sessions (T + 3 * hour) t)))
  = snd (auto_expire_sessions (T + 3 * hour) t)
  /\ snd (auto_expire_sessions (T + 4 * hour)
            (snd (auto_expire_sessions (T + 3 * hour) t)))
     = snd (auto_expire_sessions (T + 4 * hour) t).
Proof.
  intros T t.
  assert (Hle : T + 3 * hour <= T + 4 * hour) by (vm_compute; discriminate).
  destruct (auto_expire_sessions_idempotent (T + 3 * hour) (T + 4 * hour) t Hle)
    as (Hsame & _ & Hlater & _).
  split; [exact Hsame|exact Hlater].
Defined.

End SweepClaims.

(** ** Check-out *)

Section CheckOut.
Import Clock Http Attendance.

Lemma open_record_iff (attendance_id user : uuid) (r : row) :
  open_record attendance_id user r = true <->
  id r = attendance_id /\ user_id r = user /\ check_out_time r = None.
Proof.
  unfold open_record. rewrite !andb_true_iff, !bool_decide_eq_true.
  destruct (check_out_time r); simpl; intuition congruence.
Qed.

Lemma open_record_false (attendance_id user : uuid) (r : row) :
  open_record attendance_id user r = false <->
  ~ (id r = attendance_id /\ user_id r = user /\ check_out_time r = None).
Proof.
  rewrite <- open_record_iff. destruct (open_record attendance_id user r);
    intuition congruence.
Qed.

(** The three ways out of [check_out]. *)
Lemma check_out_cases (db : Store.t) (now : timestamp)
    (payload : AttendanceCheckoutRequest.t) (user : Auth.User) (t : table) :
  let text := AttendanceCheckoutRequest.attendance_id payload in
  (Store.uuid_in db text = None
   /\ check_out db now payload user t
      = (Raised (check_out_failed db payload user), t))
  \/ (exists k, Store.uuid_in db text = Some k
      /\ (forall r, In r t -> open_record k (Auth.id user) r = false)
      /\ check_out db now payload user t = (Raised no_open_check_in, t))
  \/ (exists k r, Store.uuid_in db text = Some k
      /\ In r t /\ open_record k (Auth.id user) r = true
      /\ check_out db now payload user t
         = (Returned (close now r),
            Sql.update (open_record k (Auth.id user)) (close now) t)).
Proof.
  intros text. subst text. unfold check_out.
  destruct (Store.uuid_in db _) as [k|]; [|left; split; reflexivity].
  right.
  destruct (Sql.returning (open_record k (Auth.id user)) (close now) t)
    as [|x rest] eqn:Hret.
  - left. exists k. split; [reflexivity|]. split; [|reflexivity].
    now apply (returning_nil (open_record k (Auth.id user)) (close now)).
  - right. apply returning_cons in Hret as (r & Hr & Hw & ->).
    exists k, r. auto.
Qed.

(** A check-out either raises and leaves the table as it was, or rewrites
    it by the conditional update of some id that the request's text reads
    as. *)
Lemma check_out_table (db : Store.t) (now : timestamp)
    (payload : AttendanceCheckoutRequest.t) (user : Auth.User) (t : table) :
  snd (check_out db now payload user t) = t
  \/ exists k,
       snd (check_out db now payload user t)
       = Sql.update (open_record k (Auth.id user)) (close now) t.
Proof.
  destruct (check_out_cases db now payload user t)
    as [[_ ->]|[(k & _ & _ & ->)|(k & r & _ & _ & _ & ->)]];
    cbn [snd]; [now left|now left|right; now exists k].
Qed.



(** C4, as stated, fails: with a text that is no UUID for the record id, no
    record matches, and yet the answer is not the error of a missing open
    record but a 500. *)
Lemma check_out_unreadable_id_is_internal_error :
  let T := Sample.midnight + 8 * hour in
  let payload := {| AttendanceCheckoutRequest.attendance_id := "not-a-uuid" |} in
  let res := check_out Postgres.db (T + hour) payload Sample.alice [Sample.session T] in
  (forall r, In r [Sample.session T] -> id r <> "not-a-uuid")
  /\ succeeded (fst res) = false
  /\ fst res <> Raised no_open_check_in
  /\ (exists e, fst res = Raised e /\ status_code e = 500)
  /\ snd res = [Sample.session T].
Proof.
  intros T payload res. split; [|split; [|split; [|split]]].
  - intros r [<-|[]]. discriminate.
  - reflexivity.
  - discriminate.
  - eexists. split; reflexivity.
  - reflexivity.
Qed.

(** C10. A check-out that succeeds changes one thing only: the rows with
    the id that the request names, owned by the caller and without a
    check-out, have their check-out set to [now], and keep their id, owner,
    check-in time, status, notes, latitude, longitude and creation time;
    every other row, its check-out included, is as it was, and no row is
    added or removed.  The returned record is one of the rows so closed. *)
Theorem check_out_frame (db : Store.t) (now : timestamp)
    (payload : AttendanceCheckoutRequest.t)
    (user : Auth.User) (t t' : table) (rec : row) :
  check_out db now payload user t = (Returned rec, t') ->
  exists k,
    Store.uuid_in db (AttendanceCheckoutRequest.attendance_id payload) = Some k
    /\ length t' = length t
    /\ (forall i r, t !! i = Some r ->
          (id r = k /\ user_id r = Auth.id user /\ check_out_time r = None ->
           exists r', t' !! i = Some r'
             /\ check_out_time r' = Some now
             /\ id r' = id r /\ user_id r' = user_id r
             /\ check_in_time r' = check_in_time r /\ status r' = status r
             /\ notes r' = notes r /\ latitude r' = latitude r
             /\ longitude r' = longitude r /\ created_at r' = created_at r)
          /\ (~ (id r = k /\ user_id r = Auth.id user /\ check_out_time r = None) ->
              t' !! i = Some r))
    /\ (forall i, t !! i = None -> t' !! i = None)
    /\ (exists i r, t !! i = Some r /\ t' !! i = Some rec
          /\ id r = k /\ user_id r = Auth.id user /\ check_out_time r = None
          /\ check_out_time rec = Some now
          /\ id rec = id r /\ user_id rec = user_id r
          /\ check_in_time rec = check_in_time r /\ status rec = status r
          /\ notes rec = notes r /\ latitude rec = latitude r
          /\ longitude rec = longitude r /\ created_at rec = created_at r).
Proof.
  intros Hres.
  destruct (check_out_cases db now payload user t)
    as [[_ H]|[(k & _ & _ & H)|(k & r & Hk & Hr & Hw & H)]];
    rewrite H in Hres; [discriminate|discriminate|].
  injection Hres as <- <-. exists k. split; [exact Hk|].
  split; [apply update_length|]. split; [|split].
  - intros i x Hx. rewrite (update_lookup _ _ t i x Hx). split.
    + intros Hm. apply open_record_iff in Hm. rewrite Hm.
      eexists. split; [reflexivity|]. repeat split; reflexivity.
    + intros Hm. apply open_record_false in Hm. now rewrite Hm.
  - intros i Hi. now apply update_lookup_None.
  - apply list_elem_of_In, list_elem_of_lookup in Hr as (i & Hi).
    exists i, r. split; [exact Hi|].
    rewrite (update_lookup _ _ t i r Hi), Hw. split; [reflexivity|].
    apply open_record_iff in Hw as (Hid & Hu & Hnull).
    split; [exact Hid|]. split; [exact Hu|]. split; [exact Hnull|].
    repeat split; reflexivity.
Qed.

(** [alice] checks out her late session: it is still [late], and the closed
    session of the day before, next to it, keeps its own check-out. *)
Lemma check_out_frame_witness :
  let T := Sample.midnight + 10 * hour in
  let payload :=
    {| AttendanceCheckoutRequest.attendance_id :=
         "5e552000-0000-4000-8000-000000000002" |} in
  let before := Sample.finished (T - 24 * hour) (T - 20 * hour) in
  let t := [before; Sample.late_session T] in
  let t' := snd (check_out Postgres.db (T + hour) payload Sample.alice t) in
  t' !! 0%nat = Some before
  /\ exists r', t' !! 1%nat = Some r'
       /\ check_out_time r' = Some (T + hour)
       /\ status r' = late /\ check_in_time r' = T.
Proof.
  intros T payload before t t'.
  destruct (check_out_frame Postgres.db (T + hour) payload Sample.alice t t'
              (close (T + hour) (Sample.late_session T)) eq_refl)
    as (k & Hk & _ & Hrows & _).
  injection Hk as <-. split.
  - destruct (Hrows 0%nat before eq_refl) as (_ & Hkeep).
    apply Hkeep. intros (Hid & _). discriminate.
  - destruct (Hrows 1%nat (Sample.late_session T) eq_refl) as (Hhit & _).
    destruct Hhit as (r' & Hr' & Hout & _ & _ & Hin & Hst & _).
    { repeat split; reflexivity. }
    exists r'. split; [exact Hr'|]. split; [exact Hout|].
    split; [exact Hst|exact Hin].
Defined.

End CheckOut.

(** ** Check-in *)

Section CheckIn.
Import Clock Http Attendance.

Lemma day_value : day = 86400000000.
Proof. reflexivity. Qed.

Lemma hour_value : hour = 3600000000.
Proof. reflexivity. Qed.

Lemma date_trunc_day_le (t : timestamp) :
  date_trunc_day t <= t < date_trunc_day t + day.
Proof.
  unfold date_trunc_day. rewrite day_value.
  pose proof (Z.mod_pos_bound t 86400000000). lia.
Qed.

(** Midnight plus a time of day truncates back to midnight. *)
Lemma date_trunc_day_at (d x : Z) :
  d mod day = 0 -> 0 <= x < day -> date_trunc_day (d + x) = d.
Proof.
  intros Hd Hx. unfold date_trunc_day. rewrite day_value in *.
  rewrite Z.add_mod by lia. rewrite Hd, Z.add_0_l, Z.mod_mod by lia.
  rewrite Z.mod_small by lia. lia.
Qed.

Lemma is_late_iff (now : timestamp) :
  is_late now = true <-> date_trunc_day now + 9 * hour < now.
Proof. unfold is_late, LATE_THRESHOLD. rewrite Z.gtb_ltb, Z.ltb_lt. reflexivity. Qed.

Lemma status_value_late (now : timestamp) :
  status_value now = late <-> date_trunc_day now + 9 * hour < now.
Proof.
  rewrite <- is_late_iff. unfold status_value.
  destruct (is_late now); split; congruence.
Qed.

Lemma status_value_present (now : timestamp) :
  status_value now = present <-> now <= date_trunc_day now + 9 * hour.
Proof.
  unfold status_value. destruct (is_late now) eqn:H.
  - apply is_late_iff in H. split; [discriminate|lia].
  - split; [|reflexivity]. intros _.
    destruct (Z_lt_le_dec (date_trunc_day now + 9 * hour) now) as [Hlt|Hle];
      [|exact Hle].
    apply is_late_iff in Hlt. congruence.
Qed.

Lemma latest_None (rs : list row) : latest rs = None <-> rs = [].
Proof.
  destruct rs as [|r rs]; simpl; [tauto|].
  destruct (latest rs) as [m|]; [destruct (_ <? _)|]; split; discriminate.
Qed.

Lemma since_midnight_iff (user : uuid) (now : timestamp) (r : row) :
  since_midnight user now r = true <->
  user_id r = user /\ date_trunc_day now <= check_in_time r.
Proof.
  unfold since_midnight.
  rewrite andb_true_iff, bool_decide_eq_true, Z.leb_le. reflexivity.
Qed.

(** [existing] is a row exactly when the user has a check-in since the
    last midnight. *)
Lemma existing_None (user : uuid) (now : timestamp) (t : table) :
  existing user now t = None <->
  (forall r, In r t -> since_midnight user now r = false).
Proof.
  unfold existing. rewrite fmap_None, latest_None. split.
  - intros Hnil r Hr. destruct (since_midnight user now r) eqn:Hs; [|reflexivity].
    assert (Hin : In r (List.filter (since_midnight user now) t))
      by (apply filter_In; auto).
    rewrite Hnil in Hin. destruct Hin.
  - intros H. induction t as [|x t IH]; simpl; [reflexivity|].
    rewrite (H x (or_introl eq_refl)). apply IH. intros r Hr. apply H. now right.
Qed.

Lemma references_iff (profiles : list Auth.Profile.row) (key : uuid) :
  Store.references profiles key = true <->
  exists p, In p profiles /\ Auth.Profile.id p = key.
Proof.
  unfold Store.references. rewrite existsb_exists.
  split; intros (p & Hp & H); exists p; (split; [exact Hp|]).
  - now apply bool_decide_eq_true in H.
  - now apply bool_decide_eq_true.
Qed.

Lemma references_false (profiles : list Auth.Profile.row) (key : uuid) :
  Store.references profiles key = false <->
  forall p, In p profiles -> Auth.Profile.id p <> key.
Proof.
  destruct (Store.references profiles key) eqn:H.
  - apply references_iff in H as (p & Hp & Heq). split; [discriminate|].
    intros Hall. now destruct (Hall p Hp).
  - split; [|reflexivity]. intros _ p Hp Heq.
    assert (Store.references profiles key = true)
      by (apply references_iff; eauto).
    congruence.
Qed.

(** The three ways out of the transaction of [check_in]. *)
Lemma check_in_transaction_cases (db : Store.t) (profiles : list Auth.Profile.row)
    (now : timestamp) (fresh : uuid)
    (location : CheckInRequest.t) (user : Auth.User) (t : table) :
  ((exists r, In r t /\ since_midnight (Auth.id user) now r = true)
   /\ check_in_transaction db profiles now fresh location user t
      = (Raised already_checked_in, t))
  \/ ((forall r, In r t -> since_midnight (Auth.id user) now r = false)
      /\ Store.references profiles (Auth.id user) = false
      /\ check_in_transaction db profiles now fresh location user t
         = (Raised (check_in_failed db user), t))
  \/ ((forall r, In r t -> since_midnight (Auth.id user) now r = false)
      /\ Store.references profiles (Auth.id user) = true
      /\ check_in_transaction db profiles now fresh location user t
         = (Returned (inserted fresh (Auth.id user) now location),
            (t ++ [inserted fresh (Auth.id user) now location])%list)).
Proof.
  unfold check_in_transaction.
  destruct (existing (Auth.id user) now t) as [e|] eqn:He.
  - left. split; [|reflexivity].
    destruct (List.existsb (since_midnight (Auth.id user) now) t) eqn:Hex.
    + apply existsb_exists in Hex. exact Hex.
    + assert (Hnone : existing (Auth.id user) now t = None).
      { apply existing_None. intros r Hr.
        destruct (since_midnight (Auth.id user) now r) eqn:Hs; [|reflexivity].
        assert (List.existsb (since_midnight (Auth.id user) now) t = true)
          by (apply existsb_exists; eauto).
        congruence. }
      congruence.
  - right. pose proof (proj1 (existing_None _ _ _) He) as Hnone.
    destruct (Store.references profiles (Auth.id user));
      [right|left]; (split; [exact Hnone|]); split; reflexivity.
Qed.

(** A check-in either leaves the swept table as it is or adds one row at
    its end. *)
Lemma check_in_table (db : Store.t) (profiles : list Auth.Profile.row)
    (sweep_now now : timestamp) (fresh : uuid)
    (location : CheckInRequest.t) (user : Auth.User) (t : table) :
  let swept := snd (auto_expire_sessions sweep_now t) in
  snd (check_in db profiles sweep_now now fresh location user t) = swept
  \/ ((forall r, In r swept -> since_midnight (Auth.id user) now r = false)
      /\ snd (check_in db profiles sweep_now now fresh location user t)
         = (swept ++ [inserted fresh (Auth.id user) now location])%list).
Proof.
  intros swept. subst swept. unfold check_in.
  destruct (check_in_transaction_cases db profiles now fresh location user
              (snd (auto_expire_sessions sweep_now t)))
    as [[_ ->]|[(_ & _ & ->)|(Hnone & _ & ->)]]; cbn [snd];
    [now left|now left|right; now split].
Qed.

(** A check-in that returns has added its record to the swept table. *)
Lemma check_in_returned (db : Store.t) (profiles : list Auth.Profile.row)
    (sweep_now now : timestamp) (fresh : uuid)
    (location : CheckInRequest.t) (user : Auth.User) (t t' : table) (rec : row) :
  check_in db profiles sweep_now now fresh location user t = (Returned rec, t') ->
  rec = inserted fresh (Auth.id user) now location
  /\ t' = (snd (auto_expire_sessions sweep_now t) ++ [rec])%list.
Proof.
  unfold check_in. intros Hres.
  destruct (check_in_transaction_cases db profiles now fresh location user
              (snd (auto_expire_sessions sweep_now t)))
    as [[_ H]|[(_ & _ & H)|(_ & _ & H)]];
    rewrite H in Hres; [discriminate|discriminate|].
  injection Hres as <- <-. split; reflexivity.
Qed.

(** The sweep moves no check-in and changes no owner. *)
Lemma sweep_keeps_since_midnight (sweep_now now : timestamp) (user : uuid)
    (t : table) (r : row) :
  In r t -> since_midnight user now r = true ->
  exists r', In r' (snd (auto_expire_sessions sweep_now t))
    /\ since_midnight user now r' = true.
Proof.
  intros Hr Hs. exists (if stale sweep_now r then expire r else r). split.
  - simpl. unfold Sql.update. apply list_elem_of_In, list_elem_of_fmap.
    exists r. split; [reflexivity|]. now apply list_elem_of_In.
  - destruct (stale sweep_now r); exact Hs.
Qed.

End CheckIn.

Section CheckInClaims.
Import Clock Http Attendance.

(** C1, as the code has it.  When the caller has a row whose check-in lies
    in the current day, open or closed and whatever its status, [check_in]
    raises "Already checked in today" (400) and adds no row.  The table it
    leaves is the one left by the sweep that opens the handler: the check-in
    transaction itself changes nothing, and a row that the sweep does not
    find overdue is as it was. *)
Theorem check_in_conflict (db : Store.t) (profiles : list Auth.Profile.row)
    (sweep_now now : timestamp) (fresh : uuid)
    (location : CheckInRequest.t) (user : Auth.User) (t : table) (r : row) :
  In r t ->
  user_id r = Auth.id user ->
  date_trunc_day now <= check_in_time r < date_trunc_day now + day ->
  let t1 := snd (auto_expire_sessions sweep_now t) in
  check_in db profiles sweep_now now fresh location user t
  = (Raised already_checked_in, t1)
  /\ status_code already_checked_in = 400
  /\ check_in_transaction db profiles now fresh location user t1
     = (Raised already_checked_in, t1)
  /\ length t1 = length t
  /\ (forall i x, t !! i = Some x ->
        ~ (check_out_time x = None /\ status x <> absent
           /\ check_in_time x + 120 * minute < sweep_now) ->
        t1 !! i = Some x).
Proof.
  intros Hr Hu [Hday _] t1. subst t1.
  assert (Hs : since_midnight (Auth.id user) now r = true)
    by (apply since_midnight_iff; auto).
  destruct (sweep_keeps_since_midnight sweep_now now _ t r Hr Hs) as (r' & Hr' & Hs').
  assert (Htx : check_in_transaction db profiles now fresh location user
                  (snd (auto_expire_sessions sweep_now t))
                = (Raised already_checked_in, snd (auto_expire_sessions sweep_now t))).
  { destruct (check_in_transaction_cases db profiles now fresh location user
                (snd (auto_expire_sessions sweep_now t)))
      as [[_ H]|[(Hnone & _)|(Hnone & _)]];
      [exact H| |]; rewrite (Hnone r' Hr') in Hs'; discriminate. }
  split; [exact Htx|]. split; [reflexivity|]. split; [exact Htx|].
  split; [apply sweep_length|].
  intros i x Hi Hnot. rewrite (sweep_lookup sweep_now t i x Hi).
  destruct (stale sweep_now x) eqn:Hx; [|reflexivity].
  apply stale_iff in Hx. contradiction.
Qed.

Lemma check_in_conflict_witness :
  let T := Sample.midnight + 8 * hour in
  let t := [Sample.finished T (T + hour)] in
  check_in Postgres.db Sample.profiles (T + 3 * hour) (T + 3 * hour) "5e554000-0000-4000-8000-000000000004" Sample.nowhere Sample.alice t
  = (Raised already_checked_in, t).
Proof.
  intros T t.
  assert (Hday : date_trunc_day (T + 3 * hour)
                 <= check_in_time (Sample.finished T (T + hour))
                 < date_trunc_day (T + 3 * hour) + day).
  { split; vm_compute; [discriminate|reflexivity]. }
  destruct (check_in_conflict Postgres.db Sample.profiles (T + 3 * hour)
              (T + 3 * hour) "5e554000-0000-4000-8000-000000000004"
              Sample.nowhere Sample.alice t (Sample.finished T (T + hour))
              (or_introl eq_refl) eq_refl Hday) as (Hres & _).
  exact Hres.
Defined.

(** C1, as stated, fails: a session opened at 08:00 and still open at 11:00
    belongs to the current day, the check-in of its owner is refused, and
    yet the row is not as it was, for the sweep has closed it as absent. *)
Lemma check_in_conflict_rewrites_stale_row :
  let T := Sample.midnight + 8 * hour in
  let now := T + 3 * hour in
  let t := [Sample.session T] in
  In (Sample.session T) t
  /\ user_id (Sample.session T) = Auth.id Sample.alice
  /\ date_trunc_day now <= check_in_time (Sample.session T)
     < date_trunc_day now + day
  /\ fst (check_in Postgres.db Sample.profiles now now "5e554000-0000-4000-8000-000000000004" Sample.nowhere Sample.alice t)
     = Raised already_checked_in
  /\ snd (check_in Postgres.db Sample.profiles now now "5e554000-0000-4000-8000-000000000004" Sample.nowhere Sample.alice t) <> t
  /\ status <$> snd (check_in Postgres.db Sample.profiles now now "5e554000-0000-4000-8000-000000000004" Sample.nowhere Sample.alice t)
     = [absent].
Proof.
  intros T now t. split; [left; reflexivity|]. split; [reflexivity|].
  split; [split; vm_compute; [discriminate|reflexivity]|].
  split; [reflexivity|]. split; [|reflexivity].
  intros H. apply (f_equal (fmap status)) in H. vm_compute in H. discriminate.
Qed.

(** C3, as the code has it.  The record that [check_in] creates is [late]
    exactly when [now] is strictly after the start of its day plus 9 hours,
    and [present] otherwise: at 09:00:00 sharp it is [present], as it is at
    08:59:59, and it is [late] from the next microsecond on. *)
Theorem check_in_classification (db : Store.t) (profiles : list Auth.Profile.row)
    (sweep_now now : timestamp) (fresh : uuid)
    (location : CheckInRequest.t) (user : Auth.User) (t t' : table) (rec : row) :
  check_in db profiles sweep_now now fresh location user t = (Returned rec, t') ->
  let d := date_trunc_day now in
  check_in_time rec = now
  /\ (status rec = late <-> d + 9 * hour < now)
  /\ (status rec = present <-> now <= d + 9 * hour)
  /\ (now = at_time d 9 0 0 -> status rec = present)
  /\ (now = at_time d 8 59 59 -> status rec = present)
  /\ (now = at_time d 9 0 0 + 1 -> status rec = late).
Proof.
  intros Hres d. apply check_in_returned in Hres as [-> _].
  cbn [check_in_time status inserted].
  split; [reflexivity|].
  split; [apply status_value_late|]. split; [apply status_value_present|].
  subst d. unfold at_time. rewrite hour_value.
  split; [|split]; intros Hnow.
  - apply status_value_present. rewrite hour_value. lia.
  - apply status_value_present. rewrite hour_value.
    unfold minute, second in Hnow. lia.
  - apply status_value_late. rewrite hour_value. lia.
Qed.

Lemma check_in_classification_witness :
  let now := at_time Sample.midnight 9 0 0 in
  exists rec,
    fst (check_in Postgres.db Sample.profiles now now "5e554000-0000-4000-8000-000000000004" Sample.nowhere Sample.alice []) = Returned rec
    /\ status rec = present.
Proof.
  intros now.
  destruct (check_in_classification Postgres.db Sample.profiles now now
              "5e554000-0000-4000-8000-000000000004" Sample.nowhere Sample.alice
              [] [inserted "5e554000-0000-4000-8000-000000000004" (Auth.id Sample.alice) now Sample.nowhere]
              (inserted "5e554000-0000-4000-8000-000000000004" (Auth.id Sample.alice) now Sample.nowhere)
              eq_refl) as (_ & _ & _ & Hsharp & _).
  eexists. split; [reflexivity|]. apply Hsharp. vm_compute. reflexivity.
Defined.

(** C3, as stated, fails: a check-in at 09:00:00 sharp is not [late]. *)
Lemma check_in_at_threshold_not_late :
  let now := at_time Sample.midnight 9 0 0 in
  date_trunc_day now = Sample.midnight
  /\ status_value now = present
  /\ (status <$> snd (check_in Postgres.db Sample.profiles now now "5e554000-0000-4000-8000-000000000004" Sample.nowhere Sample.alice []))
     = [present]
  /\ status_value now <> late.
Proof.
  intros now. split; [reflexivity|]. split; [reflexivity|].
  split; [reflexivity|]. discriminate.
Qed.

End CheckInClaims.

(** ** Closed records *)

Section Terminal.
Import Clock Http Attendance.

Lemma sweep_keeps_closed (now : timestamp) (t : table) (i : nat) (r : row) :
  t !! i = Some r -> check_out_time r <> None ->
  snd (auto_expire_sessions now t) !! i = Some r.
Proof.
  intros Hi Hc. rewrite (sweep_lookup now t i r Hi).
  now rewrite (closed_not_stale now r Hc).
Qed.

Lemma check_out_keeps_closed (db : Store.t) (now : timestamp)
    (payload : AttendanceCheckoutRequest.t) (user : Auth.User)
    (t : table) (i : nat) (r : row) :
  t !! i = Some r -> check_out_time r <> None ->
  snd (check_out db now payload user t) !! i = Some r.
Proof.
  intros Hi Hc.
  destruct (check_out_table db now payload user t) as [->|(k & ->)];
    [exact Hi|].
  rewrite (update_lookup _ _ t i r Hi).
  assert (Hw : open_record k (Auth.id user) r = false).
  { apply open_record_false. intros (_ & _ & Hnull). contradiction. }
  now rewrite Hw.
Qed.

Lemma check_in_keeps_closed (db : Store.t) (profiles : list Auth.Profile.row)
    (sweep_now now : timestamp) (fresh : uuid)
    (location : CheckInRequest.t) (user : Auth.User)
    (t : table) (i : nat) (r : row) :
  t !! i = Some r -> check_out_time r <> None ->
  snd (check_in db profiles sweep_now now fresh location user t) !! i = Some r.
Proof.
  intros Hi Hc.
  pose proof (sweep_keeps_closed sweep_now t i r Hi Hc) as H1.
  destruct (check_in_table db profiles sweep_now now fresh location user t)
    as [->|[_ ->]]; [exact H1|].
  now apply lookup_app_l_Some.
Qed.

Lemma handle_keeps_closed (db : Store.t) (q : Api.request) (s : Api.store)
    (i : nat) (r : row) :
  Api.attendance s !! i = Some r -> check_out_time r <> None ->
  Api.attendance (Api.handle db q s) !! i = Some r.
Proof.
  intros Hi Hc. destruct q; cbn [Api.handle Api.attendance].
  - now apply check_in_keeps_closed.
  - now apply check_out_keeps_closed.
  - now apply sweep_keeps_closed.
  - now apply sweep_keeps_closed.
  - exact Hi.
  - exact Hi.
Qed.

(** C7. A row with a check-out is terminal: whatever requests follow
    (check-ins, check-outs, the sweeps that the read endpoints and check-in
    run, leave requests and approvals), the row stays where it is with all
    its columns, its check-out among them. *)
Theorem closed_record_is_terminal (db : Store.t) (qs : list Api.request)
    (s : Api.store) (i : nat) (r : row) :
  Api.attendance s !! i = Some r ->
  check_out_time r <> None ->
  Api.attendance (Api.run db qs s) !! i = Some r.
Proof.
  revert s. induction qs as [|q qs IH]; intros s Hi Hc; [exact Hi|].
  unfold Api.run. cbn [fold_left]. apply IH; [|exact Hc].
  now apply handle_keeps_closed.
Qed.

Lemma closed_record_is_terminal_witness :
  let T := Sample.midnight + 8 * hour in
  let closed := Sample.finished T (T + hour) in
  let s := {| Api.attendance := [closed]; Api.leaves := [] |} in
  let qs :=
    [Api.CheckOut (T + 2 * hour)
       {| AttendanceCheckoutRequest.attendance_id :=
            "5e553000-0000-4000-8000-000000000003" |} Sample.alice;
     Api.AdminDashboard (T + 5 * hour);
     Api.CheckIn Sample.profiles (T + 30 * hour) (T + 30 * hour)
       "5e554000-0000-4000-8000-000000000004" Sample.nowhere Sample.alice] in
  Api.attendance (Api.run Postgres.db qs s) !! 0%nat = Some closed.
Proof.
  intros T closed s qs.
  apply (closed_record_is_terminal Postgres.db qs s 0 closed eq_refl).
  discriminate.
Defined.

End Terminal.

(** ** Roles *)

Section Roles.
Import Http Auth.

Lemma fetch_profile_Some (profiles : list Profile.row) (user : User)
    (p : Profile.row) :
  fetch_profile profiles user = Some p ->
  In p profiles /\ Profile.id p = id user.
Proof.
  unfold fetch_profile. intros H. apply find_some in H as [Hin Heq].
  split; [exact Hin|]. now apply bool_decide_eq_true in Heq.
Qed.

Lemma fetch_profile_None (profiles : list Profile.row) (user : User) :
  fetch_profile profiles user = None <->
  (forall p, In p profiles -> Profile.id p <> id user).
Proof.
  unfold fetch_profile. split.
  - intros H p Hp Heq. pose proof (find_none _ _ H p Hp) as Hf.
    simpl in Hf. apply bool_decide_eq_false in Hf. contradiction.
  - intros H. induction profiles as [|x ps IH]; simpl; [reflexivity|].
    rewrite bool_decide_eq_false_2 by (apply H; now left).
    apply IH. intros p Hp. apply H. now right.
Qed.

(** C8. The role that [require_admin] tests is the profile row's when the
    lookup finds one, whatever the metadata say; without a row, or when the
    lookup fails, it is the metadata's role, "member" by default.  The
    dependency raises 403 exactly when that role is not "admin", and returns
    the user otherwise; a failed lookup never makes it raise by itself. *)
Theorem require_admin_resolution (conn : connection) (user : User) :
  (forall profiles p,
      conn = Connected profiles -> fetch_profile profiles user = Some p ->
      user_role conn user = role_text (Profile.role p))
  /\ (forall profiles,
        conn = Connected profiles -> fetch_profile profiles user = None ->
        user_role conn user = default "member" (user_metadata user !! "role"))
  /\ (conn = Failed ->
      user_role conn user = default "member" (user_metadata user !! "role"))
  /\ (user_role conn user <> "admin" <->
      require_admin conn user = Raised admin_required)
  /\ (user_role conn user = "admin" <-> require_admin conn user = Returned user)
  /\ status_code admin_required = 403.
Proof.
  split; [|split; [|split; [|split; [|split]]]].
  - intros profiles p -> Hp. simpl. now rewrite Hp.
  - intros profiles -> Hp. simpl. now rewrite Hp.
  - intros ->. reflexivity.
  - unfold require_admin. destruct (bool_decide _) eqn:Hb.
    + apply bool_decide_eq_true in Hb. tauto.
    + apply bool_decide_eq_false in Hb. split; [contradiction|discriminate].
  - unfold require_admin. destruct (bool_decide _) eqn:Hb.
    + apply bool_decide_eq_true in Hb. split; [contradiction|discriminate].
    + apply bool_decide_eq_false in Hb. split; [reflexivity|].
      intros _. destruct (decide (user_role conn user = "admin")); tauto.
  - reflexivity.
Qed.

End Roles.

Section RolesWitness.
Import Http Auth.

(** The profile row of [bob] says member and wins over his metadata; with
    the store out of reach the metadata decide, and they say admin. *)
Lemma require_admin_resolution_witness :
  require_admin (Connected Sample.profiles) Sample.bob = Raised admin_required
  /\ require_admin Failed Sample.bob = Returned Sample.bob
  /\ require_admin (Connected Sample.profiles) Sample.alice = Returned Sample.alice.
Proof.
  split; [|split].
  - destruct (require_admin_resolution (Connected Sample.profiles) Sample.bob)
      as (Hrow & _ & _ & Hraise & _).
    apply Hraise.
    rewrite (Hrow Sample.profiles Sample.bob_row eq_refl eq_refl).
    discriminate.
  - destruct (require_admin_resolution Failed Sample.bob)
      as (_ & _ & Hfail & _ & Hret & _).
    apply Hret. rewrite (Hfail eq_refl). reflexivity.
  - destruct (require_admin_resolution (Connected Sample.profiles) Sample.alice)
      as (_ & _ & _ & _ & Hret & _).
    apply Hret. reflexivity.
Defined.

End RolesWitness.

(** ** Leave approvals *)

Section LeaveClaims.
Import Clock Http Leaves.

Lemma targeted_iff (leave_id : uuid) (r : row) :
  targeted leave_id r = true <-> id r = leave_id.
Proof. unfold targeted. apply bool_decide_eq_true. Qed.

Lemma targeted_false (leave_id : uuid) (r : row) :
  targeted leave_id r = false <-> id r <> leave_id.
Proof. unfold targeted. apply bool_decide_eq_false. Qed.

Lemma status_of_decided (d : LeaveApprovalRequest.decision) :
  status_of d <> pending.
Proof. destruct d; discriminate. Qed.

(** The ways out of the body of [approve_leave]: the statement raises on
    its parameters, no leave has the id, the approver has no profile, or
    the update goes through. *)
Lemma approve_leave_cases (db : Store.t) (profiles : list Auth.Profile.row)
    (now : timestamp) (payload : LeaveApprovalRequest.t)
    (user : Auth.User) (t : table) :
  let text := LeaveApprovalRequest.leave_id payload in
  let note := LeaveApprovalRequest.admin_note payload in
  ((Store.uuid_in db text = None \/ Store.optional_text_in db note = false)
   /\ approve_leave db profiles now payload user t
      = (Raised (approve_leave_failed db payload user), t))
  \/ (exists k, Store.uuid_in db text = Some k
      /\ Store.optional_text_in db note = true
      /\ (forall r, In r t -> targeted k r = false)
      /\ approve_leave db profiles now payload user t
         = (Raised leave_not_found, t))
  \/ (exists k r, Store.uuid_in db text = Some k
      /\ Store.optional_text_in db note = true
      /\ In r t /\ targeted k r = true
      /\ Store.references profiles (Auth.id user) = false
      /\ approve_leave db profiles now payload user t
         = (Raised (approve_leave_failed db payload user), t))
  \/ (exists k r, Store.uuid_in db text = Some k
      /\ Store.optional_text_in db note = true
      /\ In r t /\ targeted k r = true
      /\ Store.references profiles (Auth.id user) = true
      /\ approve_leave db profiles now payload user t
         = (Returned (review now payload user r),
            Sql.update (targeted k) (review now payload user) t)).
Proof.
  intros text note. subst text note. unfold approve_leave.
  destruct (Store.uuid_in db _) as [k|]; [|left; split; [now left|reflexivity]].
  destruct (Store.optional_text_in db _);
    [|left; split; [now right|reflexivity]].
  right.
  destruct (Sql.returning (targeted k) (review now payload user) t)
    as [|x rest] eqn:Hret.
  - left. exists k. split; [reflexivity|]. split; [reflexivity|].
    split; [|reflexivity].
    now apply (returning_nil (targeted k) (review now payload user)).
  - right. apply returning_cons in Hret as (r & Hr & Hw & ->).
    destruct (Store.references profiles (Auth.id user)); [right|left];
      exists k, r; repeat (split; [first [reflexivity|assumption]|]);
      reflexivity.
Qed.

Lemma require_admin_cases (conn : Auth.connection) (caller : Auth.User) :
  (Auth.user_role conn caller <> "admin"
   /\ Auth.require_admin conn caller = Raised Auth.admin_required)
  \/ (Auth.user_role conn caller = "admin"
      /\ Auth.require_admin conn caller = Returned caller).
Proof.
  unfold Auth.require_admin. destruct (bool_decide _) eqn:Hb.
  - apply bool_decide_eq_true in Hb. left. split; [exact Hb|reflexivity].
  - apply bool_decide_eq_false in Hb. right. split; [|reflexivity].
    destruct (decide (Auth.user_role conn caller = "admin")); tauto.
Qed.

(** C9, as the code has it.  An approval goes through exactly when the
    resolved role of the caller is "admin", the store reads the text of the
    request as the id of some leave, takes the note, and the caller has a
    profile to be recorded as approver.  It then gives every leave with
    that id the verdict of the request, approved or rejected and never
    pending, with the caller as approver, the note and [now] as the time of
    the update, whatever the status of that leave was before: a pending
    leave is decided, and a decided one is decided again.  The leaves with
    another id are as they were and no leave is added or removed.  A caller
    who is no administrator is refused with 403, an id that no leave has
    with 404, and a parameter or an approver that the store refuses gives
    500; the table is then unchanged. *)
Theorem approve_leave_transition (db : Store.t) (conn : Auth.connection)
    (profiles : list Auth.Profile.row) (now : timestamp)
    (payload : LeaveApprovalRequest.t) (caller : Auth.User) (t : table) :
  let text := LeaveApprovalRequest.leave_id payload in
  let note := LeaveApprovalRequest.admin_note payload in
  let res := approve_leave_route db conn profiles now payload caller t in
  let verdict := status_of (LeaveApprovalRequest.status payload) in
  let admitted k :=
    Auth.user_role conn caller = "admin"
    /\ Store.uuid_in db text = Some k
    /\ Store.optional_text_in db note = true
    /\ (exists l, In l t /\ id l = k)
    /\ (exists p, In p profiles /\ Auth.Profile.id p = Auth.id caller) in
  (succeeded (fst res) = true <-> exists k, admitted k)
  /\ (forall k, admitted k ->
      (exists leave l, fst res = Returned leave
         /\ In l t /\ id l = k /\ id leave = k
         /\ status leave = verdict /\ status leave <> pending
         /\ approved_by leave = Some (Auth.id caller)
         /\ admin_note leave = note /\ updated_at leave = now
         /\ user_id leave = user_id l
         /\ start_date leave = start_date l /\ end_date leave = end_date l
         /\ reason leave = reason l /\ created_at leave = created_at l)
      /\ length (snd res) = length t
      /\ forall i r, t !! i = Some r ->
           (id r = k ->
            exists r', snd res !! i = Some r'
              /\ status r' = verdict /\ status r' <> pending
              /\ approved_by r' = Some (Auth.id caller)
              /\ admin_note r' = note
              /\ updated_at r' = now
              /\ id r' = id r /\ user_id r' = user_id r
              /\ start_date r' = start_date r /\ end_date r' = end_date r
              /\ reason r' = reason r /\ created_at r' = created_at r)
           /\ (id r <> k -> snd res !! i = Some r))
  /\ (succeeded (fst res) = false -> snd res = t)
  /\ (Auth.user_role conn caller <> "admin" ->
      fst res = Raised Auth.admin_required)
  /\ (Auth.user_role conn caller = "admin" ->
      (Store.uuid_in db text = None \/ Store.optional_text_in db note = false ->
       fst res = Raised (approve_leave_failed db payload caller))
      /\ (forall k, Store.uuid_in db text = Some k ->
            Store.optional_text_in db note = true ->
            ((forall l, In l t -> id l <> k) ->
             fst res = Raised leave_not_found)
            /\ ((exists l, In l t /\ id l = k) ->
                (forall p, In p profiles -> Auth.Profile.id p <> Auth.id caller) ->
                fst res = Raised (approve_leave_failed db payload caller))))
  /\ status_code Auth.admin_required = 403
  /\ status_code leave_not_found = 404
  /\ status_code (approve_leave_failed db payload caller) = 500.
Proof.
  intros text note res verdict admitted. subst text note res verdict admitted.
  cbv beta. unfold approve_leave_route.
  destruct (require_admin_cases conn caller) as [[Hrole ->]|[Hrole ->]].
  { cbn [fst snd succeeded].
    split; [|split; [|split; [|split; [|split; [|split; [|split]]]]]];
      try reflexivity.
    - split; [discriminate|]. intros (k & Hr & _). contradiction.
    - intros k (Hr & _). contradiction.
    - intros Hr. contradiction. }
  destruct (approve_leave_cases db profiles now payload caller t)
    as [[Hbad ->]
       |[(k & Hk & Hnote & Hnone & ->)
        |[(k & r & Hk & Hnote & Hr & Hw & Href & ->)
         |(k & r & Hk & Hnote & Hr & Hw & Href & ->)]]];
    cbn [fst snd succeeded].
  - split; [|split; [|split; [|split; [|split; [|split; [|split]]]]]];
      try reflexivity.
    + split; [discriminate|]. intros (k & _ & Hk & Hn & _).
      destruct Hbad; congruence.
    + intros k (_ & Hk & Hn & _). destruct Hbad; congruence.
    + intros Hr. contradiction.
    + intros _. split; [reflexivity|].
      intros k Hk Hn. destruct Hbad; congruence.
  - split; [|split; [|split; [|split; [|split; [|split; [|split]]]]]];
      try reflexivity.
    + split; [discriminate|]. intros (k' & _ & Hk' & _ & (l & Hl & Hid) & _).
      assert (k' = k) as -> by congruence.
      apply targeted_iff in Hid. rewrite (Hnone l Hl) in Hid. discriminate.
    + intros k' (_ & Hk' & _ & (l & Hl & Hid) & _).
      assert (k' = k) as -> by congruence.
      apply targeted_iff in Hid. rewrite (Hnone l Hl) in Hid. discriminate.
    + intros Hr. contradiction.
    + intros _. split; [intros [Hb|Hb]; congruence|].
      intros k' Hk' _. assert (k' = k) as -> by congruence. split.
      * reflexivity.
      * intros (l & Hl & Hid) _.
        apply targeted_iff in Hid. rewrite (Hnone l Hl) in Hid. discriminate.
  - pose proof (proj1 (references_false _ _) Href) as Hnop.
    split; [|split; [|split; [|split; [|split; [|split; [|split]]]]]];
      try reflexivity.
    + split; [discriminate|]. intros (k' & _ & _ & _ & _ & (p & Hp & Hid)).
      now destruct (Hnop p Hp).
    + intros k' (_ & _ & _ & _ & (p & Hp & Hid)). now destruct (Hnop p Hp).
    + intros Hr0. contradiction.
    + intros _. split; [reflexivity|].
      intros k' Hk' _. assert (k' = k) as -> by congruence. split.
      * intros Hall. apply targeted_iff in Hw. now destruct (Hall r Hr).
      * reflexivity.
  - pose proof (proj1 (references_iff _ _) Href) as Hprof.
    apply targeted_iff in Hw.
    split; [|split; [|split; [|split; [|split; [|split; [|split]]]]]];
      try reflexivity.
    + split; [|reflexivity]. intros _. exists k.
      split; [exact Hrole|]. split; [exact Hk|]. split; [exact Hnote|].
      split; [exists r; auto|exact Hprof].
    + intros k' (_ & Hk' & _). assert (k' = k) as -> by congruence.
      split; [|split].
      * exists (review now payload caller r), r. split; [reflexivity|].
        split; [exact Hr|]. split; [exact Hw|]. split; [exact Hw|].
        split; [reflexivity|]. split; [apply status_of_decided|].
        repeat split; reflexivity.
      * apply update_length.
      * intros i x Hx. rewrite (update_lookup _ _ t i x Hx). split; intros Hid.
        -- apply targeted_iff in Hid. rewrite Hid. eexists.
           split; [reflexivity|]. split; [reflexivity|].
           split; [apply status_of_decided|]. repeat split; reflexivity.
        -- apply targeted_false in Hid. now rewrite Hid.
    + discriminate.
    + intros Hr0. contradiction.
    + intros _. split; [intros [Hb|Hb]; congruence|].
      intros k' Hk' _. assert (k' = k) as -> by congruence. split.
      * intros Hall. now destruct (Hall r Hr).
      * intros _ Hall. destruct Hprof as (p & Hp & Hid).
        now destruct (Hall p Hp).
Qed.

(** A pending leave approved by [alice], an administrator by her profile
    row, under an upper-case spelling of its id: it becomes approved with
    her as approver.  An approved leave that she rejects becomes
    rejected. *)
Lemma approve_leave_transition_witness :
  let first :=
    approve_leave_route Postgres.db (Auth.Connected Sample.profiles)
      Sample.profiles (Sample.midnight + hour)
      {| LeaveApprovalRequest.leave_id := "1EAF0000-0000-4000-8000-000000000001";
         LeaveApprovalRequest.status := LeaveApprovalRequest.approved;
         LeaveApprovalRequest.admin_note := None |}
      Sample.alice [Sample.leave pending] in
  let second :=
    approve_leave_route Postgres.db (Auth.Connected Sample.profiles)
      Sample.profiles (Sample.midnight + 2 * hour)
      (Sample.verdict LeaveApprovalRequest.rejected)
      Sample.alice [Sample.leave approved] in
  (exists r', snd first !! 0%nat = Some r'
     /\ status r' = approved
     /\ approved_by r' = Some "a11ce000-0000-4000-8000-00000000000a")
  /\ (exists r'', snd second !! 0%nat = Some r'' /\ status r'' = rejected).
Proof.
  intros first second.
  assert (Hprof : exists p, In p Sample.profiles
                    /\ Auth.Profile.id p = Auth.id Sample.alice)
    by (exists Sample.alice_row; split; [now left|reflexivity]).
  split.
  - destruct (approve_leave_transition Postgres.db (Auth.Connected Sample.profiles)
                Sample.profiles (Sample.midnight + hour)
                {| LeaveApprovalRequest.leave_id :=
                     "1EAF0000-0000-4000-8000-000000000001";
                   LeaveApprovalRequest.status := LeaveApprovalRequest.approved;
                   LeaveApprovalRequest.admin_note := None |}
                Sample.alice [Sample.leave pending]) as (_ & Hok & _).
    destruct (Hok (id (Sample.leave pending))) as (_ & _ & Hrows).
    { split; [reflexivity|]. split; [reflexivity|]. split; [reflexivity|].
      split; [|exact Hprof].
      exists (Sample.leave pending). split; [now left|reflexivity]. }
    destruct (Hrows 0%nat (Sample.leave pending) eq_refl) as (Hhit & _).
    destruct (Hhit eq_refl) as (r' & Hr' & Hst & _ & Hby & _).
    exists r'. split; [exact Hr'|]. split; [exact Hst|exact Hby].
  - destruct (approve_leave_transition Postgres.db (Auth.Connected Sample.profiles)
                Sample.profiles (Sample.midnight + 2 * hour)
                (Sample.verdict LeaveApprovalRequest.rejected)
                Sample.alice [Sample.leave approved]) as (_ & Hok & _).
    destruct (Hok (id (Sample.leave approved))) as (_ & _ & Hrows).
    { split; [reflexivity|]. split; [reflexivity|]. split; [reflexivity|].
      split; [|exact Hprof].
      exists (Sample.leave approved). split; [now left|reflexivity]. }
    destruct (Hrows 0%nat (Sample.leave approved) eq_refl) as (Hhit & _).
    destruct (Hhit eq_refl) as (r'' & Hr'' & Hst & _).
    exists r''. split; [exact Hr''|exact Hst].
Defined.
(** C9, as stated, fails: a leave that is already approved is moved to
    rejected by another call. *)
Lemma approve_leave_reopens_decided :
  let res :=
    approve_leave_route Postgres.db (Auth.Connected Sample.profiles)
      Sample.profiles (Sample.midnight + hour)
      (Sample.verdict LeaveApprovalRequest.rejected) Sample.alice
      [Sample.leave approved] in
  status (Sample.leave approved) = approved
  /\ succeeded (fst res) = true
  /\ status <$> snd res = [rejected].
Proof. intros res. split; [reflexivity|]. split; reflexivity. Qed.

End LeaveClaims.

(** ** Office network *)

Section NetworkFacts.
Import Network.

Lemma version_eqb_eq (v w : ip_version) : version_eqb v w = true <-> v = w.
Proof. destruct v, w; simpl; split; congruence. Qed.

(** [==] on addresses is equality of the objects. *)
Lemma address_eqb_eq (a b : address) : address_eqb a b = true <-> a = b.
Proof.
  unfold address_eqb.
  rewrite !andb_true_iff, N.eqb_eq, version_eqb_eq, bool_decide_eq_true.
  destruct a, b; simpl. split.
  - intros [[-> ->] ->]. reflexivity.
  - intros [= -> -> ->]. auto.
Qed.

(** [in] is containment: same family, and the address masked by the
    netmask is the network address. *)
Lemma contains_iff (n : network) (a : address) :
  contains n a = true <->
  net_version n = version a /\ N.land (ip a) (netmask n) = network_address n.
Proof.
  unfold contains. rewrite andb_true_iff, version_eqb_eq, N.eqb_eq. reflexivity.
Qed.

Variable ip_address : string -> option address.
Variable ip_network : string -> option network.

Lemma scan_cons (c : address) (e : string) (rest : list string) :
  scan ip_address ip_network c (e :: rest) = true <->
  admits ip_address ip_network c e
  \/ scan ip_address ip_network c rest = true.
Proof.
  simpl. destruct (has_char "/" e) eqn:Hs.
  - destruct (ip_network e) as [net|] eqn:Hn.
    + destruct (contains net c) eqn:Hc.
      * split; [|reflexivity]. intros _. left. now apply (admits_range _ _ _ _ net).
      * split; [now right|]. intros [Ha|Hr]; [|exact Hr].
        destruct Ha as [net' _ Hn' Hc'|a Hs' _ _]; congruence.
    + split; [now right|]. intros [Ha|Hr]; [|exact Hr].
      destruct Ha as [net' _ Hn' _|a Hs' _ _]; congruence.
  - destruct (ip_address e) as [a|] eqn:Ha.
    + destruct (address_eqb c a) eqn:Hc.
      * split; [|reflexivity]. intros _. left.
        apply (admits_single _ _ _ _ a); auto. now apply address_eqb_eq.
      * split; [now right|]. intros [Hadm|Hr]; [|exact Hr].
        destruct Hadm as [net' Hs' _ _|a' _ Ha' Heq]; [congruence|].
        assert (a' = a) by congruence. subst a' c.
        assert (address_eqb a a = true) by now apply address_eqb_eq.
        congruence.
    + split; [now right|]. intros [Hadm|Hr]; [|exact Hr].
      destruct Hadm as [net' Hs' _ _|a' _ Ha' _]; congruence.
Qed.

Lemma scan_true_iff (c : address) (entries : list string) :
  scan ip_address ip_network c entries = true <->
  exists e, In e entries /\ admits ip_address ip_network c e.
Proof.
  induction entries as [|e rest IH].
  - simpl. split; [discriminate|]. intros (e & [] & _).
  - rewrite scan_cons, IH. split.
    + intros [Ha|(e' & Hin & Ha)]; [exists e|exists e']; simpl; auto.
    + intros (e' & [<-|Hin] & Ha); [now left|right; eauto].
Qed.

Lemma malformed_not_admitted (c : address) (e : string) :
  malformed ip_address ip_network e -> ~ admits ip_address ip_network c e.
Proof.
  unfold malformed. intros Hm [net Hs Hn _|a Hs Ha _]; rewrite Hs in Hm; congruence.
Qed.

(** The loop steps over an entry that does not parse. *)
Lemma scan_skips_malformed (c : address) (before : list string) (e : string)
    (after : list string) :
  malformed ip_address ip_network e ->
  scan ip_address ip_network c (before ++ e :: after)%list
  = scan ip_address ip_network c (before ++ after)%list.
Proof.
  intros Hm.
  assert (H : scan ip_address ip_network c (before ++ e :: after)%list = true
              <-> scan ip_address ip_network c (before ++ after)%list = true).
  { rewrite !scan_true_iff. split; intros (x & Hin & Ha); exists x;
      (split; [|exact Ha]); apply in_app_iff; apply in_app_iff in Hin.
    - destruct Hin as [Hin|[<-|Hin]]; auto.
      now apply (malformed_not_admitted c e) in Ha.
    - destruct Hin as [Hin|Hin]; [now left|right; now right]. }
  destruct (scan _ _ c (before ++ e :: after)%list),
    (scan _ _ c (before ++ after)%list); intuition congruence.
Qed.

(** C6. With an empty allowlist every candidate is let in.  Otherwise a
    candidate that does not parse is refused, and one that parses is let in
    exactly when some entry admits it: an entry with a slash that parses as
    a network containing the address, or an entry without one that parses as
    that very address.  An entry that does not parse admits nothing and can
    be dropped from a list that has other entries without changing the
    answer. *)
Theorem is_office_network_decision (allowlist : list string) (candidate : string) :
  (allowlist = [] ->
   is_office_network ip_address ip_network allowlist candidate = true)
  /\ (allowlist <> [] -> ip_address candidate = None ->
      is_office_network ip_address ip_network allowlist candidate = false)
  /\ (forall client_ip, allowlist <> [] -> ip_address candidate = Some client_ip ->
        (is_office_network ip_address ip_network allowlist candidate = true <->
         exists e, In e allowlist /\ admits ip_address ip_network client_ip e))
  /\ (forall client_ip e,
        admits ip_address ip_network client_ip e <->
        (has_char "/" e = true
         /\ exists net, ip_network e = Some net
              /\ net_version net = version client_ip
              /\ N.land (ip client_ip) (netmask net) = network_address net)
        \/ (has_char "/" e = false /\ ip_address e = Some client_ip))
  /\ (forall before e after,
        allowlist = (before ++ e :: after)%list ->
        malformed ip_address ip_network e ->
        (before ++ after)%list <> [] ->
        is_office_network ip_address ip_network allowlist candidate
        = is_office_network ip_address ip_network (before ++ after)%list candidate).
Proof.
  split; [|split; [|split; [|split]]].
  - intros ->. reflexivity.
  - intros Hne Hc. destruct allowlist; [contradiction|]. simpl. now rewrite Hc.
  - intros c Hne Hc. rewrite <- scan_true_iff.
    destruct allowlist; [contradiction|].
    unfold is_office_network. rewrite Hc. reflexivity.
  - intros c e. split.
    + intros [net Hs Hn Hc|a Hs Ha ->].
      * left. split; [exact Hs|]. exists net. split; [exact Hn|].
        now apply contains_iff.
      * right. auto.
    + intros [(Hs & net & Hn & Hc)|(Hs & Ha)].
      * apply (admits_range _ _ _ _ net); auto. now apply contains_iff.
      * now apply (admits_single _ _ _ _ c).
  - intros before e after -> Hm Hne.
    unfold is_office_network.
    destruct (before ++ e :: after)%list eqn:H1; [now destruct before|].
    rewrite <- H1.
    destruct (before ++ after)%list eqn:H2; [contradiction|]. rewrite <- H2.
    destruct (ip_address candidate); [|reflexivity].
    now apply scan_skips_malformed.
Qed.

End NetworkFacts.

Section NetworkWitness.
Import Network.

(** [192.168.1.50] is let in by [192.168.1.0/24] and [10.0.0.5] is not; an
    entry that does not parse changes neither answer; [unknown] is refused,
    unless the allowlist is empty. *)
Lemma is_office_network_decision_witness :
  is_office_network IPv4Address IPv4Network
    ["office"; "192.168.1.0/24"] "192.168.1.50" = true
  /\ is_office_network IPv4Address IPv4Network
       ["office"; "192.168.1.0/24"] "10.0.0.5"
     = is_office_network IPv4Address IPv4Network ["192.168.1.0/24"] "10.0.0.5"
  /\ is_office_network IPv4Address IPv4Network ["192.168.1.0/24"] "unknown" = false
  /\ is_office_network IPv4Address IPv4Network [] "unknown" = true.
Proof.
  split; [|split; [|split]].
  - destruct (is_office_network_decision IPv4Address IPv4Network
                ["office"; "192.168.1.0/24"] "192.168.1.50")
      as (_ & _ & Hiff & Hadm & _).
    apply (Hiff {| version := IPv4; ip := 3232235826; scope_id := None |});
      [discriminate|reflexivity|].
    exists "192.168.1.0/24". split; [right; left; reflexivity|].
    apply Hadm. left. split; [reflexivity|].
    exists {| net_version := IPv4; network_address := 3232235776;
              netmask := 4294967040 |}.
    split; [reflexivity|]. split; reflexivity.
  - destruct (is_office_network_decision IPv4Address IPv4Network
                ["office"; "192.168.1.0/24"] "10.0.0.5") as (_ & _ & _ & _ & Hskip).
    apply (Hskip [] "office" ["192.168.1.0/24"]);
      [reflexivity|reflexivity|discriminate].
  - destruct (is_office_network_decision IPv4Address IPv4Network
                ["192.168.1.0/24"] "unknown") as (_ & Hbad & _).
    apply Hbad; [discriminate|reflexivity].
  - destruct (is_office_network_decision IPv4Address IPv4Network [] "unknown")
      as (Hempty & _).
    apply Hempty. reflexivity.
Defined.

End NetworkWitness.

(** * Further properties of the handlers *)

(** ** Check-in and check-out, end to end *)

Section SessionLifecycle.
Import Clock Http Attendance.

Lemma since_midnight_false (user : uuid) (now : timestamp) (r : row) :
  since_midnight user now r = false <->
  (user_id r = user -> check_in_time r < date_trunc_day now).
Proof.
  destruct (since_midnight user now r) eqn:H.
  - apply since_midnight_iff in H as [Hu Hd]. split; [discriminate|].
    intros Hlt. specialize (Hlt Hu). lia.
  - split; [|reflexivity]. intros _ Hu.
    destruct (Z_lt_le_dec (check_in_time r) (date_trunc_day now)) as [Hlt|Hle];
      [exact Hlt|].
    assert (since_midnight user now r = true)
      by (apply since_midnight_iff; auto).
    congruence.
Qed.

Lemma sweep_In (now : timestamp) (t : table) (r' : row) :
  In r' (snd (auto_expire_sessions now t)) ->
  exists r, In r t /\ r' = (if stale now r then expire r else r).
Proof.
  simpl. unfold Sql.update. intros H.
  apply list_elem_of_In, list_elem_of_fmap in H as (r & -> & Hr).
  exists r. split; [now apply list_elem_of_In|reflexivity].
Qed.



(** After a check-in that went through at [now], a further check-in of the
    same user at any instant of that day, or of a day before, is refused
    with 400, whatever sweeps and other requests' sweeps ran at the
    start of it. *)
Theorem check_in_twice_refused (db : Store.t)
    (profiles profiles2 : list Auth.Profile.row)
    (sweep_now now sweep_now2 now2 : timestamp)
    (fresh fresh2 : uuid) (location location2 : CheckInRequest.t)
    (user : Auth.User) (t t1 : table) (rec : row) :
  check_in db profiles sweep_now now fresh location user t = (Returned rec, t1) ->
  date_trunc_day now2 <= now ->
  check_in db profiles2 sweep_now2 now2 fresh2 location2 user t1
  = (Raised already_checked_in, snd (auto_expire_sessions sweep_now2 t1))
  /\ length (snd (auto_expire_sessions sweep_now2 t1)) = length t1.
Proof.
  intros H1 Hday. split; [|apply sweep_length].
  apply check_in_returned in H1 as [-> ->].
  set (rec := inserted fresh (Auth.id user) now location).
  set (t1 := (snd (auto_expire_sessions sweep_now t) ++ [rec])%list).
  assert (Hin : In rec t1) by (apply in_app_iff; right; now left).
  assert (Hs : since_midnight (Auth.id user) now2 rec = true)
    by (apply since_midnight_iff; split; [reflexivity|exact Hday]).
  destruct (sweep_keeps_since_midnight sweep_now2 now2 _ t1 rec Hin Hs)
    as (r' & Hr' & Hs').
  unfold check_in.
  destruct (check_in_transaction_cases db profiles2 now2 fresh2 location2 user
              (snd (auto_expire_sessions sweep_now2 t1)))
    as [[_ H2]|[(Hnone & _)|(Hnone & _)]];
    [exact H2| |]; rewrite (Hnone r' Hr') in Hs'; discriminate.
Qed.

Lemma check_in_twice_refused_witness :
  let now := Sample.midnight + 8 * hour in
  let first :=
    check_in Postgres.db Sample.profiles now now
      "5e554000-0000-4000-8000-000000000004" Sample.nowhere Sample.alice [] in
  fst (check_in Postgres.db Sample.profiles (now + 5 * hour) (now + 5 * hour)
         "5e555000-0000-4000-8000-000000000005" Sample.nowhere
         Sample.alice (snd first))
  = Raised already_checked_in.
Proof.
  intros now first.
  assert (Hday : date_trunc_day (now + 5 * hour) <= now)
    by (vm_compute; discriminate).
  destruct (check_in_twice_refused Postgres.db Sample.profiles Sample.profiles
              now now (now + 5 * hour) (now + 5 * hour)
              "5e554000-0000-4000-8000-000000000004"
              "5e555000-0000-4000-8000-000000000005"
              Sample.nowhere Sample.nowhere Sample.alice
              [] (snd first)
              (inserted "5e554000-0000-4000-8000-000000000004"
                 (Auth.id Sample.alice) now Sample.nowhere)
              eq_refl Hday) as (Hres & _).
  now rewrite Hres.
Defined.

(** The id that a check-in returns can be checked out by the same user
    afterwards, under any text that the store reads as that id: the
    check-out returns a record with that id and the check-out time of the
    request. *)
Theorem check_in_then_check_out (db : Store.t) (profiles : list Auth.Profile.row)
    (sweep_now now now2 : timestamp) (fresh : uuid)
    (location : CheckInRequest.t) (user : Auth.User) (t t1 : table) (rec : row)
    (text : string) :
  check_in db profiles sweep_now now fresh location user t = (Returned rec, t1) ->
  Store.uuid_in db text = Some (id rec) ->
  exists out,
    fst (check_out db now2 {| AttendanceCheckoutRequest.attendance_id := text |}
           user t1) = Returned out
    /\ id out = id rec /\ user_id out = Auth.id user
    /\ check_out_time out = Some now2.
Proof.
  intros H1 Htext. apply check_in_returned in H1 as [-> ->].
  set (rec := inserted fresh (Auth.id user) now location) in *.
  set (payload := {| AttendanceCheckoutRequest.attendance_id := text |}).
  assert (Hin : In rec (snd (auto_expire_sessions sweep_now t) ++ [rec])%list)
    by (apply in_app_iff; right; now left).
  assert (Hopen : open_record (id rec) (Auth.id user) rec = true)
    by (apply open_record_iff; repeat split; reflexivity).
  destruct (check_out_cases db now2 payload user
              (snd (auto_expire_sessions sweep_now t) ++ [rec])%list)
    as [[Hno _]|[(k & Hk & Hnone & _)|(k & r & Hk & _ & Hw & ->)]].
  - cbn in Hno. congruence.
  - cbn in Hk. assert (k = id rec) as -> by congruence.
    specialize (Hnone rec Hin). congruence.
  - cbn in Hk. assert (k = id rec) as -> by congruence.
    apply open_record_iff in Hw as (Hid & Hu & _).
    exists (close now2 r). cbn [fst]. split; [reflexivity|].
    split; [exact Hid|]. split; [exact Hu|reflexivity].
Qed.

Lemma check_in_then_check_out_witness :
  let now := Sample.midnight + 8 * hour in
  let first :=
    check_in Postgres.db Sample.profiles now now
      "5e554000-0000-4000-8000-000000000004" Sample.nowhere Sample.alice [] in
  exists out,
    fst (check_out Postgres.db (now + hour)
           {| AttendanceCheckoutRequest.attendance_id :=
                "5e554000-0000-4000-8000-000000000004" |}
           Sample.alice (snd first)) = Returned out
    /\ check_out_time out = Some (now + hour).
Proof.
  intros now first.
  destruct (check_in_then_check_out Postgres.db Sample.profiles now now
              (now + hour) "5e554000-0000-4000-8000-000000000004"
              Sample.nowhere Sample.alice [] (snd first)
              (inserted "5e554000-0000-4000-8000-000000000004"
                 (Auth.id Sample.alice) now Sample.nowhere)
              "5e554000-0000-4000-8000-000000000004"
              eq_refl eq_refl) as (out & Hout & _ & _ & Htime).
  exists out. split; [exact Hout|exact Htime].
Defined.

(** A check-out that went through cannot be repeated: the same request on
    the table it left raises 400 and changes nothing. *)
Theorem check_out_twice_refused (db : Store.t) (now now2 : timestamp)
    (payload : AttendanceCheckoutRequest.t) (user : Auth.User)
    (t t1 : table) (rec : row) :
  check_out db now payload user t = (Returned rec, t1) ->
  check_out db now2 payload user t1 = (Raised no_open_check_in, t1).
Proof.
  intros H1.
  destruct (check_out_cases db now payload user t)
    as [[_ H]|[(k & _ & _ & H)|(k & r & Hk & _ & _ & H)]];
    rewrite H in H1; [discriminate|discriminate|].
  injection H1 as _ <-.
  destruct (check_out_cases db now2 payload user
              (Sql.update (open_record k (Auth.id user)) (close now) t))
    as [[Hno _]|[(k' & _ & _ & H2)|(k' & x & Hk' & Hx & Hw & _)]];
    [cbn in Hno, Hk; congruence|exact H2|].
  cbn in Hk, Hk'. assert (k' = k) as -> by congruence.
  unfold Sql.update in Hx.
  apply list_elem_of_In, list_elem_of_fmap in Hx as (y & -> & _).
  destruct (open_record _ _ y) eqn:Hy.
  - apply open_record_iff in Hw as (_ & _ & Hnull). discriminate.
  - congruence.
Qed.

Lemma check_out_twice_refused_witness :
  let T := Sample.midnight + 8 * hour in
  let payload :=
    {| AttendanceCheckoutRequest.attendance_id :=
         "5e551000-0000-4000-8000-000000000001" |} in
  let first :=
    check_out Postgres.db (T + hour) payload Sample.alice [Sample.session T] in
  fst (check_out Postgres.db (T + 2 * hour) payload Sample.alice (snd first))
  = Raised no_open_check_in.
Proof.
  intros T payload first.
  rewrite (check_out_twice_refused Postgres.db (T + hour) (T + 2 * hour) payload
             Sample.alice [Sample.session T] (snd first)
             (close (T + hour) (Sample.session T)) eq_refl).
  reflexivity.
Defined.

End SessionLifecycle.

(** ** What a sweep leaves behind *)

Section SweepAftermath.
Import Clock Http Attendance.

Lemma update_lookup_inv {row : Type} (where_ : row -> bool) (set_ : row -> row)
    (t : list row) (i : nat) (r' : row) :
  Sql.update where_ set_ t !! i = Some r' ->
  exists r, t !! i = Some r /\ r' = (if where_ r then set_ r else r).
Proof.
  unfold Sql.update. intros H.
  apply list_lookup_fmap_Some in H as (r & -> & Hr). eauto.
Qed.

Lemma not_stale_fresh (now : timestamp) (r : row) :
  stale now r = false -> check_out_time r = None -> status r <> absent ->
  now <= check_in_time r + 120 * minute.
Proof.
  intros Hs Hnull Hst.
  destruct (Z_le_gt_dec now (check_in_time r + 120 * minute)) as [Hle|Hgt];
    [exact Hle|].
  assert (stale now r = true) by (apply stale_iff; repeat split; auto; lia).
  congruence.
Qed.

(** After a sweep at [now] no open session that is not absent is older than
    120 minutes; so a check-out that goes through on the swept table, at
    whatever time, returns a record that was not overdue at the sweep, or
    one marked absent while open. *)
Theorem sweep_leaves_no_overdue_session (now : timestamp) (t : table) :
  (forall r, In r (snd (auto_expire_sessions now t)) ->
     check_out_time r = None -> status r <> absent ->
     now <= check_in_time r + 120 * minute)
  /\ (forall db now2 payload user rec t2,
        check_out db now2 payload user (snd (auto_expire_sessions now t))
        = (Returned rec, t2) ->
        status rec = absent \/ now <= check_in_time rec + 120 * minute).
Proof.
  assert (H1 : forall r, In r (snd (auto_expire_sessions now t)) ->
                 check_out_time r = None -> status r <> absent ->
                 now <= check_in_time r + 120 * minute).
  { intros r' Hr' Hnull Hst. apply sweep_In in Hr' as (r & _ & ->).
    destruct (stale now r) eqn:Hs; [discriminate|].
    now apply not_stale_fresh. }
  split; [exact H1|].
  intros db now2 payload user rec t2 Hout.
  destruct (check_out_cases db now2 payload user
              (snd (auto_expire_sessions now t)))
    as [[_ H]|[(k & _ & _ & H)|(k & r & _ & Hr & Hw & H)]];
    rewrite H in Hout; [discriminate|discriminate|].
  injection Hout as <- _. apply open_record_iff in Hw as (_ & _ & Hnull).
  cbn [status check_in_time close].
  destruct (status r) eqn:Hst; [right|now left|right];
    apply (H1 r Hr Hnull); congruence.
Qed.

Lemma sweep_leaves_no_overdue_session_witness :
  let T := Sample.midnight + 8 * hour in
  let payload :=
    {| AttendanceCheckoutRequest.attendance_id :=
         "5e551000-0000-4000-8000-000000000001" |} in
  T + hour <= check_in_time (Sample.session T) + 120 * minute
  /\ (status (close (T + 90 * minute) (Sample.session T)) = absent
      \/ T + hour
         <= check_in_time (close (T + 90 * minute) (Sample.session T))
            + 120 * minute).
Proof.
  intros T payload.
  destruct (sweep_leaves_no_overdue_session (T + hour) [Sample.session T])
    as (Hopen & Hout).
  split.
  - apply (Hopen (Sample.session T)); [left; reflexivity|reflexivity|discriminate].
  - apply (Hout Postgres.db (T + 90 * minute) payload Sample.alice
             (close (T + 90 * minute) (Sample.session T))
             [close (T + 90 * minute) (Sample.session T)]).
    reflexivity.
Defined.

(** The count that the sweep returns is the number of rows it rewrote: it
    never exceeds the size of the table, and it is zero exactly when the
    sweep left the table as it was. *)
Theorem expired_count_zero_iff_unchanged (now : timestamp) (t : table) :
  (fst (auto_expire_sessions now t) <= length t)%nat
  /\ (fst (auto_expire_sessions now t) = 0%nat <->
      snd (auto_expire_sessions now t) = t).
Proof.
  cbn [fst snd auto_expire_sessions]. unfold Sql.returning.
  rewrite length_fmap. split.
  - induction t as [|r t IH]; simpl; [lia|].
    destruct (stale now r); simpl; lia.
  - split.
    + intros H0. apply update_untouched. intros r Hr.
      destruct (stale now r) eqn:Hs; [|reflexivity].
      assert (Hin : In r (List.filter (stale now) t)) by (apply filter_In; auto).
      destruct (List.filter (stale now) t); [destruct Hin|discriminate].
    + unfold Sql.update. induction t as [|r t IH]; simpl; [reflexivity|].
      intros [= Hr Ht]. destruct (stale now r) eqn:Hs.
      * apply stale_iff in Hs as (_ & Hst & _). rewrite <- Hr in Hst.
        now contradiction Hst.
      * now apply IH.
Qed.

End SweepAftermath.

Section SweepCountWitness.
Import Clock Attendance.

Lemma expired_count_zero_iff_unchanged_witness :
  let T := Sample.midnight + 8 * hour in
  fst (auto_expire_sessions (T + hour) [Sample.session T]) = 0%nat
  /\ snd (auto_expire_sessions (T + 3 * hour) [Sample.session T])
     <> [Sample.session T].
Proof.
  intros T. split.
  - apply (expired_count_zero_iff_unchanged (T + hour) [Sample.session T]).
    reflexivity.
  - intros Heq.
    apply (expired_count_zero_iff_unchanged (T + 3 * hour) [Sample.session T])
      in Heq.
    vm_compute in Heq. discriminate.
Defined.

End SweepCountWitness.

(** ** Invariants of the attendance table *)

Section AttendanceInvariants.
Import Clock Http Attendance.

Lemma evolves_refl (r : row) : Trace.evolves r r.
Proof. unfold Trace.evolves. repeat split; auto. Qed.

Lemma evolves_trans (a b c : row) :
  Trace.evolves a b -> Trace.evolves b c -> Trace.evolves a c.
Proof.
  unfold Trace.evolves.
  intros (A1 & A2 & A3 & A4 & A5 & A6 & A7 & Aclosed & Ast)
         (B1 & B2 & B3 & B4 & B5 & B6 & B7 & Bclosed & Bst).
  repeat split; try congruence.
  - intros Hc. rewrite (Bclosed ltac:(rewrite (Aclosed Hc); exact Hc)).
    now apply Aclosed.
  - destruct Ast as [Ast|[Ast Aout]].
    + destruct Bst as [Bst|[Bst Bout]]; [left; congruence|right].
      split; [exact Bst|]. now rewrite Bout, A3.
    + right. assert (Hc : check_out_time b <> None) by (rewrite Aout; discriminate).
      rewrite (Bclosed Hc). auto.
Qed.

Lemma evolves_expire (now : timestamp) (r : row) :
  stale now r = true -> Trace.evolves r (expire r).
Proof.
  intros Hs. apply stale_iff in Hs as (Hnull & _).
  unfold Trace.evolves. repeat split; try reflexivity.
  - intros Hc. contradiction.
  - right. split; reflexivity.
Qed.

Lemma evolves_close (now : timestamp) (r : row) :
  check_out_time r = None -> Trace.evolves r (close now r).
Proof.
  intros Hnull. unfold Trace.evolves. repeat split; try reflexivity.
  - intros Hc. contradiction.
  - now left.
Qed.

Lemma sweep_evolves (now : timestamp) (t : table) (i : nat) (r : row) :
  t !! i = Some r ->
  exists r', snd (auto_expire_sessions now t) !! i = Some r' /\ Trace.evolves r r'.
Proof.
  intros Hi. rewrite (sweep_lookup now t i r Hi). eexists. split; [reflexivity|].
  destruct (stale now r) eqn:Hs; [now apply (evolves_expire now)|apply evolves_refl].
Qed.

Lemma check_out_evolves (db : Store.t) (now : timestamp)
    (payload : AttendanceCheckoutRequest.t)
    (user : Auth.User) (t : table) (i : nat) (r : row) :
  t !! i = Some r ->
  exists r', snd (check_out db now payload user t) !! i = Some r'
             /\ Trace.evolves r r'.
Proof.
  intros Hi.
  destruct (check_out_table db now payload user t) as [->|(k & ->)].
  - exists r. split; [exact Hi|apply evolves_refl].
  - rewrite (update_lookup _ _ t i r Hi). eexists. split; [reflexivity|].
    destruct (open_record _ _ r) eqn:Ho; [|apply evolves_refl].
    apply open_record_iff in Ho as (_ & _ & Hnull). now apply evolves_close.
Qed.

Lemma check_in_evolves (db : Store.t) (profiles : list Auth.Profile.row)
    (sweep_now now : timestamp) (fresh : uuid)
    (location : CheckInRequest.t) (user : Auth.User)
    (t : table) (i : nat) (r : row) :
  t !! i = Some r ->
  exists r',
    snd (check_in db profiles sweep_now now fresh location user t) !! i = Some r'
    /\ Trace.evolves r r'.
Proof.
  intros Hi. destruct (sweep_evolves sweep_now t i r Hi) as (r' & Hr' & He).
  exists r'. split; [|exact He].
  destruct (check_in_table db profiles sweep_now now fresh location user t)
    as [->|[_ ->]]; [exact Hr'|].
  now apply lookup_app_l_Some.
Qed.

Lemma handle_evolves (db : Store.t) (q : Api.request) (s : Api.store)
    (i : nat) (r : row) :
  Api.attendance s !! i = Some r ->
  exists r', Api.attendance (Api.handle db q s) !! i = Some r'
             /\ Trace.evolves r r'.
Proof.
  intros Hi. destruct q; cbn [Api.handle Api.attendance].
  - now apply check_in_evolves.
  - now apply check_out_evolves.
  - now apply sweep_evolves.
  - now apply sweep_evolves.
  - exists r. split; [exact Hi|apply evolves_refl].
  - exists r. split; [exact Hi|apply evolves_refl].
Qed.

(** No request ever deletes an attendance row or rewrites its id, owner,
    check-in time, notes, location or creation time, whatever requests
    come and in whatever order.  Of an existing row only two things can
    move: a null check-out gets set, and the status turns [absent] with the
    check-out 120 minutes after the check-in. *)
Theorem attendance_rows_only_close (db : Store.t) (qs : list Api.request)
    (s : Api.store) (i : nat) (r : row) :
  Api.attendance s !! i = Some r ->
  exists r', Api.attendance (Api.run db qs s) !! i = Some r'
    /\ id r' = id r /\ user_id r' = user_id r
    /\ check_in_time r' = check_in_time r /\ notes r' = notes r
    /\ latitude r' = latitude r /\ longitude r' = longitude r
    /\ created_at r' = created_at r
    /\ (status r' = status r
        \/ (status r' = absent
            /\ check_out_time r' = Some (check_in_time r + 120 * minute))).
Proof.
  intros Hi.
  assert (H : exists r', Api.attendance (Api.run db qs s) !! i = Some r'
                         /\ Trace.evolves r r').
  { revert s r Hi. induction qs as [|q qs IH]; intros s r Hi.
    - exists r. split; [exact Hi|apply evolves_refl].
    - destruct (handle_evolves db q s i r Hi) as (r1 & H1 & E1).
      destruct (IH (Api.handle db q s) r1 H1) as (r2 & H2 & E2).
      exists r2. split; [exact H2|]. now apply (evolves_trans r r1 r2). }
  destruct H as (r' & Hr' & E). exists r'. split; [exact Hr'|].
  unfold Trace.evolves in E. tauto.
Qed.

Lemma attendance_rows_only_close_witness :
  let T := Sample.midnight + 8 * hour in
  let s := {| Api.attendance := [Sample.session T]; Api.leaves := [] |} in
  let qs :=
    [Api.MemberAttendance (T + 3 * hour);
     Api.CheckOut (T + 4 * hour)
       {| AttendanceCheckoutRequest.attendance_id :=
            "5e551000-0000-4000-8000-000000000001" |} Sample.alice] in
  exists r', Api.attendance (Api.run Postgres.db qs s) !! 0%nat = Some r'
    /\ check_in_time r' = T
    /\ user_id r' = "a11ce000-0000-4000-8000-00000000000a".
Proof.
  intros T s qs.
  destruct (attendance_rows_only_close Postgres.db qs s 0 (Sample.session T)
              eq_refl)
    as (r' & Hr' & _ & Hu & Hin & _).
  exists r'. split; [exact Hr'|]. split; [exact Hin|exact Hu].
Defined.

End AttendanceInvariants.

Section DayInvariants.
Import Clock Http Attendance.

(** A row-wise rewrite that keeps owners and check-ins keeps the rule of
    one row per user and day. *)
Lemma one_per_day_rewrite (t t' : table) :
  (forall i r', t' !! i = Some r' ->
     exists r, t !! i = Some r /\ user_id r' = user_id r
               /\ check_in_time r' = check_in_time r) ->
  Trace.one_per_day t -> Trace.one_per_day t'.
Proof.
  intros Hrw Hinv i j ri rj Hi Hj Hu Hd.
  destruct (Hrw i ri Hi) as (xi & Hxi & Hui & Hci).
  destruct (Hrw j rj Hj) as (xj & Hxj & Huj & Hcj).
  apply (Hinv i j xi xj Hxi Hxj); congruence.
Qed.

Lemma sweep_one_per_day (now : timestamp) (t : table) :
  Trace.one_per_day t -> Trace.one_per_day (snd (auto_expire_sessions now t)).
Proof.
  apply one_per_day_rewrite. intros i r' Hr'. simpl in Hr'.
  apply update_lookup_inv in Hr' as (r & Hr & ->).
  exists r. split; [exact Hr|]. destruct (stale now r); auto.
Qed.

Lemma check_out_one_per_day (db : Store.t) (now : timestamp)
    (payload : AttendanceCheckoutRequest.t) (user : Auth.User) (t : table) :
  Trace.one_per_day t ->
  Trace.one_per_day (snd (check_out db now payload user t)).
Proof.
  destruct (check_out_table db now payload user t) as [->|(k & ->)]; [auto|].
  apply one_per_day_rewrite. intros i r' Hr'.
  apply update_lookup_inv in Hr' as (r & Hr & ->).
  exists r. split; [exact Hr|]. destruct (open_record _ _ r); auto.
Qed.

Lemma earlier_day (a now : timestamp) :
  a < date_trunc_day now -> date_trunc_day a <> date_trunc_day now.
Proof. intros Hlt. pose proof (date_trunc_day_le a). lia. Qed.

Lemma check_in_one_per_day (db : Store.t) (profiles : list Auth.Profile.row)
    (sweep_now now : timestamp) (fresh : uuid)
    (location : CheckInRequest.t) (user : Auth.User) (t : table) :
  Trace.one_per_day t ->
  Trace.one_per_day
    (snd (check_in db profiles sweep_now now fresh location user t)).
Proof.
  intros Hinv. apply (sweep_one_per_day sweep_now) in Hinv.
  destruct (check_in_table db profiles sweep_now now fresh location user t)
    as [->|[Hnone ->]]; [exact Hinv|].
  set (t1 := snd (auto_expire_sessions sweep_now t)) in *.
  set (rec := inserted fresh (Auth.id user) now location).
  assert (Hold : forall k r, t1 !! k = Some r -> user_id r = user_id rec ->
                   date_trunc_day (check_in_time r)
                   <> date_trunc_day (check_in_time rec)).
  { intros k r Hk Hu. apply earlier_day.
    assert (Hin : In r t1) by (apply list_elem_of_In, list_elem_of_lookup; eauto).
    specialize (Hnone r Hin). apply since_midnight_false in Hnone; auto. }
  intros i j ri rj Hi Hj Hu Hd.
  apply lookup_app_Some in Hi as [Hi|[Hli Hi]];
    apply lookup_app_Some in Hj as [Hj|[Hlj Hj]].
  - now apply (Hinv i j ri rj).
  - apply list_lookup_singleton_Some in Hj as [Hj0 <-].
    now destruct (Hold i ri Hi Hu).
  - apply list_lookup_singleton_Some in Hi as [Hi0 <-].
    symmetry in Hu, Hd. now destruct (Hold j rj Hj Hu).
  - apply list_lookup_singleton_Some in Hi as [Hi0 _].
    apply list_lookup_singleton_Some in Hj as [Hj0 _]. lia.
Qed.

(** One check-in per user and day: if no two rows of a user have their
    check-ins in the same day, no sequence of requests makes it so.  In
    particular the rule holds of every table grown from the empty one. *)
Theorem one_check_in_per_user_and_day (db : Store.t) (qs : list Api.request)
    (s : Api.store) :
  Trace.one_per_day (Api.attendance s) ->
  Trace.one_per_day (Api.attendance (Api.run db qs s)).
Proof.
  revert s. induction qs as [|q qs IH]; intros s Hinv; [exact Hinv|].
  unfold Api.run. cbn [fold_left]. apply IH.
  destruct q; cbn [Api.handle Api.attendance].
  - now apply check_in_one_per_day.
  - now apply check_out_one_per_day.
  - now apply sweep_one_per_day.
  - now apply sweep_one_per_day.
  - exact Hinv.
  - exact Hinv.
Qed.

Lemma one_check_in_per_user_and_day_witness :
  let T := Sample.midnight + 8 * hour in
  let qs :=
    [Api.CheckIn Sample.profiles T T
       "5e551000-0000-4000-8000-000000000001" Sample.nowhere Sample.alice;
     Api.CheckIn Sample.profiles (T + hour) (T + hour)
       "5e552000-0000-4000-8000-000000000002" Sample.nowhere Sample.alice;
     Api.CheckIn Sample.profiles (T + hour) (T + hour)
       "5e553000-0000-4000-8000-000000000003" Sample.nowhere Sample.bob;
     Api.CheckIn Sample.profiles (T + day) (T + day)
       "5e554000-0000-4000-8000-000000000004" Sample.nowhere Sample.alice] in
  let s := {| Api.attendance := []; Api.leaves := [] |} in
  Trace.one_per_day (Api.attendance (Api.run Postgres.db qs s))
  /\ length (Api.attendance (Api.run Postgres.db qs s)) = 3%nat.
Proof.
  intros T qs s. split; [|reflexivity].
  apply (one_check_in_per_user_and_day Postgres.db qs s).
  intros i j ri rj Hi. destruct i; discriminate.
Defined.

Lemma sweep_absent_is_expired (now : timestamp) (t : table) :
  Trace.absent_is_expired t ->
  Trace.absent_is_expired (snd (auto_expire_sessions now t)).
Proof.
  intros Hinv r' Hr' Hst. apply sweep_In in Hr' as (r & Hr & ->).
  destruct (stale now r); [reflexivity|now apply Hinv].
Qed.

Lemma check_out_absent_is_expired (db : Store.t) (now : timestamp)
    (payload : AttendanceCheckoutRequest.t) (user : Auth.User) (t : table) :
  Trace.absent_is_expired t ->
  Trace.absent_is_expired (snd (check_out db now payload user t)).
Proof.
  intros Hinv.
  destruct (check_out_table db now payload user t) as [->|(k & ->)];
    [exact Hinv|].
  intros r' Hr' Hst. unfold Sql.update in Hr'.
  apply list_elem_of_In, list_elem_of_fmap in Hr' as (r & -> & Hr).
  apply list_elem_of_In in Hr.
  destruct (open_record _ _ r) eqn:Ho; [|now apply Hinv].
  apply open_record_iff in Ho as (_ & _ & Hnull).
  cbn [status close] in Hst. rewrite (Hinv r Hr Hst) in Hnull. discriminate.
Qed.

(** [absent] is the mark of the sweep alone: if every absent row is a
    session closed 120 minutes after its check-in, this stays so under any
    sequence of requests.  Check-in never creates an absent row, and
    check-out never sets the check-out of one. *)
Theorem absent_rows_are_expired_sessions (db : Store.t)
    (qs : list Api.request) (s : Api.store) :
  Trace.absent_is_expired (Api.attendance s) ->
  Trace.absent_is_expired (Api.attendance (Api.run db qs s)).
Proof.
  revert s. induction qs as [|q qs IH]; intros s Hinv; [exact Hinv|].
  unfold Api.run. cbn [fold_left]. apply IH.
  destruct q; cbn [Api.handle Api.attendance].
  - apply (sweep_absent_is_expired sweep_now) in Hinv.
    destruct (check_in_table db profiles sweep_now now fresh location user
                (Api.attendance s)) as [->|[_ ->]]; [exact Hinv|].
    intros r Hr Hst. apply in_app_iff in Hr as [Hr|[<-|[]]]; [now apply Hinv|].
    cbn [status inserted] in Hst. unfold status_value in Hst.
    destruct (is_late now); discriminate.
  - now apply check_out_absent_is_expired.
  - now apply sweep_absent_is_expired.
  - now apply sweep_absent_is_expired.
  - exact Hinv.
  - exact Hinv.
Qed.

Lemma absent_rows_are_expired_sessions_witness :
  let T := Sample.midnight + 8 * hour in
  let qs :=
    [Api.CheckIn Sample.profiles T T
       "5e551000-0000-4000-8000-000000000001" Sample.nowhere Sample.alice;
     Api.AdminDashboard (T + 3 * hour);
     Api.CheckOut (T + 4 * hour)
       {| AttendanceCheckoutRequest.attendance_id :=
            "5e551000-0000-4000-8000-000000000001" |} Sample.alice] in
  let s := {| Api.attendance := []; Api.leaves := [] |} in
  Trace.absent_is_expired (Api.attendance (Api.run Postgres.db qs s))
  /\ status <$> Api.attendance (Api.run Postgres.db qs s) = [absent].
Proof.
  intros T qs s. split; [|reflexivity].
  apply (absent_rows_are_expired_sessions Postgres.db qs s). intros r [].
Defined.

End DayInvariants.

(** ** Invariants of the leaves table *)

Section LeaveInvariants.
Import Clock Http Leaves.

Lemma reviewed_refl (l : row) : Trace.reviewed l l.
Proof. unfold Trace.reviewed. repeat split; auto. Qed.

Lemma reviewed_trans (a b c : row) :
  Trace.reviewed a b -> Trace.reviewed b c -> Trace.reviewed a c.
Proof.
  unfold Trace.reviewed.
  intros (A1 & A2 & A3 & A4 & A5 & A6 & Akeep & Ast)
         (B1 & B2 & B3 & B4 & B5 & B6 & Bkeep & Bst).
  repeat split; try congruence.
  - auto.
  - destruct Bst as [->|Bst]; [exact Ast|now right].
Qed.

Lemma reviewed_review (now : timestamp) (payload : LeaveApprovalRequest.t)
    (user : Auth.User) (l : row) :
  Trace.reviewed l (review now payload user l).
Proof.
  unfold Trace.reviewed. repeat split; try reflexivity.
  - intros _. apply status_of_decided.
  - right. split; [apply status_of_decided|discriminate].
Qed.

(** What one approval request makes of the table. *)
Lemma approve_leave_route_cases (db : Store.t) (conn : Auth.connection)
    (profiles : list Auth.Profile.row) (now : timestamp)
    (payload : LeaveApprovalRequest.t) (caller : Auth.User) (t : table) :
  snd (approve_leave_route db conn profiles now payload caller t) = t
  \/ exists k,
       snd (approve_leave_route db conn profiles now payload caller t)
       = Sql.update (targeted k) (review now payload caller) t.
Proof.
  unfold approve_leave_route.
  destruct (require_admin_cases conn caller) as [[_ ->]|[_ ->]]; [now left|].
  destruct (approve_leave_cases db profiles now payload caller t)
    as [[_ ->]
       |[(k & _ & _ & _ & ->)
        |[(k & r & _ & _ & _ & _ & _ & ->)
         |(k & r & _ & _ & _ & _ & _ & ->)]]];
    cbn [snd]; [now left|now left|now left|right; now exists k].
Qed.

(** What a leave request makes of the table: nothing, or one pending leave
    more at its end. *)
Lemma request_leave_cases (db : Store.t) (profiles : list Auth.Profile.row)
    (now : timestamp) (fresh : uuid) (payload : LeaveRequest.t)
    (user : Auth.User) (t : table) :
  snd (request_leave db profiles now fresh payload user t) = t
  \/ exists leave,
       snd (request_leave db profiles now fresh payload user t)
       = (t ++ [leave])%list
       /\ status leave = pending /\ approved_by leave = None.
Proof.
  unfold request_leave.
  destruct (Store.date_in db (LeaveRequest.start_date payload)) as [first|];
    [|now left].
  destruct (Store.date_in db (LeaveRequest.end_date payload)) as [last|];
    [|now left].
  destruct (_ && _); [|now left].
  right. eexists. split; [reflexivity|]. split; reflexivity.
Qed.

Lemma handle_reviewed (db : Store.t) (q : Api.request) (s : Api.store)
    (i : nat) (l : row) :
  Api.leaves s !! i = Some l ->
  exists l', Api.leaves (Api.handle db q s) !! i = Some l' /\ Trace.reviewed l l'.
Proof.
  intros Hi.
  destruct q; cbn [Api.handle Api.leaves];
    try (exists l; split; [exact Hi|apply reviewed_refl]).
  - exists l. split; [|apply reviewed_refl].
    destruct (request_leave_cases db profiles now fresh payload user (Api.leaves s))
      as [->|(leave & -> & _)]; [exact Hi|].
    now apply lookup_app_l_Some.
  - destruct (approve_leave_route_cases db conn profiles now payload caller
                (Api.leaves s)) as [->|(k & ->)].
    + exists l. split; [exact Hi|apply reviewed_refl].
    + rewrite (update_lookup _ _ _ i l Hi). eexists. split; [reflexivity|].
      destruct (targeted _ l); [apply reviewed_review|apply reviewed_refl].
Qed.

(** No request ever deletes a leave or rewrites its id, owner, dates, reason
    or creation time, and a leave that has left [pending] never returns to
    it: whatever requests follow, it is as it was or it carries a verdict
    and an approver. *)
Theorem leaves_are_only_reviewed (db : Store.t) (qs : list Api.request)
    (s : Api.store) (i : nat) (l : row) :
  Api.leaves s !! i = Some l ->
  exists l', Api.leaves (Api.run db qs s) !! i = Some l'
    /\ id l' = id l /\ user_id l' = user_id l
    /\ start_date l' = start_date l /\ end_date l' = end_date l
    /\ reason l' = reason l /\ created_at l' = created_at l
    /\ (status l <> pending -> status l' <> pending)
    /\ (l' = l \/ (status l' <> pending /\ approved_by l' <> None)).
Proof.
  revert s l. induction qs as [|q qs IH]; intros s l Hi.
  - exists l. split; [exact Hi|]. apply reviewed_refl.
  - destruct (handle_reviewed db q s i l Hi) as (l1 & H1 & E1).
    destruct (IH (Api.handle db q s) l1 H1) as (l2 & H2 & E2).
    exists l2. split; [exact H2|]. now apply (reviewed_trans l l1 l2).
Qed.

Lemma leaves_are_only_reviewed_witness :
  let s := {| Api.attendance := []; Api.leaves := [Sample.leave pending] |} in
  let qs :=
    [Api.ApproveLeave (Auth.Connected Sample.profiles) Sample.profiles
       (Sample.midnight + hour)
       (Sample.verdict LeaveApprovalRequest.approved) Sample.alice;
     Api.ApproveLeave (Auth.Connected Sample.profiles) Sample.profiles
       (Sample.midnight + day)
       (Sample.verdict LeaveApprovalRequest.rejected) Sample.bob] in
  exists l', Api.leaves (Api.run Postgres.db qs s) !! 0%nat = Some l'
    /\ user_id l' = "b0b00000-0000-4000-8000-00000000000b"
    /\ reason l' = "family".
Proof.
  intros s qs.
  destruct (leaves_are_only_reviewed Postgres.db qs s 0 (Sample.leave pending)
              eq_refl)
    as (l' & Hl' & _ & Hu & _ & _ & Hr & _).
  exists l'. split; [exact Hl'|]. split; [exact Hu|exact Hr].
Defined.

(** A leave has an approver exactly when it is no longer pending: a request
    creates it pending without one, a review gives it a verdict and the
    reviewer, and no sequence of requests breaks the rule.  It holds of
    every table grown from the empty one. *)
Theorem approver_recorded_iff_decided (db : Store.t) (qs : list Api.request)
    (s : Api.store) :
  Trace.approver_iff_decided (Api.leaves s) ->
  Trace.approver_iff_decided (Api.leaves (Api.run db qs s)).
Proof.
  revert s. induction qs as [|q qs IH]; intros s Hinv; [exact Hinv|].
  unfold Api.run. cbn [fold_left]. apply IH.
  destruct q; cbn [Api.handle Api.leaves]; try exact Hinv.
  - destruct (request_leave_cases db profiles now fresh payload user (Api.leaves s))
      as [->|(leave & -> & Hst & Hby)]; [exact Hinv|].
    intros l Hl.
    apply in_app_iff in Hl as [Hl|[<-|[]]]; [now apply Hinv|].
    rewrite Hst, Hby. split; reflexivity.
  - destruct (approve_leave_route_cases db conn profiles now payload caller
                (Api.leaves s)) as [->|(k & ->)]; [exact Hinv|].
    intros l' Hl'. unfold Sql.update in Hl'.
    apply list_elem_of_In, list_elem_of_fmap in Hl' as (l & -> & Hl).
    apply list_elem_of_In in Hl.
    destruct (targeted _ l); [|now apply Hinv].
    cbn [status approved_by review]. split.
    + intros Hp. now apply status_of_decided in Hp.
    + discriminate.
Qed.

Lemma approver_recorded_iff_decided_witness :
  let s := {| Api.attendance := []; Api.leaves := [] |} in
  let qs :=
    [Api.RequestLeave Sample.profiles Sample.midnight
       "1eaf0000-0000-4000-8000-000000000001"
       {| LeaveRequest.start_date := "2026-02-02";
          LeaveRequest.end_date := "2026-02-06";
          LeaveRequest.reason := "family" |} Sample.bob;
     Api.ApproveLeave (Auth.Connected Sample.profiles) Sample.profiles
       (Sample.midnight + hour)
       (Sample.verdict LeaveApprovalRequest.approved) Sample.alice] in
  Trace.approver_iff_decided (Api.leaves (Api.run Postgres.db qs s))
  /\ approved_by <$> Api.leaves (Api.run Postgres.db qs s)
     = [Some "a11ce000-0000-4000-8000-00000000000a"].
Proof.
  intros s qs. split; [|reflexivity].
  apply (approver_recorded_iff_decided Postgres.db qs s). intros l [].
Defined.

End LeaveInvariants.

(** ** Text *)

Section TextFacts.
Import Network Text.

Lemma has_char_cons (x a : ascii) (s : string) :
  has_char x (String a s) = true <-> a = x \/ has_char x s = true.
Proof. simpl. rewrite orb_true_iff, Ascii.eqb_eq. reflexivity. Qed.

Lemma lstrip_chars (x : ascii) (s : string) :
  has_char x (lstrip s) = true -> has_char x s = true.
Proof.
  induction s as [|a s IH]; simpl; [auto|].
  destruct (isspace a); [|auto]. intros H. rewrite (IH H). apply orb_true_r.
Qed.

Lemma rstrip_chars (x : ascii) (s : string) :
  has_char x (rstrip s) = true -> has_char x s = true.
Proof.
  induction s as [|a s IH]; simpl; [auto|].
  destruct (rstrip s) as [|b k] eqn:Hk.
  - destruct (isspace a); simpl; [discriminate|].
    rewrite orb_false_r. intros ->. reflexivity.
  - intros H. apply has_char_cons in H as [->|H].
    + now rewrite Ascii.eqb_refl.
    + rewrite (IH H). apply orb_true_r.
Qed.

Lemma strip_chars (x : ascii) (s : string) :
  has_char x (strip s) = true -> has_char x s = true.
Proof. intros H. now apply lstrip_chars, rstrip_chars. Qed.

Lemma lstrip_keeps (x : ascii) (s : string) :
  has_char x s = true -> isspace x = false -> has_char x (lstrip s) = true.
Proof.
  induction s as [|a s IH]; simpl; [auto|]. intros H Hx.
  destruct (isspace a) eqn:Ha.
  - apply orb_true_iff in H as [H|H]; [|auto].
    apply Ascii.eqb_eq in H. congruence.
  - exact H.
Qed.

Lemma rstrip_keeps (x : ascii) (s : string) :
  has_char x s = true -> isspace x = false -> has_char x (rstrip s) = true.
Proof.
  induction s as [|a s IH]; simpl; [auto|]. intros H Hx.
  apply orb_true_iff in H as [H|H].
  - apply Ascii.eqb_eq in H as ->.
    destruct (rstrip s); [rewrite Hx|]; simpl; now rewrite Ascii.eqb_refl.
  - specialize (IH H Hx). destruct (rstrip s) as [|b k]; [discriminate|].
    apply has_char_cons. right. exact IH.
Qed.

Lemma rstrip_blank (s : string) :
  rstrip s = EmptyString <->
  (forall x, has_char x s = true -> isspace x = true).
Proof.
  induction s as [|a s IH]; simpl.
  - split; [discriminate|reflexivity].
  - destruct (rstrip s) as [|b k] eqn:Hk.
    + destruct (isspace a) eqn:Ha.
      * split; [|reflexivity]. intros _ x Hx.
        apply orb_true_iff in Hx as [Hx|Hx].
        -- apply Ascii.eqb_eq in Hx as <-. exact Ha.
        -- now apply IH.
      * split; [discriminate|]. intros H.
        specialize (H a). rewrite Ascii.eqb_refl in H. simpl in H.
        specialize (H eq_refl). congruence.
    + split; [discriminate|]. intros H.
      assert (String b k = EmptyString); [|discriminate].
      apply IH. intros x Hx. apply H. rewrite Hx. apply orb_true_r.
Qed.

(** [strip] gives the empty string exactly on nothing but blanks. *)
Lemma strip_blank (s : string) :
  strip s = EmptyString <->
  (forall x, has_char x s = true -> isspace x = true).
Proof.
  unfold strip. rewrite rstrip_blank. split.
  - intros H x Hx. destruct (isspace x) eqn:Hs; [reflexivity|].
    rewrite <- Hs. apply H. now apply lstrip_keeps.
  - intros H x Hx. apply H. now apply lstrip_chars.
Qed.

Lemma lstrip_rstrip (s : string) : lstrip (rstrip s) = rstrip (lstrip s).
Proof.
  induction s as [|a s IH]; [reflexivity|]. simpl.
  destruct (isspace a) eqn:Ha.
  - rewrite <- IH. destruct (rstrip s) as [|b k]; simpl; rewrite ?Ha; reflexivity.
  - simpl. destruct (rstrip s) as [|b k]; simpl; rewrite ?Ha; reflexivity.
Qed.

Lemma lstrip_idem (s : string) : lstrip (lstrip s) = lstrip s.
Proof.
  induction s as [|a s IH]; [reflexivity|]. simpl.
  destruct (isspace a) eqn:Ha; [exact IH|]. simpl. now rewrite Ha.
Qed.

Lemma rstrip_idem (s : string) : rstrip (rstrip s) = rstrip s.
Proof.
  induction s as [|a s IH]; [reflexivity|]. simpl.
  destruct (rstrip s) as [|b k] eqn:Hk.
  - destruct (isspace a) eqn:Ha; simpl; [reflexivity|now rewrite Ha].
  - simpl in *. now rewrite IH.
Qed.

Lemma strip_idem (s : string) : strip (strip s) = strip s.
Proof.
  unfold strip. rewrite (lstrip_rstrip (lstrip s)), lstrip_idem, rstrip_idem.
  reflexivity.
Qed.

Lemma split_not_nil (c : ascii) (s : string) : split c s <> [].
Proof.
  destruct s as [|a s]; simpl; [discriminate|].
  destruct (Ascii.eqb a c); [discriminate|].
  destruct (split c s); discriminate.
Qed.

(** No piece of a split holds the separator. *)
Lemma split_no_separator (c : ascii) (s seg : string) :
  In seg (split c s) -> has_char c seg = false.
Proof.
  revert seg. induction s as [|a s IH]; simpl; intros seg H.
  - destruct H as [<-|[]]. reflexivity.
  - destruct (Ascii.eqb a c) eqn:Hac.
    + destruct H as [<-|H]; [reflexivity|now apply IH].
    + destruct (split c s) as [|hd tl] eqn:Hs.
      * destruct H as [<-|[]]. simpl. now rewrite Hac.
      * destruct H as [<-|H].
        -- simpl. rewrite Hac. simpl. apply IH. now left.
        -- apply IH. now right.
Qed.

Lemma split_chars (c x : ascii) (s seg : string) :
  In seg (split c s) -> has_char x seg = true -> has_char x s = true.
Proof.
  revert seg. induction s as [|a s IH]; simpl; intros seg H Hx.
  - destruct H as [<-|[]]. discriminate.
  - destruct (Ascii.eqb a c) eqn:Hac.
    + destruct H as [<-|H]; [discriminate|].
      rewrite (IH seg H Hx). apply orb_true_r.
    + destruct (split c s) as [|hd tl] eqn:Hs.
      * destruct H as [<-|[]]. simpl in Hx. rewrite orb_false_r in Hx.
        now rewrite Hx.
      * destruct H as [<-|H].
        -- apply has_char_cons in Hx as [->|Hx].
           ++ now rewrite Ascii.eqb_refl.
           ++ rewrite (IH hd (or_introl eq_refl) Hx). apply orb_true_r.
        -- rewrite (IH seg (or_intror H) Hx). apply orb_true_r.
Qed.

Lemma split_covers (c x : ascii) (s : string) :
  has_char x s = true -> x <> c ->
  exists seg, In seg (split c s) /\ has_char x seg = true.
Proof.
  intros Hx Hne. induction s as [|a s IH]; simpl in *; [discriminate|].
  destruct (Ascii.eqb a c) eqn:Hac.
  - apply orb_true_iff in Hx as [Hx|Hx].
    + apply Ascii.eqb_eq in Hx, Hac. congruence.
    + destruct (IH Hx) as (seg & Hin & Hseg). exists seg. split; [now right|auto].
  - destruct (split c s) as [|hd tl] eqn:Hs.
    + now destruct (split_not_nil c s).
    + apply orb_true_iff in Hx as [Hx|Hx].
      * exists (String a hd). split; [now left|]. simpl. now rewrite Hx.
      * destruct (IH Hx) as (seg & [<-|Hin] & Hseg).
        -- exists (String a hd). split; [now left|]. simpl. rewrite Hseg.
           apply orb_true_r.
        -- exists seg. split; [now right|auto].
Qed.

(** The first piece of a split is what comes before the first separator. *)
Lemma split_hd (c : ascii) (first rest : string) :
  has_char c first = false ->
  List.hd EmptyString (split c (first ++ String c rest)%string) = first.
Proof.
  induction first as [|a first IH]; simpl; intros H.
  - now rewrite Ascii.eqb_refl.
  - apply orb_false_iff in H as [Hac H]. rewrite Hac.
    specialize (IH H).
    destruct (split c (first ++ String c rest)%string) as [|hd tl];
      simpl in *; [|now rewrite IH].
    now rewrite <- IH.
Qed.

Lemma split_whole (c : ascii) (s : string) :
  has_char c s = false -> split c s = [s].
Proof.
  induction s as [|a s IH]; simpl; intros H; [reflexivity|].
  apply orb_false_iff in H as [Hac H]. rewrite Hac, (IH H). reflexivity.
Qed.

End TextFacts.

(** ** The office gate *)

Section OfficeGate.
Import Http Network Text Office.

Lemma allowed_office_ips_In (W e : string) :
  In e (allowed_office_ips W) <->
  exists seg, In seg (split "," W) /\ strip seg <> EmptyString /\ e = strip seg.
Proof.
  unfold allowed_office_ips. rewrite in_map_iff. split.
  - intros (seg & <- & Hseg). apply filter_In in Hseg as [Hin Hne].
    exists seg. split; [exact Hin|]. split; [|reflexivity].
    apply negb_true_iff, bool_decide_eq_false in Hne. exact Hne.
  - intros (seg & Hin & Hne & ->). exists seg. split; [reflexivity|].
    apply filter_In. split; [exact Hin|].
    apply negb_true_iff, bool_decide_eq_false. exact Hne.
Qed.

(** Every entry of the allowlist read from the configuration is the
    stripped text of one comma-separated piece: it is not empty, holds no
    comma and has no blank at either end. *)
Theorem allowed_office_ips_entries (OFFICE_IP_WHITELIST e : string) :
  In e (allowed_office_ips OFFICE_IP_WHITELIST) ->
  e <> EmptyString
  /\ has_char "," e = false
  /\ strip e = e
  /\ (forall x, has_char x e = true -> has_char x OFFICE_IP_WHITELIST = true).
Proof.
  intros H. apply allowed_office_ips_In in H as (seg & Hin & Hne & ->).
  split; [exact Hne|]. split; [|split; [apply strip_idem|]].
  - destruct (has_char "," (strip seg)) eqn:Hc; [|reflexivity].
    apply strip_chars in Hc. now rewrite (split_no_separator _ _ _ Hin) in Hc.
  - intros x Hx. apply strip_chars in Hx. now apply (split_chars "," x _ seg).
Qed.

Lemma allowed_office_ips_entries_witness :
  strip "192.168.1.0/24" = "192.168.1.0/24"
  /\ has_char "," "192.168.1.0/24" = false.
Proof.
  assert (Hin : In "192.168.1.0/24"
                  (allowed_office_ips "127.0.0.1, ::1 ,, 192.168.1.0/24 "))
    by (right; right; left; reflexivity).
  destruct (allowed_office_ips_entries _ _ Hin) as (_ & Hc & Hs & _).
  split; [exact Hs|exact Hc].
Defined.

(** The allowlist is empty, and the gate therefore open to every caller,
    exactly when the configured value holds nothing but commas and
    blanks; the empty value is one such. *)
Theorem blank_whitelist_opens_gate (OFFICE_IP_WHITELIST : string) :
  (allowed_office_ips OFFICE_IP_WHITELIST = [] <->
   forall x, has_char x OFFICE_IP_WHITELIST = true ->
             isspace x = true \/ x = ","%char)
  /\ (allowed_office_ips OFFICE_IP_WHITELIST = [] ->
      forall ip_address ip_network request,
        require_office_network ip_address ip_network
          (allowed_office_ips OFFICE_IP_WHITELIST) request
        = Returned (get_client_ip request)).
Proof.
  split.
  - split.
    + intros Hnil x Hx.
      destruct (Ascii.ascii_dec x ","%char) as [->|Hne]; [now right|left].
      destruct (isspace x) eqn:Hs; [reflexivity|].
      destruct (split_covers "," x _ Hx Hne) as (seg & Hin & Hseg).
      assert (Hne' : strip seg <> EmptyString).
      { intros Hb. rewrite strip_blank in Hb. specialize (Hb x Hseg). congruence. }
      assert (Hin' : In (strip seg) (allowed_office_ips OFFICE_IP_WHITELIST))
        by (apply allowed_office_ips_In; eauto).
      rewrite Hnil in Hin'. destruct Hin'.
    + intros Hall.
      destruct (allowed_office_ips OFFICE_IP_WHITELIST) as [|e l] eqn:He;
        [reflexivity|].
      assert (Hin : In e (allowed_office_ips OFFICE_IP_WHITELIST))
        by (rewrite He; now left).
      apply allowed_office_ips_In in Hin as (seg & Hin & Hne & _).
      destruct Hne. apply strip_blank. intros x Hx.
      destruct (Hall x (split_chars "," x _ seg Hin Hx)) as [Hs| ->];
        [exact Hs|].
      now rewrite (split_no_separator _ _ _ Hin) in Hx.
  - intros -> ip_address ip_network request. reflexivity.
Qed.

Lemma blank_whitelist_opens_gate_witness :
  require_office_network IPv4Address IPv4Network (allowed_office_ips " , ,")
    {| Request.x_forwarded_for := None; Request.x_real_ip := None;
       Request.client := Some "203.0.113.9" |}
  = Returned "203.0.113.9".
Proof.
  destruct (blank_whitelist_opens_gate " , ,") as (_ & Hopen).
  apply (Hopen eq_refl).
Defined.

(** A request with something in [X-Forwarded-For] is judged on the first
    entry of that header alone, stripped: the later entries, [X-Real-IP]
    and the address of the peer play no part, so two requests that agree on
    that first entry get the same answer. *)
Theorem forwarded_header_decides_admission
    (ip_address : string -> option address)
    (ip_network : string -> option network)
    (ALLOWED_OFFICE_IPS : list string)
    (request : Request.t) (first rest : string) :
  has_char "," first = false ->
  (Request.x_forwarded_for request = Some (first ++ String "," rest)%string
   \/ (Request.x_forwarded_for request = Some first /\ first <> EmptyString)) ->
  get_client_ip request = strip first
  /\ require_office_network ip_address ip_network ALLOWED_OFFICE_IPS request
     = (if is_office_network ip_address ip_network ALLOWED_OFFICE_IPS
             (strip first)
        then Returned (strip first)
        else Raised (access_denied (strip first))).
Proof.
  intros Hc Hx.
  assert (Hip : get_client_ip request = strip first).
  { unfold get_client_ip. destruct Hx as [->|[-> Hne]].
    - assert (Ht : truthy (Some (first ++ String "," rest)%string)
                   = Some (first ++ String "," rest)%string)
        by (destruct first; reflexivity).
      rewrite Ht. now rewrite split_hd.
    - assert (Ht : truthy (Some first) = Some first)
        by (destruct first; [contradiction|reflexivity]).
      rewrite Ht. now rewrite split_whole. }
  split; [exact Hip|]. unfold require_office_network. rewrite Hip.
  destruct (is_office_network _ _ _ (strip first)); reflexivity.
Qed.

Lemma forwarded_header_decides_admission_witness :
  require_office_network IPv4Address IPv4Network ["192.168.1.0/24"]
    {| Request.x_forwarded_for := Some " 192.168.1.50 , 198.51.100.7";
       Request.x_real_ip := Some "198.51.100.7";
       Request.client := Some "203.0.113.9" |}
  = Returned "192.168.1.50".
Proof.
  destruct (forwarded_header_decides_admission IPv4Address IPv4Network
              ["192.168.1.0/24"]
              {| Request.x_forwarded_for := Some " 192.168.1.50 , 198.51.100.7";
                 Request.x_real_ip := Some "198.51.100.7";
                 Request.client := Some "203.0.113.9" |}
              " 192.168.1.50 " " 198.51.100.7" eq_refl (or_introl eq_refl))
    as (_ & Hres).
  exact Hres.
Defined.

(** A request with neither proxy header, or with empty ones, and no peer
    is taken to come from "unknown": with entries in the allowlist it is
    refused with 403 and a message that ends in the address, and with an
    empty allowlist it is let in all the same. *)
Theorem unidentified_client_is_refused
    (ip_address : string -> option address)
    (ip_network : string -> option network)
    (ALLOWED_OFFICE_IPS : list string) (request : Request.t) :
  truthy (Request.x_forwarded_for request) = None ->
  truthy (Request.x_real_ip request) = None ->
  Request.client request = None ->
  ip_address "unknown" = None ->
  get_client_ip request = "unknown"
  /\ (ALLOWED_OFFICE_IPS <> [] ->
      require_office_network ip_address ip_network ALLOWED_OFFICE_IPS request
      = Raised (access_denied "unknown")
      /\ status_code (access_denied "unknown") = 403)
  /\ (ALLOWED_OFFICE_IPS = [] ->
      require_office_network ip_address ip_network ALLOWED_OFFICE_IPS request
      = Returned "unknown").
Proof.
  intros Hf Hr Hc Hu.
  assert (Hip : get_client_ip request = "unknown")
    by (unfold get_client_ip; now rewrite Hf, Hr, Hc).
  split; [exact Hip|]. unfold require_office_network. rewrite Hip. split.
  - intros Hne. split; [|reflexivity].
    destruct ALLOWED_OFFICE_IPS; [contradiction|]. simpl. now rewrite Hu.
  - intros ->. reflexivity.
Qed.

Lemma unidentified_client_is_refused_witness :
  require_office_network IPv4Address IPv4Network ["192.168.1.0/24"]
    {| Request.x_forwarded_for := Some ""; Request.x_real_ip := None;
       Request.client := None |}
  = Raised (access_denied "unknown").
Proof.
  destruct (unidentified_client_is_refused IPv4Address IPv4Network
              ["192.168.1.0/24"]
              {| Request.x_forwarded_for := Some ""; Request.x_real_ip := None;
                 Request.client := None |} eq_refl eq_refl eq_refl eq_refl)
    as (_ & Hno & _).
  destruct (Hno ltac:(discriminate)) as (Hres & _). exact Hres.
Defined.

End OfficeGate.

(** ** Bearer credentials *)

Section Credentials.
Import Http Text Identity.

Variable get_user : string -> provider_reply.

Lemma truthy_Some (s : string) : s <> EmptyString -> truthy (Some s) = Some s.
Proof. destruct s; [contradiction|reflexivity]. Qed.

Lemma truthy_inv (o : option string) (s : string) :
  truthy o = Some s -> o = Some s /\ s <> EmptyString.
Proof.
  destruct o as [[|c rest]|]; simpl; try discriminate.
  intros [= <-]. split; [reflexivity|discriminate].
Qed.


(** The "Bearer " prefix is optional and blanks around the token do not
    count: a header with the prefix is answered as the header without it,
    and the token handed to the provider never has a blank at either
    end. *)
Theorem bearer_prefix_is_optional (a : string) :
  a <> EmptyString ->
  token_of ("Bearer " ++ a) = token_of a
  /\ get_current_user get_user (Some ("Bearer " ++ a)%string)
     = get_current_user get_user (Some a)
  /\ get_current_user get_user (Some (String " " a))
     = get_current_user get_user (Some a)
  /\ strip (token_of a) = token_of a.
Proof.
  intros Hne.
  split; [reflexivity|]. split; [|split].
  - destruct a; [contradiction|reflexivity].
  - destruct a; [contradiction|reflexivity].
  - apply strip_idem.
Qed.

End Credentials.

Section CredentialsWitness.
Import Http Text Identity.


Lemma bearer_prefix_is_optional_witness :
  let get_user := fun token =>
    if bool_decide (token = "t0k3n") then ProviderResponse (Some Sample.alice)
    else ProviderResponse None in
  get_current_user get_user (Some "Bearer t0k3n")
  = get_current_user get_user (Some "t0k3n").
Proof.
  intros get_user.
  destruct (bearer_prefix_is_optional get_user "t0k3n" ltac:(discriminate))
    as (_ & Hsame & _).
  exact Hsame.
Defined.

(** The role that [GET /api/profile] reports is the one the admin gate
    tests: on the same state of the store, [require_admin] lets the user
    through exactly when the profile says "admin". *)
Theorem get_profile_role_is_the_gate_role (conn : Auth.connection)
    (r : response) :
  role (get_profile conn r) = Auth.user_role conn (user r)
  /\ (Auth.require_admin conn (user r) = Returned (user r) <->
      role (get_profile conn r) = "admin")
  /\ id (get_profile conn r) = Auth.id (user r)
  /\ email (get_profile conn r) = Auth.email (user r).
Proof.
  assert (Hrole : role (get_profile conn r) = Auth.user_role conn (user r)).
  { unfold get_profile, Auth.user_role.
    destruct conn as [|profiles]; [reflexivity|].
    destruct (Auth.fetch_profile profiles (user r)); reflexivity. }
  split; [exact Hrole|]. split.
  - rewrite Hrole. unfold Auth.require_admin.
    destruct (bool_decide _) eqn:Hb.
    + apply bool_decide_eq_true in Hb. split; [discriminate|contradiction].
    + apply bool_decide_eq_false in Hb. split; [|reflexivity]. intros _.
      destruct (decide (Auth.user_role conn (user r) = "admin")); tauto.
  - unfold get_profile. destruct conn as [|profiles];
      [split; reflexivity|].
    destruct (Auth.fetch_profile profiles (user r)); split; reflexivity.
Qed.

Lemma get_profile_role_is_the_gate_role_witness :
  let r := {| user := Sample.bob; created_at := "2026-01-21T09:00:00Z" |} in
  role (get_profile (Auth.Connected Sample.profiles) r) = "member"
  /\ Auth.require_admin (Auth.Connected Sample.profiles) Sample.bob
     <> Returned Sample.bob.
Proof.
  intros r.
  destruct (get_profile_role_is_the_gate_role (Auth.Connected Sample.profiles) r)
    as (Hrole & Hiff & _).
  split; [reflexivity|]. intros Hret. apply Hiff in Hret.
  vm_compute in Hret. discriminate.
Defined.

(** The name that [GET /api/profile] reports is the profile row's when the
    row has a non-empty one; with a row whose name is null or empty,
    without a row, or with the store out of reach, it is the name in the
    metadata, and the empty string when they have none. *)
Theorem get_profile_full_name (conn : Auth.connection) (r : response) :
  (forall profiles row name,
      conn = Auth.Connected profiles ->
      Auth.fetch_profile profiles (user r) = Some row ->
      Auth.Profile.full_name row = Some name -> name <> EmptyString ->
      full_name (get_profile conn r) = name)
  /\ (forall profiles row,
        conn = Auth.Connected profiles ->
        Auth.fetch_profile profiles (user r) = Some row ->
        Auth.Profile.full_name row = None
        \/ Auth.Profile.full_name row = Some EmptyString ->
        full_name (get_profile conn r)
        = default "" (Auth.user_metadata (user r) !! "full_name"))
  /\ (forall profiles,
        conn = Auth.Connected profiles ->
        Auth.fetch_profile profiles (user r) = None ->
        full_name (get_profile conn r)
        = default "" (Auth.user_metadata (user r) !! "full_name"))
  /\ (conn = Auth.Failed ->
      full_name (get_profile conn r)
      = default "" (Auth.user_metadata (user r) !! "full_name")).
Proof.
  split; [|split; [|split]].
  - intros profiles row name -> Hrow Hname Hne. unfold get_profile.
    rewrite Hrow, Hname, (truthy_Some name Hne). reflexivity.
  - intros profiles row -> Hrow Hname. unfold get_profile. rewrite Hrow.
    destruct Hname as [-> | ->]; reflexivity.
  - intros profiles -> Hrow. unfold get_profile. now rewrite Hrow.
  - intros ->. reflexivity.
Qed.

Lemma get_profile_full_name_witness :
  full_name (get_profile (Auth.Connected Sample.profiles)
               {| user := Sample.alice; created_at := "2026-01-21T09:00:00Z" |})
  = "Alice"
  /\ full_name (get_profile (Auth.Connected Sample.profiles)
                  {| user := Sample.bob; created_at := "2026-01-21T09:00:00Z" |})
     = "".
Proof.
  split.
  - destruct (get_profile_full_name (Auth.Connected Sample.profiles)
                {| user := Sample.alice; created_at := "2026-01-21T09:00:00Z" |})
      as (Hname & _).
    apply (Hname Sample.profiles Sample.alice_row "Alice");
      [reflexivity|reflexivity|reflexivity|discriminate].
  - destruct (get_profile_full_name (Auth.Connected Sample.profiles)
                {| user := Sample.bob; created_at := "2026-01-21T09:00:00Z" |})
      as (_ & Hnull & _).
    rewrite (Hnull Sample.profiles Sample.bob_row eq_refl eq_refl
               (or_introl eq_refl)).
    reflexivity.
Defined.

End CredentialsWitness.

(** ** Listings *)

Section OrderByFacts.
Context {A : Type}.
Variable before : A -> A -> bool.
Hypothesis before_asym : forall a b, before a b = true -> before b a = false.
Hypothesis before_negtrans :
  forall a b c, before a b = false -> before b c = false -> before a c = false.

Lemma place_perm (r : A) (l : list A) : Permutation (Query.place before r l) (r :: l).
Proof.
  induction l as [|x l IH]; simpl; [reflexivity|].
  destruct (before x r); [|reflexivity].
  rewrite IH. apply perm_swap.
Qed.

Lemma order_by_perm (l : list A) : Permutation (Query.order_by before l) l.
Proof.
  unfold Query.order_by. induction l as [|x l IH]; simpl; [reflexivity|].
  rewrite place_perm. now apply perm_skip.
Qed.

Lemma place_sorted (r : A) (l : list A) :
  StronglySorted (fun a b => before b a = false) l ->
  StronglySorted (fun a b => before b a = false) (Query.place before r l).
Proof.
  induction l as [|x l IH]; simpl; intros Hs.
  - constructor; [constructor|constructor].
  - apply StronglySorted_inv in Hs as [Hs Hx].
    destruct (before x r) eqn:Hxr.
    + constructor; [now apply IH|].
      apply (Permutation_Forall (Permutation_sym (place_perm r l))).
      constructor; [now apply before_asym|exact Hx].
    + constructor; [now constructor|].
      constructor; [exact Hxr|].
      rewrite Forall_forall in *. intros y Hy.
      apply (before_negtrans y x r); auto.
Qed.

Lemma order_by_sorted (l : list A) :
  StronglySorted (fun a b => before b a = false) (Query.order_by before l).
Proof.
  unfold Query.order_by. induction l as [|x l IH]; simpl; [constructor|].
  now apply place_sorted.
Qed.

Lemma sorted_lookup (R : A -> A -> Prop) (l : list A) (i j : nat) (a b : A) :
  StronglySorted R l -> l !! i = Some a -> l !! j = Some b -> (i < j)%nat ->
  R a b.
Proof.
  intros Hs. revert i j. induction Hs as [|x l Hs IH Hx]; intros i j Hi Hj Hlt.
  - discriminate.
  - destruct j as [|j]; [lia|]. destruct i as [|i].
    + injection Hi as <-. simpl in Hj. rewrite Forall_forall in Hx.
      apply Hx. apply list_elem_of_lookup. eauto.
    + simpl in Hi, Hj. apply (IH i j); auto. lia.
Qed.

(** [ORDER BY] keeps the rows and puts none after a row that the clause
    ranks strictly behind it. *)
Lemma order_by_spec (l : list A) :
  Permutation (Query.order_by before l) l
  /\ (forall i j a b,
        Query.order_by before l !! i = Some a ->
        Query.order_by before l !! j = Some b ->
        (i < j)%nat -> before b a = false).
Proof.
  split; [apply order_by_perm|]. intros i j a b Hi Hj Hlt.
  apply (sorted_lookup (fun a b => before b a = false)
           (Query.order_by before l) i j a b); auto.
  apply order_by_sorted.
Qed.

End OrderByFacts.

Section MemberAttendanceClaims.
Import Clock Attendance.

Lemma check_in_desc_asym (a b : row) :
  MemberAttendance.check_in_desc a b = true -> MemberAttendance.check_in_desc b a = false.
Proof.
  unfold MemberAttendance.check_in_desc. rewrite !Z.gtb_ltb, Z.ltb_lt, Z.ltb_ge. lia.
Qed.

Lemma check_in_desc_negtrans (a b c : row) :
  MemberAttendance.check_in_desc a b = false -> MemberAttendance.check_in_desc b c = false ->
  MemberAttendance.check_in_desc a c = false.
Proof.
  unfold MemberAttendance.check_in_desc. rewrite !Z.gtb_ltb, !Z.ltb_ge. lia.
Qed.

Lemma days_total (l : list row) :
  length l = (MemberAttendance.days present l + MemberAttendance.days late l + MemberAttendance.days absent l)%nat.
Proof.
  unfold MemberAttendance.days. induction l as [|r l IH]; simpl; [reflexivity|].
  destruct (status r); simpl; lia.
Qed.

Lemma days_perm (s : attendance_status) (l l' : list row) :
  Permutation l l' -> MemberAttendance.days s l = MemberAttendance.days s l'.
Proof.
  unfold MemberAttendance.days. intros H. induction H; simpl.
  - reflexivity.
  - destruct (match status x, s with
              | present, present | absent, absent | late, late => true
              | _, _ => false end); simpl; lia.
  - destruct (match status x, s with
              | present, present | absent, absent | late, late => true
              | _, _ => false end),
             (match status y, s with
              | present, present | absent, absent | late, late => true
              | _, _ => false end); simpl; lia.
  - lia.
Qed.

Lemma own_rows_after_sweep (now : timestamp) (user : uuid) (t : table) :
  length (List.filter (fun r => bool_decide (user_id r = user))
            (snd (auto_expire_sessions now t)))
  = length (List.filter (fun r => bool_decide (user_id r = user)) t).
Proof.
  cbn [snd auto_expire_sessions]. unfold Sql.update.
  induction t as [|r t IH]; [reflexivity|].
  rewrite fmap_cons. cbn [List.filter].
  assert (Hu : user_id (if stale now r then expire r else r) = user_id r)
    by (destruct (stale now r); reflexivity).
  rewrite Hu. destruct (bool_decide _); cbn [length]; now rewrite IH.
Qed.

(** The counts that [member_attendance] reports add up: the total is the
    number of the caller's rows in the table, and it is the sum of the
    present, late and absent MemberAttendance.days. *)
Theorem member_attendance_stats_add_up (sweep_now : timestamp)
    (user : Auth.User) (t : table) :
  let report := fst (MemberAttendance.member_attendance sweep_now user t) in
  MemberAttendance.totalDays (MemberAttendance.stats report)
  = (MemberAttendance.presentDays (MemberAttendance.stats report) + MemberAttendance.lateDays (MemberAttendance.stats report)
     + MemberAttendance.absentDays (MemberAttendance.stats report))%nat
  /\ MemberAttendance.totalDays (MemberAttendance.stats report)
     = length (List.filter (fun r => bool_decide (user_id r = Auth.id user)) t)
  /\ MemberAttendance.totalDays (MemberAttendance.stats report) = length (MemberAttendance.attendance report).
Proof.
  intros report. subst report. cbn [fst MemberAttendance.member_attendance MemberAttendance.stats
    MemberAttendance.totalDays MemberAttendance.presentDays
    MemberAttendance.lateDays MemberAttendance.absentDays
    MemberAttendance.attendance].
  split; [apply days_total|]. split; [|reflexivity].
  rewrite (Permutation_length (order_by_perm MemberAttendance.check_in_desc _)).
  apply own_rows_after_sweep.
Qed.

(** The listing of [member_attendance] holds the caller's rows of the swept
    table, each once and no row of another user, newest check-in first; and
    none of them is an open session older than 120 minutes at the sweep
    that is still marked present or late. *)
Theorem member_attendance_listing (sweep_now : timestamp)
    (user : Auth.User) (t : table) :
  let report := fst (MemberAttendance.member_attendance sweep_now user t) in
  let swept := snd (auto_expire_sessions sweep_now t) in
  snd (MemberAttendance.member_attendance sweep_now user t) = swept
  /\ Permutation (MemberAttendance.attendance report)
       (List.filter (fun r => bool_decide (user_id r = Auth.id user)) swept)
  /\ (forall r, In r (MemberAttendance.attendance report) <->
                In r swept /\ user_id r = Auth.id user)
  /\ (forall i j a b,
        MemberAttendance.attendance report !! i = Some a -> MemberAttendance.attendance report !! j = Some b ->
        (i < j)%nat -> check_in_time b <= check_in_time a)
  /\ (forall r, In r (MemberAttendance.attendance report) ->
        check_out_time r = None -> status r <> absent ->
        sweep_now <= check_in_time r + 120 * minute).
Proof.
  intros report swept. subst report.
  cbn [fst snd MemberAttendance.member_attendance MemberAttendance.attendance]. fold swept.
  destruct (order_by_spec MemberAttendance.check_in_desc check_in_desc_asym check_in_desc_negtrans
              (List.filter (fun r => bool_decide (user_id r = Auth.id user)) swept))
    as (Hperm & Hord).
  assert (Hin : forall r,
             In r (Query.order_by MemberAttendance.check_in_desc
                     (List.filter
                        (fun r => bool_decide (user_id r = Auth.id user)) swept))
             <-> In r swept /\ user_id r = Auth.id user).
  { intros r. split.
    - intros H. apply (Permutation_in _ Hperm) in H.
      apply filter_In in H as [H Hu]. now apply bool_decide_eq_true in Hu.
    - intros [H Hu]. apply (Permutation_in _ (Permutation_sym Hperm)).
      apply filter_In. split; [exact H|]. now apply bool_decide_eq_true. }
  split; [reflexivity|]. split; [exact Hperm|]. split; [exact Hin|]. split.
  - intros i j a b Hi Hj Hlt. specialize (Hord i j a b Hi Hj Hlt).
    unfold MemberAttendance.check_in_desc in Hord. rewrite Z.gtb_ltb, Z.ltb_ge in Hord. exact Hord.
  - intros r Hr Hnull Hst. apply Hin in Hr as [Hr _].
    subst swept. apply sweep_In in Hr as (r0 & _ & ->).
    destruct (stale sweep_now r0) eqn:Hs; [discriminate|].
    now apply not_stale_fresh.
Qed.

Lemma member_attendance_listing_witness :
  let T := Sample.midnight + 8 * hour in
  let t := [Sample.finished (T - day) (T - day + hour); Sample.session T] in
  let report := fst (MemberAttendance.member_attendance (T + 3 * hour) Sample.alice t) in
  check_in_time <$> MemberAttendance.attendance report = [T; T - day]
  /\ (forall i j a b,
        MemberAttendance.attendance report !! i = Some a -> MemberAttendance.attendance report !! j = Some b ->
        (i < j)%nat -> check_in_time b <= check_in_time a).
Proof.
  intros T t report. split; [reflexivity|].
  destruct (member_attendance_listing (T + 3 * hour) Sample.alice t)
    as (_ & _ & _ & Hord & _).
  exact Hord.
Defined.

End MemberAttendanceClaims.

Section LeaveListings.
Import Clock.







Lemma by_status_then_newest_iff (a b : AdminLeaves.t) :
  AdminLeaves.by_status_then_newest a b = false <->
  AdminLeaves.rank (Leaves.status (AdminLeaves.leave b))
  < AdminLeaves.rank (Leaves.status (AdminLeaves.leave a))
  \/ (AdminLeaves.rank (Leaves.status (AdminLeaves.leave a))
      = AdminLeaves.rank (Leaves.status (AdminLeaves.leave b))
      /\ Leaves.created_at (AdminLeaves.leave a)
         <= Leaves.created_at (AdminLeaves.leave b)).
Proof.
  unfold AdminLeaves.by_status_then_newest.
  rewrite orb_false_iff, andb_false_iff, Z.ltb_ge, Z.eqb_neq, Z.gtb_ltb, Z.ltb_ge.
  lia.
Qed.

Lemma by_status_then_newest_asym (a b : AdminLeaves.t) :
  AdminLeaves.by_status_then_newest a b = true ->
  AdminLeaves.by_status_then_newest b a = false.
Proof.
  intros H. apply by_status_then_newest_iff.
  destruct (AdminLeaves.by_status_then_newest b a) eqn:Hba;
    unfold AdminLeaves.by_status_then_newest in H, Hba;
    rewrite orb_true_iff, andb_true_iff, Z.ltb_lt, Z.eqb_eq, Z.gtb_ltb, Z.ltb_lt
      in H; [|lia].
  rewrite orb_true_iff, andb_true_iff, Z.ltb_lt, Z.eqb_eq, Z.gtb_ltb, Z.ltb_lt
    in Hba. lia.
Qed.

Lemma by_status_then_newest_negtrans (a b c : AdminLeaves.t) :
  AdminLeaves.by_status_then_newest a b = false ->
  AdminLeaves.by_status_then_newest b c = false ->
  AdminLeaves.by_status_then_newest a c = false.
Proof. rewrite !by_status_then_newest_iff. lia. Qed.

Lemma joined_In (profiles : list Auth.Profile.row) (l : Leaves.row)
    (row : AdminLeaves.t) :
  In row (AdminLeaves.joined profiles l) ->
  AdminLeaves.leave row = l
  /\ exists p, In p profiles /\ Auth.Profile.id p = Leaves.user_id l
       /\ AdminLeaves.user_name row = Auth.Profile.full_name p
       /\ AdminLeaves.user_email row = Auth.Profile.email p.
Proof.
  unfold AdminLeaves.joined. rewrite in_flat_map.
  intros (p & Hp & Hrow). apply filter_In in Hp as [Hp Hid].
  apply bool_decide_eq_true in Hid.
  apply in_map_iff in Hrow as (name & <- & _).
  split; [reflexivity|]. exists p. auto.
Qed.

(** [get_all_leaves] lists pending leaves first, then approved, then
    rejected ones, and within one status the newest first.  Every row is a
    leave of the table with the name and email of a profile of its owner; a
    leave whose owner has no profile is not listed. *)
Theorem get_all_leaves_order (profiles : list Auth.Profile.row)
    (leaves : Leaves.table) :
  let listing := AdminLeaves.get_all_leaves profiles leaves in
  (forall i j a b,
     listing !! i = Some a -> listing !! j = Some b -> (i < j)%nat ->
     AdminLeaves.rank (Leaves.status (AdminLeaves.leave a))
     <= AdminLeaves.rank (Leaves.status (AdminLeaves.leave b))
     /\ (Leaves.status (AdminLeaves.leave a) = Leaves.status (AdminLeaves.leave b) ->
         Leaves.created_at (AdminLeaves.leave b)
         <= Leaves.created_at (AdminLeaves.leave a)))
  /\ (forall row, In row listing ->
        In (AdminLeaves.leave row) leaves
        /\ exists p, In p profiles
             /\ Auth.Profile.id p = Leaves.user_id (AdminLeaves.leave row)
             /\ AdminLeaves.user_name row = Auth.Profile.full_name p
             /\ AdminLeaves.user_email row = Auth.Profile.email p)
  /\ (forall l, In l leaves ->
        (forall p, In p profiles -> Auth.Profile.id p <> Leaves.user_id l) ->
        forall row, In row listing -> AdminLeaves.leave row <> l).
Proof.
  intros listing. subst listing. unfold AdminLeaves.get_all_leaves.
  destruct (order_by_spec AdminLeaves.by_status_then_newest
              by_status_then_newest_asym by_status_then_newest_negtrans
              (List.flat_map (AdminLeaves.joined profiles) leaves))
    as (Hperm & Hord).
  assert (Hrows : forall row,
             In row (Query.order_by AdminLeaves.by_status_then_newest
                       (List.flat_map (AdminLeaves.joined profiles) leaves)) ->
             exists l, In l leaves /\ In row (AdminLeaves.joined profiles l)).
  { intros row Hrow. apply (Permutation_in _ Hperm) in Hrow.
    now apply in_flat_map in Hrow. }
  split; [|split].
  - intros i j a b Hi Hj Hlt. specialize (Hord i j a b Hi Hj Hlt).
    apply by_status_then_newest_iff in Hord. split; [lia|].
    intros Hst. rewrite Hst in Hord. lia.
  - intros row Hrow. destruct (Hrows row Hrow) as (l & Hl & Hj).
    apply joined_In in Hj as (-> & Hp). split; [exact Hl|exact Hp].
  - intros l Hl Hnone row Hrow Heq.
    destruct (Hrows row Hrow) as (l' & _ & Hj).
    apply joined_In in Hj as (Hleave & p & Hp & Hid & _).
    apply (Hnone p Hp). congruence.
Qed.

Lemma get_all_leaves_order_witness :
  let older :=
    {| Leaves.id := "01de0000-0000-4000-8000-000000000002"; Leaves.user_id := "a11ce000-0000-4000-8000-00000000000a";
       Leaves.start_date := "2026-01-05"; Leaves.end_date := "2026-01-06";
       Leaves.reason := "move"; Leaves.status := Leaves.rejected;
       Leaves.admin_note := None; Leaves.approved_by := Some "a11ce000-0000-4000-8000-00000000000a";
       Leaves.created_at := Sample.midnight - day;
       Leaves.updated_at := Sample.midnight |} in
  let listing :=
    AdminLeaves.get_all_leaves Sample.profiles
      [older; Sample.leave Leaves.approved; Sample.leave Leaves.pending] in
  Leaves.status <$> (AdminLeaves.leave <$> listing)
  = [Leaves.pending; Leaves.approved; Leaves.rejected]
  /\ (forall row, In row listing -> In (AdminLeaves.leave row)
        [older; Sample.leave Leaves.approved; Sample.leave Leaves.pending]).
Proof.
  intros older listing. split; [reflexivity|]. intros row Hrow.
  destruct (get_all_leaves_order Sample.profiles
              [older; Sample.leave Leaves.approved; Sample.leave Leaves.pending])
    as (_ & Hin & _).
  now destruct (Hin row Hrow) as (H & _).
Defined.

End LeaveListings.

Section LeaveListingComplete.
Import Clock.

Lemma filter_by_id_unique (profiles : list Auth.Profile.row)
    (f : Auth.Profile.row -> bool) (p : Auth.Profile.row) :
  NoDup (List.map Auth.Profile.id profiles) ->
  In p profiles ->
  (forall q, f q = true <-> Auth.Profile.id q = Auth.Profile.id p) ->
  List.filter f profiles = [p].
Proof.
  intros Hnd Hp Hf. induction profiles as [|x rest IH]; [destruct Hp|].
  simpl in Hnd. apply NoDup_cons in Hnd as [Hx Hnd].
  assert (Hrest : forall q, In q rest ->
                    Auth.Profile.id q <> Auth.Profile.id x).
  { intros q Hq Heq. apply Hx. rewrite <- Heq.
    apply list_elem_of_In, in_map. exact Hq. }
  simpl. destruct Hp as [->|Hp].
  - rewrite (proj2 (Hf p) eq_refl). f_equal.
    assert (Hnone : forall q, In q rest -> f q = false).
    { intros q Hq. destruct (f q) eqn:Hfq; [|reflexivity].
      apply Hf in Hfq. now destruct (Hrest q Hq). }
    clear -Hnone. induction rest as [|y rest IHr]; [reflexivity|]. simpl.
    rewrite (Hnone y (or_introl eq_refl)). apply IHr.
    intros q Hq. apply Hnone. now right.
  - destruct (f x) eqn:Hfx.
    + apply Hf in Hfx. now destruct (Hrest p Hp).
    + now apply IH.
Qed.

Lemma left_join_full_name_single (profiles : list Auth.Profile.row)
    (key : option uuid) :
  NoDup (List.map Auth.Profile.id profiles) ->
  exists name, Query.left_join_full_name profiles key = [name].
Proof.
  intros Hnd. unfold Query.left_join_full_name.
  destruct key as [k|]; [|eauto].
  destruct (List.filter _ profiles) as [|p found] eqn:Hf; [eauto|].
  assert (Hp : In p (List.filter
                       (fun p => bool_decide (Auth.Profile.id p = k)) profiles))
    by (rewrite Hf; now left).
  apply filter_In in Hp as [Hp Hk]. apply bool_decide_eq_true in Hk.
  rewrite <- Hf.
  rewrite (filter_by_id_unique profiles _ p Hnd Hp).
  - eauto.
  - intros q. rewrite bool_decide_eq_true. split; congruence.
Qed.

(** With profile ids that are unique and every leave owned by a user with a
    profile, as the keys of the tables require, [get_all_leaves] lists each
    leave of the table exactly once. *)
Theorem get_all_leaves_complete (profiles : list Auth.Profile.row)
    (leaves : Leaves.table) :
  NoDup (List.map Auth.Profile.id profiles) ->
  (forall l, In l leaves ->
     exists p, In p profiles /\ Auth.Profile.id p = Leaves.user_id l) ->
  Permutation
    (List.map AdminLeaves.leave (AdminLeaves.get_all_leaves profiles leaves))
    leaves
  /\ length (AdminLeaves.get_all_leaves profiles leaves) = length leaves.
Proof.
  intros Hnd Hfk.
  assert (Hperm : Permutation
            (List.map AdminLeaves.leave
               (AdminLeaves.get_all_leaves profiles leaves)) leaves).
  { unfold AdminLeaves.get_all_leaves.
    rewrite (Permutation_map AdminLeaves.leave
               (order_by_perm AdminLeaves.by_status_then_newest _)).
    induction leaves as [|l leaves IH]; [reflexivity|].
    cbn [List.flat_map]. rewrite map_app.
    destruct (Hfk l (or_introl eq_refl)) as (p & Hp & Hid).
    unfold AdminLeaves.joined at 1.
    rewrite (filter_by_id_unique profiles _ p Hnd Hp).
    - destruct (left_join_full_name_single profiles (Leaves.approved_by l) Hnd)
        as (name & ->).
      simpl. apply perm_skip. apply IH. intros l' Hl'. apply Hfk. now right.
    - intros q. rewrite bool_decide_eq_true. split; congruence. }
  split; [exact Hperm|].
  rewrite <- (Permutation_length Hperm). now rewrite length_map.
Qed.

Lemma get_all_leaves_complete_witness :
  length (AdminLeaves.get_all_leaves Sample.profiles
            [Sample.leave Leaves.approved; Sample.leave Leaves.pending])
  = 2%nat.
Proof.
  assert (Hnd : NoDup (List.map Auth.Profile.id Sample.profiles)).
  { apply NoDup_cons. split.
    - intros H. apply list_elem_of_In in H. destruct H as [H|[]]. discriminate.
    - apply NoDup_cons. split; [intros H; inversion H|apply NoDup_nil_2]. }
  destruct (get_all_leaves_complete Sample.profiles
              [Sample.leave Leaves.approved; Sample.leave Leaves.pending] Hnd)
    as (_ & Hlen).
  - intros l [<-|[<-|[]]]; exists Sample.bob_row;
      (split; [right; left; reflexivity|reflexivity]).
  - exact Hlen.
Defined.

End LeaveListingComplete.

(** ** Accounts *)

Section AccountFacts.
Import Http Accounts.

Lemma has_id_fetch (profiles : list Auth.Profile.row) (u : Auth.User) :
  has_id profiles (Auth.id u) = true <->
  exists p, Auth.fetch_profile profiles u = Some p.
Proof.
  unfold has_id, Auth.fetch_profile.
  induction profiles as [|x ps IH]; simpl.
  - split; [discriminate|]. intros (p & Hp). discriminate.
  - destruct (bool_decide (Auth.Profile.id x = Auth.id u)); simpl.
    + split; [eauto|reflexivity].
    + exact IH.
Qed.

Lemma fetch_profile_app (profiles : list Auth.Profile.row)
    (row : Auth.Profile.row) (u : Auth.User) :
  Auth.fetch_profile (profiles ++ [row])%list u
  = match Auth.fetch_profile profiles u with
    | Some p => Some p
    | None => if bool_decide (Auth.Profile.id row = Auth.id u)
              then Some row else None
    end.
Proof.
  unfold Auth.fetch_profile. induction profiles as [|x ps IH]; simpl.
  - reflexivity.
  - destruct (bool_decide (Auth.Profile.id x = Auth.id u)); [reflexivity|exact IH].
Qed.

Lemma fetch_profile_update (profiles : list Auth.Profile.row) (u : Auth.User)
    (set_ : Auth.Profile.row -> Auth.Profile.row) :
  (forall p, Auth.Profile.id (set_ p) = Auth.Profile.id p) ->
  Auth.fetch_profile
    (Sql.update (fun p => bool_decide (Auth.Profile.id p = Auth.id u)) set_
       profiles) u
  = set_ <$> Auth.fetch_profile profiles u.
Proof.
  intros Hid. unfold Auth.fetch_profile, Sql.update.
  induction profiles as [|x ps IH]; [reflexivity|].
  rewrite fmap_cons. cbn [List.find].
  destruct (bool_decide (Auth.Profile.id x = Auth.id u)) eqn:Hx.
  - rewrite Hid, Hx. reflexivity.
  - rewrite Hx. exact IH.
Qed.

Lemma require_admin_iff (conn : Auth.connection) (u : Auth.User) :
  Auth.require_admin conn u = Returned u <-> Auth.user_role conn u = "admin".
Proof.
  unfold Auth.require_admin. destruct (bool_decide _) eqn:Hb.
  - apply bool_decide_eq_true in Hb. split; [discriminate|contradiction].
  - apply bool_decide_eq_false in Hb. split; [|reflexivity]. intros _.
    destruct (decide (Auth.user_role conn u = "admin")); tauto.
Qed.

Lemma role_text_admin (r : Auth.profile_role) :
  Auth.role_text r = "admin" <-> r = Auth.admin.
Proof. destruct r; simpl; split; congruence. Qed.

(** Whoever signs up chooses the role: when the provider accepts the
    sign-up and the store takes the row (the id has a row already, or the
    email is free), the profile of the new user carries the requested role,
    and the admin gate lets that user through exactly when "admin" was
    requested. *)
Theorem sign_up_sets_the_gate_role (provider : credentials -> provider_reply)
    (profiles : list Auth.Profile.row) (user_data : SignUpRequest.t)
    (u : Auth.User) (session : option string) :
  provider {| email := SignUpRequest.email user_data;
              password := SignUpRequest.password user_data;
              data := Some (sign_up_metadata user_data) |}
  = ProviderResponse (Some u) session ->
  has_id profiles (Auth.id u) = true
  \/ email_taken profiles (SignUpRequest.email user_data) = false ->
  exists resp profiles',
    sign_up provider (Auth.Connected profiles) user_data
    = (Returned resp, Auth.Connected profiles')
    /\ UserInfo.role (user resp) = Auth.role_text (SignUpRequest.role user_data)
    /\ UserInfo.user_metadata (user resp) !! "role"
       = Some (Auth.role_text (SignUpRequest.role user_data))
    /\ Auth.user_role (Auth.Connected profiles') u
       = Auth.role_text (SignUpRequest.role user_data)
    /\ (Auth.require_admin (Auth.Connected profiles') u = Returned u <->
        SignUpRequest.role user_data = Auth.admin).
Proof.
  intros Hprov Hstore. unfold sign_up. rewrite Hprov.
  set (row := {| Auth.Profile.id := Auth.id u;
                 Auth.Profile.email := SignUpRequest.email user_data;
                 Auth.Profile.full_name := SignUpRequest.full_name user_data;
                 Auth.Profile.role := SignUpRequest.role user_data |}).
  assert (Hup : exists profiles',
             upsert profiles row = Some profiles'
             /\ exists p, Auth.fetch_profile profiles' u = Some p
                          /\ Auth.Profile.role p = SignUpRequest.role user_data).
  { unfold upsert. cbn [Auth.Profile.id Auth.Profile.email row].
    destruct (has_id profiles (Auth.id u)) eqn:Hid.
    - eexists. split; [reflexivity|].
      apply has_id_fetch in Hid as (p & Hp).
      rewrite fetch_profile_update by reflexivity. rewrite Hp.
      eexists. split; reflexivity.
    - destruct Hstore as [Hs|Hs]; [discriminate|]. rewrite Hs.
      eexists. split; [reflexivity|]. rewrite fetch_profile_app.
      destruct (Auth.fetch_profile profiles u) as [p|] eqn:Hp.
      + assert (has_id profiles (Auth.id u) = true)
          by (apply has_id_fetch; eauto). congruence.
      + cbn [Auth.Profile.id]. rewrite bool_decide_eq_true_2 by reflexivity.
        eexists. split; reflexivity. }
  destruct Hup as (profiles' & -> & p & Hp & Hrole).
  eexists. exists profiles'. split; [reflexivity|].
  cbn [user UserInfo.role UserInfo.user_metadata].
  assert (Hgate : Auth.user_role (Auth.Connected profiles') u
                  = Auth.role_text (SignUpRequest.role user_data))
    by (cbn [Auth.user_role]; now rewrite Hp, Hrole).
  split; [reflexivity|]. split.
  - unfold sign_up_metadata.
    destruct (Text.truthy (SignUpRequest.full_name user_data)).
    + rewrite lookup_insert_ne by discriminate. apply lookup_singleton_eq.
    + apply lookup_singleton_eq.
  - split; [exact Hgate|].
    rewrite require_admin_iff, Hgate. apply role_text_admin.
Qed.

End AccountFacts.

Section AccountClaims.
Import Http Accounts.

Lemma sign_up_sets_the_gate_role_witness :
  let provider := fun _ : credentials => ProviderResponse (Some Sample.bob) None in
  let user_data :=
    {| SignUpRequest.email := "bob@example.com";
       SignUpRequest.password := "pw";
       SignUpRequest.full_name := Some "Bob";
       SignUpRequest.role := Auth.admin |} in
  Auth.require_admin (Auth.Connected Sample.profiles) Sample.bob
  = Raised Auth.admin_required
  /\ exists profiles',
       snd (sign_up provider (Auth.Connected Sample.profiles) user_data)
       = Auth.Connected profiles'
       /\ Auth.require_admin (Auth.Connected profiles') Sample.bob
          = Returned Sample.bob.
Proof.
  intros provider user_data. split; [reflexivity|].
  destruct (sign_up_sets_the_gate_role provider Sample.profiles user_data
              Sample.bob None eq_refl (or_introl eq_refl))
    as (resp & profiles' & Hres & _ & _ & _ & Hgate).
  exists profiles'. split; [now rewrite Hres|]. now apply Hgate.
Defined.



(** The role that [sign_in] reports is the profile row's, and "member"
    without a row or without the store: the metadata of the provider are
    never asked.  A first sign-in stores a member row when the email is
    free; whenever the user has a row after the sign-in, the admin gate on
    the store so left agrees with the role reported. *)
Theorem sign_in_role_comes_from_the_profile
    (provider : credentials -> provider_reply) (conn : Auth.connection)
    (creds : SignInRequest.t) (u : Auth.User) (token : string) :
  provider {| email := SignInRequest.email creds;
              password := SignInRequest.password creds; data := None |}
  = ProviderResponse (Some u) (Some token) ->
  exists resp conn',
    sign_in provider conn creds = (Returned resp, conn')
    /\ access_token resp = token
    /\ (UserInfo.role (user resp) = "admin" <->
        exists profiles p,
          conn = Auth.Connected profiles
          /\ Auth.fetch_profile profiles u = Some p
          /\ Auth.Profile.role p = Auth.admin)
    /\ (UserInfo.role (user resp) <> "admin" ->
        UserInfo.role (user resp) = "member")
    /\ (forall profiles,
          conn = Auth.Connected profiles ->
          Auth.fetch_profile profiles u <> None
          \/ email_taken profiles (Auth.email u) = false ->
          exists profiles',
            conn' = Auth.Connected profiles'
            /\ Auth.fetch_profile profiles' u <> None
            /\ Auth.user_role conn' u = UserInfo.role (user resp)).
Proof.
  intros Hprov. unfold sign_in. rewrite Hprov.
  destruct conn as [|profiles].
  - eexists. eexists. split; [reflexivity|]. split; [reflexivity|].
    cbn [user UserInfo.role]. split; [|split].
    + split; [discriminate|]. intros (ps & p & Hc & _). discriminate.
    + reflexivity.
    + intros ps Hc. discriminate.
  - destruct (Auth.fetch_profile profiles u) as [p|] eqn:Hp.
    + eexists. eexists. split; [reflexivity|]. split; [reflexivity|].
      cbn [user UserInfo.role]. split; [|split].
      * rewrite role_text_admin. split.
        -- intros Hr. exists profiles, p. auto.
        -- intros (ps & q & [= <-] & Hq & Hr). congruence.
      * destruct (Auth.Profile.role p); simpl; congruence.
      * intros ps [= <-] _. exists profiles. split; [reflexivity|].
        split; [congruence|]. cbn [Auth.user_role]. now rewrite Hp.
    + destruct (email_taken profiles (Auth.email u)) eqn:He.
      * eexists. eexists. split; [reflexivity|]. split; [reflexivity|].
        cbn [user UserInfo.role]. split; [|split].
        -- split; [discriminate|]. intros (ps & q & [= <-] & Hq & _). congruence.
        -- reflexivity.
        -- intros ps [= <-] [Hrow|Hfree]; congruence.
      * eexists. eexists. split; [reflexivity|]. split; [reflexivity|].
        cbn [user UserInfo.role]. split; [|split].
        -- split; [discriminate|]. intros (ps & q & [= <-] & Hq & _). congruence.
        -- reflexivity.
        -- intros ps [= <-] _. eexists. split; [reflexivity|].
           cbn [Auth.user_role]. rewrite fetch_profile_app, Hp.
           cbn [Auth.Profile.id]. rewrite bool_decide_eq_true_2 by reflexivity.
           split; [discriminate|reflexivity].
Qed.

(** [bob] has admin in his metadata and no row yet: the gate lets him
    through, his first sign-in reports "member" and stores a member row, and
    from then on the gate refuses him. *)
Lemma sign_in_role_comes_from_the_profile_witness :
  let provider := fun _ : credentials =>
    ProviderResponse (Some Sample.bob) (Some "t0k3n") in
  let creds := {| SignInRequest.email := "bob@example.com";
                  SignInRequest.password := "pw" |} in
  Auth.require_admin (Auth.Connected [Sample.alice_row]) Sample.bob
  = Returned Sample.bob
  /\ exists resp conn',
       sign_in provider (Auth.Connected [Sample.alice_row]) creds
       = (Returned resp, conn')
       /\ UserInfo.role (user resp) = "member"
       /\ Auth.require_admin conn' Sample.bob = Raised Auth.admin_required.
Proof.
  intros provider creds. split; [reflexivity|].
  destruct (sign_in_role_comes_from_the_profile provider
              (Auth.Connected [Sample.alice_row]) creds Sample.bob "t0k3n"
              eq_refl)
    as (resp & conn' & Hres & _ & _ & _ & _).
  exists resp, conn'. split; [exact Hres|].
  vm_compute in Hres. injection Hres as <- <-. split; reflexivity.
Defined.



End AccountClaims.
